(** * BIMailer: the processing pipeline, the run lock and the configuration
    checks, embedded from the Python sources under [Scripts/].

    Strings are Python [str] values restricted to code points 0..255, kept as
    Rocq [string]s.  Python dictionaries are kept as insertion-ordered
    association lists ([PyDict]), Python sets as [gset], and the file system
    as a [gmap] from directories to their entries.  Times are integers, in
    microseconds. *)

From Stdlib Require Import ZArith Ascii String List Bool Lia.
From stdpp Require Import base option list gmap strings sorting.

Open Scope string_scope.
Open Scope list_scope.

(** ** Python string primitives used by [utils.py] *)

Module PyStr.

Definition chars : string -> list ascii := list_ascii_of_string.
Definition str : list ascii -> string := string_of_list_ascii.

Definition code (c : ascii) : N := N_of_ascii c.

Definition in_range (lo hi : N) (c : ascii) : bool :=
  (lo <=? code c)%N && (code c <=? hi)%N.

Definition is_upper (c : ascii) : bool := in_range 65 90 c.
Definition is_lower (c : ascii) : bool := in_range 97 122 c.
Definition is_digit (c : ascii) : bool := in_range 48 57 c.
Definition is_alpha (c : ascii) : bool := is_upper c || is_lower c.
Definition is_alnum (c : ascii) : bool := is_alpha c || is_digit c.

(** [str.isspace] on the code points below 256. *)
Definition isspace (c : ascii) : bool :=
  in_range 9 13 c || in_range 28 32 c
  || (code c =? 133)%N || (code c =? 160)%N.

(** [str.lower] on one code point below 256. *)
Definition lower_char (c : ascii) : ascii :=
  if is_upper c || (in_range 192 222 c && negb (code c =? 215)%N)
  then ascii_of_N (code c + 32) else c.

Definition lower (s : string) : string := str (map lower_char (chars s)).

Fixpoint lstrip_chars (l : list ascii) : list ascii :=
  match l with
  | [] => []
  | c :: l' => if isspace c then lstrip_chars l' else l
  end.

Definition rstrip_chars (l : list ascii) : list ascii :=
  rev (lstrip_chars (rev l)).

Definition strip_chars (l : list ascii) : list ascii :=
  rstrip_chars (lstrip_chars l).

(** [s.strip()] *)
Definition strip (s : string) : string := str (strip_chars (chars s)).

(** [s.split(sep)] for a one-character separator: never returns the empty
    list, ["".split(";")] is [[""]]. *)
Fixpoint split_chars (sep : ascii) (l : list ascii) : list (list ascii) :=
  match l with
  | [] => [[]]
  | c :: l' =>
      if Ascii.eqb c sep then [] :: split_chars sep l'
      else match split_chars sep l' with
           | piece :: rest => (c :: piece) :: rest
           | [] => [[c]]
           end
  end.

Definition split (sep : ascii) (s : string) : list string :=
  map str (split_chars sep (chars s)).

(** [s.endswith(suffix)] *)
Definition endswith (s suffix : string) : bool :=
  String.prefix (String.rev suffix) (String.rev s).

End PyStr.

(** ** The fragment of [re] used by [validate_email] *)

Module Re.

Inductive regex : Type :=
| Void
| Eps
| Class (p : ascii -> bool)
| Seq (r1 r2 : regex)
| Alt (r1 r2 : regex)
| Star (r : regex).

(** [r+] and [r{2,}] *)
Definition plus (r : regex) : regex := Seq r (Star r).
Definition at_least_two (r : regex) : regex := Seq r (Seq r (Star r)).
Definition lit (c : ascii) : regex := Class (Ascii.eqb c).

Fixpoint nullable (r : regex) : bool :=
  match r with
  | Void => false
  | Eps => true
  | Class _ => false
  | Seq r1 r2 => nullable r1 && nullable r2
  | Alt r1 r2 => nullable r1 || nullable r2
  | Star _ => true
  end.

Fixpoint deriv (c : ascii) (r : regex) : regex :=
  match r with
  | Void => Void
  | Eps => Void
  | Class p => if p c then Eps else Void
  | Seq r1 r2 =>
      if nullable r1 then Alt (Seq (deriv c r1) r2) (deriv c r2)
      else Seq (deriv c r1) r2
  | Alt r1 r2 => Alt (deriv c r1) (deriv c r2)
  | Star r1 => Seq (deriv c r1) (Star r1)
  end.

(** The whole of [l] is matched by [r]. *)
Fixpoint fullmatch (r : regex) (l : list ascii) : bool :=
  match l with
  | [] => nullable r
  | c :: l' => fullmatch (deriv c r) l'
  end.

(** [re.match("^" r "$", s) is not None]: [$] also matches just before a
    newline that ends the string. *)
Definition match_anchored (r : regex) (s : string) : bool :=
  let l := PyStr.chars s in
  fullmatch r l
  || match rev l with
     | c :: l' => Ascii.eqb c "010" && fullmatch r (rev l')
     | [] => false
     end.

(** Denotation of a regular expression, used to reason about [fullmatch]. *)
Inductive lang : regex -> list ascii -> Prop :=
| lang_eps : lang Eps []
| lang_class p c : p c = true -> lang (Class p) [c]
| lang_seq r1 r2 l1 l2 : lang r1 l1 -> lang r2 l2 -> lang (Seq r1 r2) (l1 ++ l2)
| lang_alt_l r1 r2 l : lang r1 l -> lang (Alt r1 r2) l
| lang_alt_r r1 r2 l : lang r2 l -> lang (Alt r1 r2) l
| lang_star_nil r : lang (Star r) []
| lang_star_cons r l1 l2 :
    lang r l1 -> lang (Star r) l2 -> lang (Star r) (l1 ++ l2).

End Re.

(** ** Configuration records ([config_manager.py]) *)

Record EmailConfig : Set := mkEmailConfig {
  use_default_mailer : bool;
  smtp_server : option string;
  smtp_port : Z;
  smtp_username : option string;
  smtp_password : option string;
  use_tls : bool;
  use_ssl : bool;
}.

Record GeneralConfig : Set := mkGeneralConfig {
  log_retention_days : Z;
  max_attachment_size_mb : Z;
  processing_lock_timeout_minutes : Z;
}.

Record AdminConfig : Set := mkAdminConfig {
  admin_emails : list string;
  send_summary_email : bool;
  send_error_notifications : bool;
}.

Record ProcessingConfig : Set := mkProcessingConfig {
  png_file_extensions : list string;
  archive_after_processing : bool;
  override_existing_lock : bool;
  date_format : string;
  timestamp_format : string;
}.

Record MailingEntry : Set := mkMailingEntry {
  pdf_name : string;
  recipients : list string;
  cc : list string;
  subject : string;
}.

(** The entries of the [errors] list of [validate_configuration]; the two
    cross-reference errors carry the set they print. *)
Inductive violation : Type :=
| SmtpServerNotConfigured
| SmtpUsernameNotConfigured
| SmtpPasswordNotConfigured
| AdminEmailsNotConfigured
| NoPdfNamesMapping
| NoMailingListEntries
| OrphanedPdfNames (orphaned_pdfs : gset string)
| MissingMailingEntries (missing_mailing_entries : gset string).

(** ** Log records

    Every component writes through [BIMailerLogger]; a record keeps the logger
    it went to, its level and its message.  Messages that interpolate a Python
    list are kept structured. *)

Inductive logger_name : Set := file_logger | email_logger | error_logger | summary_logger.
Inductive levelname : Set := INFO | WARNING | ERROR.

Inductive message : Type :=
| Text (text : string)
| InvalidEmails (invalid_emails : list string)
| ValidationError (err : violation).

Record log_record : Type := LogRecord {
  log_name : logger_name;
  log_level : levelname;
  log_message : message;
}.

(** ** The file system the scripts work on *)

(** A [pathlib.Path] of a file: the directory it is in and its final
    component. *)
Record Path : Set := mkPath { parent : string; name : string }.

Definition joinpath (directory filename : string) : Path :=
  {| parent := directory; name := filename |}.

(** [dir / sub] for directories, and [str(path)]. *)
Definition subdir (directory sub : string) : string := directory +:+ "/" +:+ sub.
Definition path_str (p : Path) : string := subdir (parent p) (name p).

(** [PurePath.suffix]: the part of the name from its last dot, unless that
    dot starts or ends the name. *)
Fixpoint rfind_dot (l : list ascii) (i : nat) (found : option nat) : option nat :=
  match l with
  | [] => found
  | c :: l' => rfind_dot l' (S i) (if Ascii.eqb c "." then Some i else found)
  end.

Definition suffix_index (filename : string) : option nat :=
  match rfind_dot (PyStr.chars filename) 0 None with
  | Some i =>
      if (0 <? i)%nat && (i <? String.length filename - 1)%nat then Some i else None
  | None => None
  end.

Definition stem (p : Path) : string :=
  match suffix_index (name p) with
  | Some i => String.substring 0 i (name p)
  | None => name p
  end.

Definition suffix (p : Path) : string :=
  match suffix_index (name p) with
  | Some i => String.substring i (String.length (name p) - i) (name p)
  | None => ""
  end.

Definition with_suffix (p : Path) (new_suffix : string) : Path :=
  {| parent := parent p; name := stem p +:+ new_suffix |}.

(** One entry of the [files] list of a metadata sidecar. *)
Record FileInfo : Set := mkFileInfo {
  fi_filename : string;
  fi_size : Z;
  fi_dimensions : Z * Z;
}.

(** The dictionary [_store_pdf_metadata] dumps next to a rendered document
    and [get_pdf_metadata] loads back; [main.py] builds one with only
    [pdf_name] and [files] when none can be loaded. *)
Record PdfMetadata : Set := mkPdfMetadata {
  md_pdf_path : option string;
  md_pdf_name : option string;
  md_folder_name : option string;
  md_files : list FileInfo;
}.

(** The content of the lock marker: an ISO timestamp (kept in microseconds)
    and the process id. *)
Record LockData : Set := mkLockData { timestamp : Z; pid : Z }.

Inductive content : Set :=
| Image (size_px : option (Z * Z))   (* [None]: [Image.open] raises on it *)
| Document (pages : list Path)       (* one page per source image drawn *)
| Sidecar (metadata : PdfMetadata)
| LockMarker (data : LockData)
| Blob.

Record File : Set := mkFile {
  f_content : content;
  st_size : Z;
  st_mtime : Z;   (* microseconds *)
}.

(** Directories by path string; a directory maps the names in it to files. *)
Abbreviation Directory := (gmap string File).
Abbreviation FileSystem := (gmap string Directory).

Definition dir_exists (fs : FileSystem) (d : string) : bool :=
  bool_decide (is_Some (fs !! d)).

Definition listdir (fs : FileSystem) (d : string) : list string :=
  match fs !! d with
  | Some entries => (map_to_list entries).*1
  | None => []
  end.

Definition lookup_file (fs : FileSystem) (p : Path) : option File :=
  fs !! parent p ≫= λ entries, entries !! name p.

Definition file_exists (fs : FileSystem) (p : Path) : bool :=
  bool_decide (is_Some (lookup_file fs p)).

Definition write_file (fs : FileSystem) (p : Path) (f : File) : FileSystem :=
  <[parent p := <[name p := f]> (default ∅ (fs !! parent p))]> fs.

Definition unlink (fs : FileSystem) (p : Path) : FileSystem :=
  match fs !! parent p with
  | Some entries => <[parent p := delete (name p) entries]> fs
  | None => fs
  end.

Definition makedirs (fs : FileSystem) (d : string) : FileSystem :=
  match fs !! d with
  | Some _ => fs
  | None => <[d := ∅]> fs
  end.

(** ** Insertion-ordered dictionaries *)

Module PyDict.
Section dict.
Context {K V : Type} `{EqDecision K}.

(** [d[k] = v]: an existing key keeps its position, a new one goes last. *)
Fixpoint set (k : K) (v : V) (d : list (K * V)) : list (K * V) :=
  match d with
  | [] => [(k, v)]
  | (k', v') :: d' =>
      if decide (k' = k) then (k', v) :: d' else (k', v') :: set k v d'
  end.

Fixpoint get (k : K) (d : list (K * V)) : option V :=
  match d with
  | [] => None
  | (k', v') :: d' => if decide (k' = k) then Some v' else get k d'
  end.

(** [k in d] *)
Definition contains (k : K) (d : list (K * V)) : bool :=
  bool_decide (k ∈ d.*1).

Definition keys (d : list (K * V)) : list K := d.*1.
Definition values (d : list (K * V)) : list V := d.*2.
End dict.
End PyDict.

(** ** [utils.py] *)

Module Utils.

Import PyStr Re.

Definition one_of (set : string) (c : ascii) : bool :=
  existsb (Ascii.eqb c) (chars set).

(** [[a-zA-Z0-9._%+-]], [[a-zA-Z0-9.-]] and [[a-zA-Z]] *)
Definition local_char (c : ascii) : bool := is_alnum c || one_of "._%+-" c.
Definition domain_char (c : ascii) : bool := is_alnum c || one_of ".-" c.

(** [[a-zA-Z0-9._%+-]+@[a-zA-Z0-9.-]+\.[a-zA-Z]{2,}] *)
Definition email_pattern : regex :=
  Seq (plus (Class local_char))
    (Seq (lit "@")
       (Seq (plus (Class domain_char))
          (Seq (lit ".") (at_least_two (Class is_alpha))))).

Definition validate_email (email : string) : bool :=
  match_anchored email_pattern email.

(** What [split_email_list] is called with: a CSV cell read by pandas is a
    string or the float NaN, a missing setting is [None]. *)
Inductive cell : Set := PyNone | PyFloat | PyString (s : string).

(** [not email_string or email_string.strip() == '' or
    email_string.lower() == 'nan'] *)
Definition blank_or_nan (s : string) : bool :=
  (s =? "") || (strip s =? "") || (lower s =? "nan").

Definition split_email_list (email_string : cell)
  : list string * list log_record :=
  match email_string with
  | PyNone | PyFloat => ([], [])
  | PyString s =>
      if blank_or_nan s then ([], [])
      else
        let emails := map strip (split ";" s) in
        let valid_emails := List.filter validate_email emails in
        if (length valid_emails =? length emails)%nat then (valid_emails, [])
        else
          let invalid_emails :=
            List.filter (λ e, negb (validate_email e)) emails in
          (valid_emails, [LogRecord error_logger WARNING (InvalidEmails invalid_emails)])
  end.

(** [directory.glob("*" + ext)] for an extension without glob
    metacharacters: the names in the directory that end with it, in the
    order the system lists them. *)
Definition glob_suffix (fs : FileSystem) (directory ext : string) : list Path :=
  joinpath directory <$> List.filter (λ n, endswith n ext) (listdir fs directory).

(** Paths of one directory compare by their names. *)
Definition path_le (p q : Path) : Prop := (name p ≤ name q)%string.

Global Instance path_le_dec : RelDecision path_le.
Proof. intros p q. unfold path_le. apply _. Defined.

Definition get_png_files (fs : FileSystem) (directory : string)
    (extensions : list string) : list Path :=
  if dir_exists fs directory
  then merge_sort path_le (extensions ≫= glob_suffix fs directory)
  else [].

End Utils.

(** ** The state the components share, and computations over it *)

(** [attempts] lists the calls of [_send_single_email] made so far. *)
Record World : Type := mkWorld {
  fs : FileSystem;
  attempts : list (Path * MailingEntry);
  logs : list log_record;
}.

Definition set_fs (f : FileSystem -> FileSystem) (w : World) : World :=
  {| fs := f (fs w); attempts := attempts w; logs := logs w |}.

Definition add_attempt (a : Path * MailingEntry) (w : World) : World :=
  {| fs := fs w; attempts := attempts w ++ [a]; logs := logs w |}.

Definition add_log (r : log_record) (w : World) : World :=
  {| fs := fs w; attempts := attempts w; logs := logs w ++ [r] |}.

(** A call returns a value or raises an [Exception] (kept as its text); the
    state it leaves behind is kept in both cases. *)
Inductive outcome (A : Type) : Type :=
| Ret (a : A)
| Raise (e : string).
Arguments Ret {A} a.
Arguments Raise {A} e.

Definition M (S A : Type) : Type := S -> outcome A * S.

Definition bind {S A B} (m : M S A) (k : A -> M S B) : M S B :=
  λ s, match m s with
       | (Ret a, s') => k a s'
       | (Raise e, s') => (Raise e, s')
       end.

Notation "x <- m ;; k" := (bind m (λ x, k))
  (at level 100, m at next level, right associativity, only parsing).
Notation "m ;;; k" := (bind m (λ _, k))
  (at level 100, right associativity, only parsing).

Definition ret {S A} (a : A) : M S A := λ s, (Ret a, s).
Definition pass {S} : M S unit := ret tt.
Definition raise {S A} (e : string) : M S A := λ s, (Raise e, s).
Definition modify {S} (f : S -> S) : M S unit := λ s, (Ret tt, f s).
Definition gets {S A} (f : S -> A) : M S A := λ s, (Ret (f s), s).

(** [try: m  except Exception as e: h e] *)
Definition try_except {S A} (m : M S A) (h : string -> M S A) : M S A :=
  λ s, match m s with
       | (Ret a, s') => (Ret a, s')
       | (Raise e, s') => h e s'
       end.

(** The logger methods of [BIMailerLogger]. *)
Definition log_file_operation (msg : string) : World -> World :=
  add_log (LogRecord file_logger INFO (Text msg)).
Definition log_email_operation (msg : string) : World -> World :=
  add_log (LogRecord email_logger INFO (Text msg)).
Definition log_error (msg : string) : World -> World :=
  add_log (LogRecord error_logger ERROR (Text msg)).
Definition log_summary (msg : string) : World -> World :=
  add_log (LogRecord summary_logger INFO (Text msg)).

(** ** [utils.ProcessingLock] *)

Module ProcessingLock.

Record t : Set := mk { lock_file : Path; timeout_minutes : Z }.

(** [ProcessingLock(timeout_minutes=...)]: the marker is [.lock] in the
    working directory. *)
Definition init (timeout : Z) : t :=
  {| lock_file := joinpath "." ".lock"; timeout_minutes := timeout |}.

(** What one call of [acquire_lock] reads from its surroundings: the two
    [datetime.now()] readings (microseconds), the modification time the file
    system gives the new marker, [os.getpid()], the size of the dumped JSON,
    and whether [unlink] and [open] go through. *)
Record io : Set := mkIo {
  current_time : Z;
  stamp_time : Z;
  write_mtime : Z;
  getpid : Z;
  marker_bytes : Z;
  unlink_ok : bool;
  open_ok : bool;
}.

(** [(current_time - lock_time).total_seconds() > timeout_minutes * 60],
    with [lock_time] read from [st_mtime]. *)
Definition is_stale (self : t) (now : Z) (marker : File) : bool :=
  (now - st_mtime marker >? timeout_minutes self * 60 * 1000000)%Z.

Definition create_marker (self : t) (env : io) (w : World) : bool * World :=
  if open_ok env then
    let lock_data := {| timestamp := stamp_time env; pid := getpid env |} in
    let marker := {| f_content := LockMarker lock_data;
                     st_size := marker_bytes env;
                     st_mtime := write_mtime env |} in
    (true, log_file_operation "Processing lock acquired"
             (set_fs (λ fs, write_file fs (lock_file self) marker) w))
  else
    (false, add_log (LogRecord file_logger ERROR
                       (Text "Failed to acquire processing lock")) w).

Definition acquire_lock (self : t) (env : io) (w : World) : bool * World :=
  match lookup_file (fs w) (lock_file self) with
  | Some marker =>
      if is_stale self (current_time env) marker then
        let w1 := add_log (LogRecord file_logger WARNING
                             (Text "Removing stale lock file")) w in
        if unlink_ok env then
          create_marker self env (set_fs (λ fs, unlink fs (lock_file self)) w1)
        else
          (false, add_log (LogRecord file_logger ERROR
                             (Text "Failed to acquire processing lock")) w1)
      else
        (false, add_log (LogRecord file_logger ERROR
                           (Text "Processing already in progress (lock file exists)")) w)
  | None => create_marker self env w
  end.

Definition release_lock (self : t) (unlink_goes_through : bool) (w : World) : World :=
  if file_exists (fs w) (lock_file self) then
    if unlink_goes_through then
      log_file_operation "Processing lock released"
        (set_fs (λ fs, unlink fs (lock_file self)) w)
    else
      add_log (LogRecord file_logger ERROR
                 (Text "Failed to release processing lock")) w
  else w.

(** [__enter__] *)
Definition enter (self : t) (env : io) : M World unit :=
  λ w, let '(ok, w') := acquire_lock self env w in
       if ok then (Ret tt, w')
       else (Raise "Could not acquire processing lock", w').

(** The staleness test the design document asks for: the clock is the
    timestamp stored in the marker. *)
Definition is_stale_by_stored_timestamp (self : t) (now : Z) (marker : File) : bool :=
  match f_content marker with
  | LockMarker data => (now - timestamp data >? timeout_minutes self * 60 * 1000000)%Z
  | _ => false
  end.

End ProcessingLock.

(** ** [config_manager.ConfigManager] *)

Module ConfigManager.

Record t : Type := mk {
  email_config : EmailConfig;
  general_config : GeneralConfig;
  admin_config : AdminConfig;
  processing_config : ProcessingConfig;
  (** folder name to PDF name, in the order of the CSV rows *)
  pdf_names_mapping : list (string * string);
  mailing_list : list MailingEntry;
}.

Definition get_pdf_name_for_folder (self : t) (folder_name : string) : option string :=
  PyDict.get folder_name (pdf_names_mapping self).

Definition get_mailing_entries_for_pdf (self : t) (name : string) : list MailingEntry :=
  List.filter (λ entry, pdf_name entry =? name) (mailing_list self).

Definition get_all_folder_names (self : t) : list string :=
  PyDict.keys (pdf_names_mapping self).

(** Python truth value of a string that may be [None]. *)
Definition truthy (s : option string) : bool :=
  match s with
  | Some s => negb (s =? "")
  | None => false
  end.

Definition nonempty (s : gset string) : bool := negb (bool_decide (s = ∅)).

Definition validate_configuration (self : t) : bool * list violation :=
  let errors := [] in
  let errors :=
    if negb (use_default_mailer (email_config self)) then
      let errors :=
        if negb (truthy (smtp_server (email_config self)))
        then errors ++ [SmtpServerNotConfigured] else errors in
      let errors :=
        if negb (truthy (smtp_username (email_config self)))
        then errors ++ [SmtpUsernameNotConfigured] else errors in
      if negb (truthy (smtp_password (email_config self)))
      then errors ++ [SmtpPasswordNotConfigured] else errors
    else errors in
  let errors :=
    if send_summary_email (admin_config self)
       || send_error_notifications (admin_config self)
    then match admin_emails (admin_config self) with
         | [] => errors ++ [AdminEmailsNotConfigured]
         | _ => errors
         end
    else errors in
  let errors :=
    match pdf_names_mapping self with
    | [] => errors ++ [NoPdfNamesMapping]
    | _ => errors
    end in
  let errors :=
    match mailing_list self with
    | [] => errors ++ [NoMailingListEntries]
    | _ => errors
    end in
  let configured_pdf_names : gset string :=
    list_to_set (PyDict.values (pdf_names_mapping self)) in
  let mailing_pdf_names : gset string :=
    list_to_set (pdf_name <$> mailing_list self) in
  let orphaned_pdfs := mailing_pdf_names ∖ configured_pdf_names in
  let errors :=
    if nonempty orphaned_pdfs
    then errors ++ [OrphanedPdfNames orphaned_pdfs] else errors in
  let missing_mailing_entries := configured_pdf_names ∖ mailing_pdf_names in
  let missing_mailing_entries := missing_mailing_entries ∖ {["Global Headers"]} in
  let errors :=
    if nonempty missing_mailing_entries
    then errors ++ [MissingMailingEntries missing_mailing_entries] else errors in
  let is_valid := (length errors =? 0)%nat in
  (is_valid, errors).


End ConfigManager.

(** ** What the scripts read from outside the modelled state

    Clock readings, the bytes the PDF canvas and the JSON dumper produce, and
    whether a write, a move or a transport call goes through.  Each may depend
    on the whole state reached so far. *)

Record Env : Type := mkEnv {
  strftime_now : string -> World -> string;   (* [datetime.now().strftime(fmt)] *)
  isoformat_now : World -> string;            (* [datetime.now().isoformat()] *)
  year_now : World -> string;                 (* [str(current_date.year)] *)
  month_now : World -> string;                (* [f"{current_date.month:02d}"] *)
  mtime_now : World -> Z;                     (* modification time of a file written now *)
  canvas_bytes : list Path -> Z;              (* size of the PDF saved for these pages *)
  canvas_save_ok : World -> Path -> bool;     (* [c.save()] does not raise *)
  json_bytes : PdfMetadata -> Z;
  json_dump_ok : World -> Path -> bool;       (* writing the sidecar does not raise *)
  move_ok : World -> Path -> Path -> bool;    (* [shutil.move] does not raise *)
  (** result of the body of [_send_single_email]: subject and body generation
      and the transport call; an exception in it counts as [false] *)
  transport : World -> Path -> PdfMetadata -> MailingEntry -> bool;
}.

(** ** [pdf_generator.PDFGenerator] *)

Module PDFGenerator.

Import PyStr.

Record t : Type := mk {
  config : ConfigManager.t;
  input_dir : string;
  output_dir : string;
  all_folder : string;
}.

Definition init (config_manager : ConfigManager.t) (base_path : string) : t :=
  {| config := config_manager;
     input_dir := subdir base_path "Input";
     output_dir := subdir base_path "Output/PDFs";
     all_folder := subdir (subdir base_path "Input") "ALL" |}.

Definition extensions (self : t) : list string :=
  png_file_extensions (ConfigManager.processing_config (config self)).

(** The characters [clean_filename] replaces: the double quote (code 34)
    and those of the string below. *)
Definition invalid_chars : list ascii :=
  chars "<>:/\|?*" ++ [ascii_of_nat 34].

Definition clean_filename (filename : string) : string :=
  strip (str (map (λ c, if existsb (Ascii.eqb c) invalid_chars then "_"%char else c)
                (chars filename))).

(** Lines 54-68 of [generate_pdf_for_folder]: the files of the ALL folder
    go into [unique_files] first, then the files of the folder whose name
    is not a key yet; the result is [list(unique_files.values())]. *)
Definition combine_png_files (all_pngs folder_pngs : list Path) : list Path :=
  let unique_files : list (string * Path) := [] in
  let unique_files :=
    foldl (λ d png_file, PyDict.set (name png_file) png_file d)
      unique_files all_pngs in
  let unique_files :=
    foldl (λ d png_file,
             if PyDict.contains (name png_file) d then d
             else PyDict.set (name png_file) png_file d)
      unique_files folder_pngs in
  PyDict.values unique_files.

(** One turn of the loop of [_create_pdf]: a page and a [file_info] entry
    for an image that opens, nothing for one that raises. *)
Definition draw_page (fs : FileSystem) (png_file : Path) : option (Path * FileInfo) :=
  match lookup_file fs png_file with
  | Some {| f_content := Image (Some dims); st_size := sz |} =>
      Some (png_file, {| fi_filename := name png_file; fi_size := sz;
                         fi_dimensions := dims |})
  | _ => None
  end.

(** The pages of the saved document: the images that opened, in the order
    of [png_files]. *)
Definition pages_of (fs : FileSystem) (png_files : list Path) : list Path :=
  (omap (draw_page fs) png_files).*1.

Definition page_logs (fs : FileSystem) (png_file : Path) : log_record :=
  match draw_page fs png_file with
  | Some _ => LogRecord file_logger INFO (Text ("Added to PDF: " +:+ name png_file))
  | None => LogRecord error_logger ERROR
              (Text ("Failed to process PNG file: " +:+ path_str png_file))
  end.

Definition _store_pdf_metadata (env : Env) (pdf_path : Path) (pdf_name folder_name : string)
    (file_info_list : list FileInfo) (w : World) : World :=
  let metadata := {| md_pdf_path := Some (path_str pdf_path);
                     md_pdf_name := Some pdf_name;
                     md_folder_name := Some folder_name;
                     md_files := file_info_list |} in
  let metadata_path := with_suffix pdf_path ".json" in
  if json_dump_ok env w metadata_path then
    let sidecar := {| f_content := Sidecar metadata;
                      st_size := json_bytes env metadata;
                      st_mtime := mtime_now env w |} in
    log_file_operation ("PDF metadata stored: " +:+ path_str metadata_path)
      (set_fs (λ fs, write_file fs metadata_path sidecar) w)
  else
    log_error ("Failed to store PDF metadata for " +:+ path_str pdf_path) w.

Definition _create_pdf (env : Env) (self : t) (pdf_name : string)
    (png_files : list Path) (folder_name : string) (w : World)
  : option Path * World :=
  let clean_pdf_name := clean_filename pdf_name in
  let timestamp :=
    strftime_now env (timestamp_format (ConfigManager.processing_config (config self))) w in
  let pdf_filename := clean_pdf_name +:+ "_" +:+ timestamp +:+ ".pdf" in
  let pdf_path := joinpath (output_dir self) pdf_filename in
  let pages := pages_of (fs w) png_files in
  let file_info_list := (omap (draw_page (fs w)) png_files).*2 in
  let w := foldl (λ w png_file, add_log (page_logs (fs w) png_file) w) w png_files in
  if canvas_save_ok env w pdf_path then
    let document := {| f_content := Document pages;
                       st_size := canvas_bytes env pages;
                       st_mtime := mtime_now env w |} in
    let w := set_fs (λ fs, write_file fs pdf_path document) w in
    let w := log_file_operation ("PDF created: " +:+ name pdf_path) w in
    let w := _store_pdf_metadata env pdf_path pdf_name folder_name file_info_list w in
    (Some pdf_path, w)
  else
    (None, log_error ("Failed to create PDF: " +:+ pdf_name) w).

Definition generate_pdf_for_folder (env : Env) (self : t) (folder_name : string)
    (w : World) : option Path * World :=
  match ConfigManager.get_pdf_name_for_folder (config self) folder_name with
  | None | Some "" =>
      (None, log_error ("No PDF name configured for folder: " +:+ folder_name) w)
  | Some pdf_name =>
      let folder_path := subdir (input_dir self) folder_name in
      if negb (dir_exists (fs w) folder_path) then
        (None, log_error ("Folder does not exist: " +:+ folder_path) w)
      else
        let folder_pngs := Utils.get_png_files (fs w) folder_path (extensions self) in
        let all_pngs := Utils.get_png_files (fs w) (all_folder self) (extensions self) in
        let all_png_files := combine_png_files all_pngs folder_pngs in
        match all_png_files with
        | [] =>
            (None, log_file_operation ("No PNG files found for folder: " +:+ folder_name) w)
        | _ =>
            let '(pdf_path, w) := _create_pdf env self pdf_name all_png_files folder_name w in
            match pdf_path with
            | Some p =>
                (pdf_path, log_file_operation ("PDF generated successfully: " +:+ path_str p) w)
            | None => (pdf_path, w)
            end
        end
  end.

(** [pdf_size_mb > max_size_mb] with [pdf_size_mb = st_size / 1024 / 1024];
    a missing file makes [stat] raise, which the method turns into [False]. *)
Definition validate_pdf_size (self : t) (pdf_path : Path) (w : World) : bool * World :=
  match lookup_file (fs w) pdf_path with
  | Some f =>
      if (st_size f >? max_attachment_size_mb (ConfigManager.general_config (config self))
                        * 1024 * 1024)%Z
      then (false, log_error ("PDF size exceeds maximum attachment size: "
                                +:+ path_str pdf_path) w)
      else (true, w)
  | None => (false, log_error ("Failed to validate PDF size: " +:+ path_str pdf_path) w)
  end.

Definition get_pdf_metadata (pdf_path : Path) (w : World) : option PdfMetadata * World :=
  let metadata_path := with_suffix pdf_path ".json" in
  match lookup_file (fs w) metadata_path with
  | Some {| f_content := Sidecar metadata |} => (Some metadata, w)
  | Some _ =>
      (None, log_error ("Failed to load PDF metadata for " +:+ path_str pdf_path) w)
  | None => (None, w)
  end.

Definition get_folders_with_new_pngs (self : t) (w : World) : list string :=
  let folder_names := ConfigManager.get_all_folder_names (config self) in
  let folder_names := List.filter (λ n, negb (n =? "ALL")) folder_names in
  List.filter
    (λ folder_name,
       let folder_path := subdir (input_dir self) folder_name in
       dir_exists (fs w) folder_path
       && match Utils.get_png_files (fs w) folder_path (extensions self) with
          | [] => false
          | _ => true
          end)
    folder_names.

End PDFGenerator.

(** ** [email_sender.EmailSender] *)

Module EmailSender.

Definition max_bytes (config : ConfigManager.t) : Z :=
  (max_attachment_size_mb (ConfigManager.general_config config) * 1024 * 1024)%Z.

Definition _validate_attachment_size (config : ConfigManager.t)
    (attachment_path : Path) (w : World) : bool * World :=
  match lookup_file (fs w) attachment_path with
  | Some f =>
      if (st_size f >? max_bytes config)%Z
      then (false, log_error ("Attachment size exceeds maximum allowed size: "
                                +:+ path_str attachment_path) w)
      else (true, log_email_operation "Attachment size validation passed" w)
  | None =>
      (false, log_error ("Failed to validate attachment size: "
                           +:+ path_str attachment_path) w)
  end.

(** The call is recorded in [attempts]; its result is what the transport
    and the message generation give in the state the call starts from. *)
Definition _send_single_email (env : Env) (pdf_path : Path)
    (pdf_metadata : PdfMetadata) (mailing_entry : MailingEntry) (w : World)
  : bool * World :=
  let success := transport env w pdf_path pdf_metadata mailing_entry in
  let w := add_attempt (pdf_path, mailing_entry) w in
  let w := log_email_operation ("Sending email - Subject: " +:+ subject mailing_entry) w in
  if success
  then (true, log_email_operation "Email sent successfully" w)
  else (false, log_error "Failed to send email" w).

(** The [for entry in mailing_entries] loop with its counter. *)
Fixpoint send_loop (env : Env) (pdf_path : Path) (pdf_metadata : PdfMetadata)
    (mailing_entries : list MailingEntry) (success_count : nat) (w : World)
  : nat * World :=
  match mailing_entries with
  | [] => (success_count, w)
  | entry :: rest =>
      let '(ok, w) := _send_single_email env pdf_path pdf_metadata entry w in
      send_loop env pdf_path pdf_metadata rest
        (if ok then S success_count else success_count) w
  end.

Definition send_pdf_emails (env : Env) (config : ConfigManager.t)
    (pdf_path : Path) (pdf_metadata : PdfMetadata) (w : World) : bool * World :=
  let pdf_name := default (stem pdf_path) (md_pdf_name pdf_metadata) in
  let mailing_entries := ConfigManager.get_mailing_entries_for_pdf config pdf_name in
  match mailing_entries with
  | [] => (false, log_error ("No mailing entries found for PDF: " +:+ pdf_name) w)
  | _ =>
      let '(size_ok, w) := _validate_attachment_size config pdf_path w in
      if negb size_ok then (false, w)
      else
        let total_entries := length mailing_entries in
        let w := log_email_operation ("Sending PDF '" +:+ pdf_name +:+ "'") w in
        let '(success_count, w) :=
          send_loop env pdf_path pdf_metadata mailing_entries 0 w in
        let success := (success_count =? total_entries)%nat in
        if success
        then (true, log_email_operation
                      ("All emails sent successfully for PDF: " +:+ pdf_name) w)
        else (false, log_error ("Some emails failed for PDF: " +:+ pdf_name) w)
  end.

End EmailSender.

(** ** [file_manager.FileManager]: the two archiving methods *)

Module FileManager.

Record t : Type := mk {
  config : ConfigManager.t;
  input_dir : string;
  png_archive_dir : string;
  pdf_archive_dir : string;
}.

Definition init (config_manager : ConfigManager.t) (base_path : string) : t :=
  {| config := config_manager;
     input_dir := subdir base_path "Input";
     png_archive_dir := subdir (subdir base_path "Archive") "PNGs";
     pdf_archive_dir := subdir (subdir base_path "Archive") "PDFs" |}.

Definition archiving_enabled (self : t) : bool :=
  archive_after_processing (ConfigManager.processing_config (config self)).

Definition timestamp_now (env : Env) (self : t) (w : World) : string :=
  strftime_now env (timestamp_format (ConfigManager.processing_config (config self))) w.

(** [shutil.move(src, dst)]: raises when the source is gone or the system
    refuses; otherwise the file is at [dst] and no longer at [src]. *)
Definition move (env : Env) (src dst : Path) (w : World) : option World :=
  match lookup_file (fs w) src with
  | Some f =>
      if move_ok env w src dst
      then Some (set_fs (λ fs, write_file (unlink fs src) dst f) w)
      else None
  | None => None
  end.

(** The loop over [png_files] with its counter. *)
Fixpoint archive_loop (env : Env) (batch_folder : string) (png_files : list Path)
    (archived_count : nat) (w : World) : nat * World :=
  match png_files with
  | [] => (archived_count, w)
  | png_file :: rest =>
      let destination := joinpath batch_folder (name png_file) in
      match move env png_file destination w with
      | Some w =>
          archive_loop env batch_folder rest (S archived_count)
            (log_file_operation ("Archived PNG: " +:+ name png_file) w)
      | None =>
          archive_loop env batch_folder rest archived_count
            (log_error ("Failed to archive PNG file: " +:+ path_str png_file) w)
      end
  end.

Definition archive_processed_pngs (env : Env) (self : t) (folder_name : string)
    (w : World) : bool * World :=
  if negb (archiving_enabled self) then
    (true, log_file_operation "Archiving disabled in configuration" w)
  else
    let folder_path := subdir (input_dir self) folder_name in
    if negb (dir_exists (fs w) folder_path) then
      (false, log_error ("Source folder does not exist: " +:+ folder_path) w)
    else
      let png_extensions :=
        png_file_extensions (ConfigManager.processing_config (config self)) in
      let png_files := png_extensions ≫= Utils.glob_suffix (fs w) folder_path in
      match png_files with
      | [] =>
          (true, log_file_operation
                   ("No PNG files to archive in folder: " +:+ folder_name) w)
      | _ =>
          let archive_folder :=
            subdir (subdir (png_archive_dir self) (year_now env w)) (month_now env w) in
          let w1 := set_fs (λ fs, makedirs fs archive_folder) w in
          let timestamp := timestamp_now env self w1 in
          let batch_folder := subdir archive_folder (folder_name +:+ "_" +:+ timestamp) in
          let w2 := set_fs (λ fs, makedirs fs batch_folder) w1 in
          let '(archived_count, w3) := archive_loop env batch_folder png_files 0 w2 in
          ((archived_count =? length png_files)%nat,
           log_file_operation ("PNG archiving completed for " +:+ folder_name) w3)
      end.

Definition archive_sent_pdf (env : Env) (self : t) (pdf_path : Path) (w : World)
  : bool * World :=
  if negb (archiving_enabled self) then (true, w)
  else if negb (file_exists (fs w) pdf_path) then
    (false, log_error ("PDF file does not exist: " +:+ path_str pdf_path) w)
  else
    let archive_folder :=
      subdir (subdir (pdf_archive_dir self) (year_now env w)) (month_now env w) in
    let w1 := set_fs (λ fs, makedirs fs archive_folder) w in
    let timestamp := timestamp_now env self w1 in
    let archived_name := stem pdf_path +:+ "_sent_" +:+ timestamp +:+ suffix pdf_path in
    let destination := joinpath archive_folder archived_name in
    let failed w := (false, log_error ("Failed to archive PDF: " +:+ path_str pdf_path) w) in
    match move env pdf_path destination w1 with
    | None => failed w1
    | Some w2 =>
        let metadata_path := with_suffix pdf_path ".json" in
        if file_exists (fs w2) metadata_path then
          let metadata_destination := with_suffix destination ".json" in
          match move env metadata_path metadata_destination w2 with
          | None => failed w2
          | Some w3 =>
              (true, log_file_operation ("Archived sent PDF: " +:+ name pdf_path)
                       (log_file_operation
                          ("Archived PDF metadata: " +:+ path_str metadata_destination) w3))
          end
        else
          (true, log_file_operation ("Archived sent PDF: " +:+ name pdf_path) w2)
    end.

End FileManager.

(** ** [main.py]: the orchestrator *)

Module Main.

(** The [result] dictionary of [_process_single_folder]; [end_time] is a
    key that is only set on some paths. *)
Record FolderResult : Set := mkResult {
  folder_name : string;
  pdf_created : bool;
  emails_sent : bool;
  files_archived : bool;
  error : option string;
  pdf_path : option string;
  start_time : string;
  end_time : option string;
}.

Definition set_pdf (p : Path) (r : FolderResult) : FolderResult :=
  {| folder_name := folder_name r; pdf_created := true;
     emails_sent := emails_sent r; files_archived := files_archived r;
     error := error r; pdf_path := Some (path_str p);
     start_time := start_time r; end_time := end_time r |}.

Definition set_emails_sent (b : bool) (r : FolderResult) : FolderResult :=
  {| folder_name := folder_name r; pdf_created := pdf_created r;
     emails_sent := b; files_archived := files_archived r;
     error := error r; pdf_path := pdf_path r;
     start_time := start_time r; end_time := end_time r |}.

Definition set_files_archived (b : bool) (r : FolderResult) : FolderResult :=
  {| folder_name := folder_name r; pdf_created := pdf_created r;
     emails_sent := emails_sent r; files_archived := b;
     error := error r; pdf_path := pdf_path r;
     start_time := start_time r; end_time := end_time r |}.

Definition set_error (e : string) (r : FolderResult) : FolderResult :=
  {| folder_name := folder_name r; pdf_created := pdf_created r;
     emails_sent := emails_sent r; files_archived := files_archived r;
     error := Some e; pdf_path := pdf_path r;
     start_time := start_time r; end_time := end_time r |}.

Definition set_end_time (t : string) (r : FolderResult) : FolderResult :=
  {| folder_name := folder_name r; pdf_created := pdf_created r;
     emails_sent := emails_sent r; files_archived := files_archived r;
     error := error r; pdf_path := pdf_path r;
     start_time := start_time r; end_time := Some t |}.

Definition newline : string := String "010" "".

Section orchestrator.

(** The state the component objects work on. *)
Context {W : Type}.

(** The attributes of a [BIMailerOrchestrator]: the logger, the clock, the
    two administrator flags of the configuration, and the methods of
    [pdf_generator], [email_sender] and [file_manager] it calls.  A method
    returns or raises; writing a log record and reading the clock do
    neither. *)
Record Components : Type := mkComponents {
  log : log_record -> W -> W;
  now : W -> string;
  strftime : string -> W -> string;
  summary_enabled : bool;
  error_notifications_enabled : bool;
  get_folders_with_new_pngs : M W (list string);
  generate_pdf_for_folder : string -> M W (option Path);
  validate_pdf_size : Path -> M W bool;
  get_pdf_metadata : Path -> M W (option PdfMetadata);
  send_pdf_emails : Path -> PdfMetadata -> M W bool;
  archive_sent_pdf : Path -> M W bool;
  archive_processed_pngs : string -> M W bool;
  generate_processing_summary : list (string * FolderResult) -> M W string;
  send_admin_notification : string -> string -> bool -> M W bool;
  cleanup_old_archives : M W unit;
  cleanup_old_pdfs : Z -> M W unit;
}.

Context (self : Components).

(** Inside [_process_single_folder] the state is the components' state
    and the [result] dictionary being filled in. *)
Definition call {A} (m : M W A) : M (W * FolderResult) A :=
  λ '(w, r), let '(o, w') := m w in (o, (w', r)).

Definition tell (name : logger_name) (level : levelname) (msg : string)
  : M (W * FolderResult) unit :=
  modify (λ '(w, r), (log self (LogRecord name level (Text msg)) w, r)).

Definition update (f : FolderResult -> FolderResult) : M (W * FolderResult) unit :=
  modify (λ '(w, r), (w, f r)).

(** Steps 4 and 5 and the completion log, once the metadata is there. *)
Definition dispatch_and_archive (folder : string) (pdf : Path)
    (pdf_metadata : PdfMetadata) : M (W * FolderResult) unit :=
  emails_success <- call (send_pdf_emails self pdf pdf_metadata) ;;
  update (set_emails_sent emails_success);;;
  (if negb emails_success then update (set_error "Email sending failed")
   else pass);;;
  (if emails_success then
     pdf_archived <- call (archive_sent_pdf self pdf) ;;
     pngs_archived <- call (archive_processed_pngs self folder) ;;
     update (set_files_archived (pdf_archived && pngs_archived));;;
     if negb (pdf_archived && pngs_archived)
     then update (set_error "File archiving failed")
     else pass
   else
     tell file_logger INFO
       ("Skipping archiving for " +:+ folder +:+ " due to email failures"));;;
  r <- gets snd ;;
  (if emails_sent r && files_archived r
   then tell summary_logger INFO
          ("Successfully completed processing for folder: " +:+ folder)
   else tell error_logger ERROR ("Partial failure for folder " +:+ folder));;;
  t <- gets (λ '(w, _), now self w) ;;
  update (set_end_time t).

(** The body of the [try] of [_process_single_folder]; each branch ends
    where the source has [return result]. *)
Definition process_body (folder : string) : M (W * FolderResult) unit :=
  tell summary_logger INFO ("Processing folder: " +:+ folder);;;
  generated <- call (generate_pdf_for_folder self folder) ;;
  match generated with
  | None => update (set_error "PDF generation failed")
  | Some pdf =>
      update (set_pdf pdf);;;
      size_ok <- call (validate_pdf_size self pdf) ;;
      if negb size_ok then update (set_error "PDF size validation failed")
      else
        loaded <- call (get_pdf_metadata self pdf) ;;
        match loaded with
        | Some pdf_metadata => dispatch_and_archive folder pdf pdf_metadata
        | None =>
            tell error_logger ERROR
              ("Could not load PDF metadata for: " +:+ path_str pdf);;;
            dispatch_and_archive folder pdf
              {| md_pdf_path := None; md_pdf_name := Some folder;
                 md_folder_name := None; md_files := [] |}
        end
  end.

Definition initial_result (folder : string) (w : W) : FolderResult :=
  {| folder_name := folder; pdf_created := false; emails_sent := false;
     files_archived := false; error := None; pdf_path := None;
     start_time := now self w; end_time := None |}.

Definition _process_single_folder (folder : string) (w : W) : FolderResult * W :=
  match process_body folder (w, initial_result folder w) with
  | (Ret _, (w', result)) => (result, w')
  | (Raise e, (w', result)) =>
      let result := set_error ("Processing exception: " +:+ e) result in
      let result := set_end_time (now self w') result in
      (result, log self (LogRecord error_logger ERROR
                           (Text ("Failed to process folder: " +:+ folder))) w')
  end.

Definition _send_admin_summary (results : list (string * FolderResult)) (w : W) : W :=
  if negb (summary_enabled self) then w
  else
    let attempt : M W unit :=
      summary_body <- generate_processing_summary self results ;;
      subject <- gets (λ w, "BIMailer Processing Summary - " +:+ strftime self "%Y-%m-%d" w) ;;
      success <- send_admin_notification self subject summary_body false ;;
      if success
      then modify (log self (LogRecord email_logger INFO
                               (Text "Admin summary email sent successfully")))
      else modify (log self (LogRecord error_logger ERROR
                               (Text "Failed to send admin summary email"))) in
    match attempt w with
    | (Ret _, w') => w'
    | (Raise e, w') =>
        log self (LogRecord error_logger ERROR (Text "Failed to send admin summary")) w'
    end.

Definition error_body (timestamp error_details : string) : string :=
  "BIMailer Error Notification" +:+ newline +:+ newline
  +:+ "Error occurred at: " +:+ timestamp +:+ newline +:+ newline
  +:+ "Error Details:" +:+ newline +:+ error_details +:+ newline +:+ newline
  +:+ "Please check the system logs for more information." +:+ newline +:+ newline
  +:+ "System: BIMailer Automation" +:+ newline.

Definition _send_error_notification (subject error_details : string) (w : W) : W :=
  if negb (error_notifications_enabled self) then w
  else
    let attempt : M W unit :=
      timestamp <- gets (strftime self "%Y-%m-%d %H:%M:%S") ;;
      success <- send_admin_notification self subject
                   (error_body timestamp error_details) true ;;
      if success
      then modify (log self (LogRecord email_logger INFO
                               (Text "Error notification sent to administrators")))
      else modify (log self (LogRecord error_logger ERROR
                               (Text "Failed to send error notification"))) in
    match attempt w with
    | (Ret _, w') => w'
    | (Raise e, w') =>
        log self (LogRecord error_logger ERROR (Text "Failed to send error notification")) w'
    end.

Definition _perform_cleanup (w : W) : W :=
  let attempt : M W unit :=
    modify (log self (LogRecord file_logger INFO (Text "Starting cleanup tasks")));;;
    cleanup_old_archives self;;;
    cleanup_old_pdfs self 7;;;
    modify (log self (LogRecord file_logger INFO (Text "Cleanup tasks completed"))) in
  match attempt w with
  | (Ret _, w') => w'
  | (Raise e, w') =>
      log self (LogRecord error_logger ERROR (Text "Failed to perform cleanup tasks")) w'
  end.

(** The [for folder_name in folders_to_process] loop, filling
    [processing_results]. *)
Fixpoint process_folders (folders : list string)
    (processing_results : list (string * FolderResult)) (w : W)
  : list (string * FolderResult) * W :=
  match folders with
  | [] => (processing_results, w)
  | folder :: rest =>
      let '(folder_result, w) := _process_single_folder folder w in
      process_folders rest (PyDict.set folder folder_result processing_results) w
  end.

Definition run_full_processing : M W (list (string * FolderResult)) :=
  try_except
    (modify (log self (LogRecord summary_logger INFO
                         (Text "Starting full processing workflow")));;;
     folders_to_process <- get_folders_with_new_pngs self ;;
     match folders_to_process with
     | [] =>
         modify (log self (LogRecord summary_logger INFO
                             (Text "No folders with PNG files found for processing")));;;
         ret []
     | _ =>
         modify (log self (LogRecord summary_logger INFO (Text "Found folders to process")));;;
         λ w, let '(processing_results, w) := process_folders folders_to_process [] w in
              let w := _send_admin_summary processing_results w in
              let w := _perform_cleanup w in
              let w := log self (LogRecord summary_logger INFO
                                   (Text "Full processing completed")) w in
              (Ret processing_results, w)
     end)
    (λ e,
       modify (log self (LogRecord error_logger ERROR
                           (Text "Critical error during full processing")));;;
       modify (_send_error_notification "Critical Processing Error" e);;;
       raise e).

(** The state in which [run_full_processing] looks for folders. *)
Definition started (w : W) : W :=
  log self (LogRecord summary_logger INFO (Text "Starting full processing workflow")) w.

End orchestrator.

Arguments Components W : clear implicits.


(** [with ProcessingLock(...): results = orchestrator.run_full_processing()]:
    [__enter__] raises when the lock is not acquired; [__exit__] releases it
    whether the body returned or raised. *)
Definition with_processing_lock {A} (lock : ProcessingLock.t)
    (env : ProcessingLock.io) (release_goes_through : bool) (body : M World A)
  : M World A :=
  λ w, match ProcessingLock.enter lock env w with
       | (Raise e, w) => (Raise e, w)
       | (Ret _, w) =>
           let '(o, w) := body w in
           (o, ProcessingLock.release_lock lock release_goes_through w)
       end.


Definition exit_code (o : outcome (list (string * FolderResult))) : Z :=
  match o with
  | Ret results =>
      let successful_folders :=
        length (List.filter (λ r, emails_sent r) (PyDict.values results)) in
      if (successful_folders =? length results)%nat then 0%Z else 1%Z
  | Raise _ => 1%Z
  end.

(** The components [BIMailerOrchestrator.__init__] builds, over the modelled
    file system; the administrator mail and the retention sweeps are left to
    the caller. *)
Definition total {A} (f : World -> A * World) : M World A :=
  λ w, let '(a, w) := f w in (Ret a, w).

Definition components (env : Env) (base_path : string)
    (generate_summary : list (string * FolderResult) -> M World string)
    (send_notification : string -> string -> bool -> M World bool)
    (sweep_archives : M World unit) (sweep_pdfs : Z -> M World unit)
    (config : ConfigManager.t) : Components World :=
  let pdf_generator := PDFGenerator.init config base_path in
  let file_manager := FileManager.init config base_path in
  {| log := add_log;
     now := isoformat_now env;
     strftime := strftime_now env;
     summary_enabled := send_summary_email (ConfigManager.admin_config config);
     error_notifications_enabled :=
       send_error_notifications (ConfigManager.admin_config config);
     get_folders_with_new_pngs :=
       gets (PDFGenerator.get_folders_with_new_pngs pdf_generator);
     generate_pdf_for_folder :=
       λ folder, total (PDFGenerator.generate_pdf_for_folder env pdf_generator folder);
     validate_pdf_size :=
       λ pdf, total (PDFGenerator.validate_pdf_size pdf_generator pdf);
     get_pdf_metadata := λ pdf, total (PDFGenerator.get_pdf_metadata pdf);
     send_pdf_emails :=
       λ pdf md, total (EmailSender.send_pdf_emails env config pdf md);
     archive_sent_pdf :=
       λ pdf, total (FileManager.archive_sent_pdf env file_manager pdf);
     archive_processed_pngs :=
       λ folder, total (FileManager.archive_processed_pngs env file_manager folder);
     generate_processing_summary := generate_summary;
     send_admin_notification := send_notification;
     cleanup_old_archives := sweep_archives;
     cleanup_old_pdfs := sweep_pdfs |}.

End Main.

(** ** Notions the statements below are phrased with *)

Module Spec.

Import PyStr.

(** A syntactically valid address: local part, ["@"], domain, ["."] and an
    alphabetic suffix of at least two letters. *)
Definition address_shape (s : string) : Prop :=
  ∃ local_part domain tld : list ascii,
    chars s = local_part ++ "@"%char :: domain ++ "."%char :: tld
    ∧ local_part ≠ [] ∧ Forall (λ c, Utils.local_char c = true) local_part
    ∧ domain ≠ [] ∧ Forall (λ c, Utils.domain_char c = true) domain
    ∧ (2 ≤ length tld)%nat ∧ Forall (λ c, is_alpha c = true) tld.


(** What each call of [_send_single_email] returns when the entries are
    gone through in order, each call starting where the previous one ended. *)
Fixpoint dispatch_results (env : Env) (pdf : Path) (md : PdfMetadata)
    (entries : list MailingEntry) (w : World) : list bool :=
  match entries with
  | [] => []
  | entry :: rest =>
      let '(ok, w) := EmailSender._send_single_email env pdf md entry w in
      ok :: dispatch_results env pdf md rest w
  end.

(** Strictly increasing file names. *)
Definition name_lt (p q : Path) : Prop := (name p ≤ name q)%string ∧ name p ≠ name q.

(** Every value of [unique_files] is filed under its own name. *)
Definition keyed (d : list (string * Path)) : Prop := name <$> d.*2 = d.*1.

(** A configuration the orchestrator accepts: the transport and the
    administrator settings are complete, both tables are non-empty, every
    mailing-list entry names a document of the folder table, and every
    document of the folder table other than ["Global Headers"] has an entry. *)
Definition valid_configuration (c : ConfigManager.t) : Prop :=
  (use_default_mailer (ConfigManager.email_config c) = false ->
     ConfigManager.truthy (smtp_server (ConfigManager.email_config c)) = true
     ∧ ConfigManager.truthy (smtp_username (ConfigManager.email_config c)) = true
     ∧ ConfigManager.truthy (smtp_password (ConfigManager.email_config c)) = true)
  ∧ (send_summary_email (ConfigManager.admin_config c)
     || send_error_notifications (ConfigManager.admin_config c) = true ->
     admin_emails (ConfigManager.admin_config c) ≠ [])
  ∧ ConfigManager.pdf_names_mapping c ≠ []
  ∧ ConfigManager.mailing_list c ≠ []
  ∧ (∀ entry, entry ∈ ConfigManager.mailing_list c ->
       pdf_name entry ∈ PyDict.values (ConfigManager.pdf_names_mapping c))
  ∧ (∀ document, document ∈ PyDict.values (ConfigManager.pdf_names_mapping c) ->
       document ≠ "Global Headers" ->
       ∃ entry, entry ∈ ConfigManager.mailing_list c ∧ pdf_name entry = document).

(** The two sets [validate_configuration] computes for its cross-reference
    checks. *)
Definition orphaned (c : ConfigManager.t) : gset string :=
  list_to_set (pdf_name <$> ConfigManager.mailing_list c)
  ∖ list_to_set (PyDict.values (ConfigManager.pdf_names_mapping c)).

Definition missing (c : ConfigManager.t) : gset string :=
  list_to_set (PyDict.values (ConfigManager.pdf_names_mapping c))
  ∖ list_to_set (pdf_name <$> ConfigManager.mailing_list c) ∖ {["Global Headers"]}.

End Spec.

(** ** Concrete states used to run the definitions *)

Module Examples.

Definition empty_world : World := {| fs := ∅; attempts := []; logs := [] |}.

(** A lock with the 30 minute timeout, a first acquisition whose marker is
    stamped at 0 and written 5 microseconds later, and a second attempt 30
    minutes and 3 microseconds after the stamp. *)
Definition lock : ProcessingLock.t := ProcessingLock.init 30.

Definition first_attempt : ProcessingLock.io :=
  {| ProcessingLock.current_time := 0; ProcessingLock.stamp_time := 0;
     ProcessingLock.write_mtime := 5; ProcessingLock.getpid := 4242;
     ProcessingLock.marker_bytes := 64;
     ProcessingLock.unlink_ok := true; ProcessingLock.open_ok := true |}.

Definition attempt_at (t : Z) : ProcessingLock.io :=
  {| ProcessingLock.current_time := t; ProcessingLock.stamp_time := t;
     ProcessingLock.write_mtime := t; ProcessingLock.getpid := 4343;
     ProcessingLock.marker_bytes := 64;
     ProcessingLock.unlink_ok := true; ProcessingLock.open_ok := true |}.

Definition locked_world : World :=
  (ProcessingLock.acquire_lock lock first_attempt empty_world).2.

(** A configuration with the global-headers folder and one report folder
    that has two recipient groups. *)
Definition entry_a1 : MailingEntry :=
  {| pdf_name := "Report-A"; recipients := ["a@test.com"; "b@test.org"];
     cc := []; subject := "Report A [DATE]" |}.

Definition entry_a2 : MailingEntry :=
  {| pdf_name := "Report-A"; recipients := ["c@test.com"];
     cc := ["d@test.com"]; subject := "Report A for management" |}.

Definition entry_z : MailingEntry :=
  {| pdf_name := "Report-Z"; recipients := ["z@test.com"];
     cc := []; subject := "Report Z" |}.

Definition config_with (mapping : list (string * string))
    (entries : list MailingEntry) : ConfigManager.t :=
  {| ConfigManager.email_config :=
       {| use_default_mailer := false; smtp_server := Some "smtp.example.com";
          smtp_port := 587; smtp_username := Some "reports@example.com";
          smtp_password := Some "secret"; use_tls := true; use_ssl := false |};
     ConfigManager.general_config :=
       {| log_retention_days := 30; max_attachment_size_mb := 25;
          processing_lock_timeout_minutes := 30 |};
     ConfigManager.admin_config :=
       {| admin_emails := ["admin@example.com"]; send_summary_email := true;
          send_error_notifications := true |};
     ConfigManager.processing_config :=
       {| png_file_extensions := [".png"; ".PNG"]; archive_after_processing := true;
          override_existing_lock := false; date_format := "%Y-%m-%d";
          timestamp_format := "%Y-%m-%d_%H-%M-%S" |};
     ConfigManager.pdf_names_mapping := mapping;
     ConfigManager.mailing_list := entries |}.

Definition config : ConfigManager.t :=
  config_with [("ALL", "Global Headers"); ("GroupA", "Report-A")] [entry_a1; entry_a2].

(** One entry for a document no folder produces. *)
Definition config_orphan : ConfigManager.t :=
  config_with [("ALL", "Global Headers"); ("GroupA", "Report-A")]
    [entry_a1; entry_a2; entry_z].

(** One folder whose document has no entry. *)
Definition config_unsent : ConfigManager.t :=
  config_with [("ALL", "Global Headers"); ("GroupA", "Report-A"); ("GroupB", "Report-B")]
    [entry_a1; entry_a2].

(** An input tree: the ALL folder and the folder GroupA both hold an
    [X.png]; GroupA also holds a file that is not an image. *)
Definition image (width height : Z) : File :=
  {| f_content := Image (Some (width, height)); st_size := 2048; st_mtime := 0 |}.

Definition files : FileSystem :=
  list_to_map
    [("./Input/ALL",
      list_to_map [("header.png", image 800 100); ("X.png", image 640 480)]);
     ("./Input/GroupA",
      list_to_map [("chart.png", image 640 480); ("X.png", image 10 10);
                   ("appendix.PNG", image 640 480);
                   ("notes.txt", {| f_content := Blob; st_size := 1; st_mtime := 0 |})])].

Definition extensions : list string := [".png"; ".PNG"].

(** Surroundings in which every write and move goes through and the
    transport refuses the second recipient group of Report-A. *)
Definition env : Env :=
  {| strftime_now := λ _ _, "2024-05-01_06-00-00";
     isoformat_now := λ _, "2024-05-01T06:00:00";
     year_now := λ _, "2024";
     month_now := λ _, "05";
     mtime_now := λ _, 0%Z;
     canvas_bytes := λ pages, (1000 * Z.of_nat (length pages))%Z;
     canvas_save_ok := λ _ _, true;
     json_bytes := λ _, 200%Z;
     json_dump_ok := λ _ _, true;
     move_ok := λ _ _ _, true;
     transport := λ _ _ _ entry, negb (subject entry =? "Report A for management") |}.

Definition orchestrator (c : ConfigManager.t) : Main.Components World :=
  Main.components env "." (λ _, ret "summary") (λ _ _ _, ret true) pass (λ _, pass) c.

Definition world : World := {| fs := files; attempts := []; logs := [] |}.

(** The folder GroupA exists and holds nothing; there is no ALL folder. *)
Definition empty_folder_world : World :=
  {| fs := list_to_map [("./Input/GroupA", ∅)]; attempts := []; logs := [] |}.

(** The document of GroupA as the build stage names it here, the state the
    build stage leaves, and the metadata it stores. *)
Definition report_a : Path := joinpath "./Output/PDFs" "Report-A_2024-05-01_06-00-00.pdf".

Definition built_world : World :=
  (PDFGenerator.generate_pdf_for_folder env (PDFGenerator.init config ".") "GroupA" world).2.

Definition report_a_metadata : PdfMetadata :=
  {| md_pdf_path := None; md_pdf_name := Some "Report-A";
     md_folder_name := Some "GroupA"; md_files := [] |}.

Definition unlisted_metadata : PdfMetadata :=
  {| md_pdf_path := None; md_pdf_name := Some "Report-Q";
     md_folder_name := Some "GroupQ"; md_files := [] |}.

(** Two report folders, and an orchestrator whose size validation raises
    for the documents of the first. *)
Definition entry_b : MailingEntry :=
  {| pdf_name := "Report-B"; recipients := ["e@test.com"];
     cc := []; subject := "Report B" |}.

Definition config_two_folders : ConfigManager.t :=
  config_with [("ALL", "Global Headers"); ("GroupA", "Report-A"); ("GroupB", "Report-B")]
    [entry_a1; entry_b].

Definition world_two_folders : World :=
  {| fs := <["./Input/GroupB" := list_to_map [("b.png", image 320 200)]]> files;
     attempts := []; logs := [] |}.

Definition faulty_orchestrator : Main.Components World :=
  let good := orchestrator config_two_folders in
  {| Main.log := Main.log good;
     Main.now := Main.now good;
     Main.strftime := Main.strftime good;
     Main.summary_enabled := Main.summary_enabled good;
     Main.error_notifications_enabled := Main.error_notifications_enabled good;
     Main.get_folders_with_new_pngs := Main.get_folders_with_new_pngs good;
     Main.generate_pdf_for_folder := Main.generate_pdf_for_folder good;
     Main.validate_pdf_size :=
       λ pdf, if String.prefix "Report-A" (name pdf) then raise "stat failed"
              else Main.validate_pdf_size good pdf;
     Main.get_pdf_metadata := Main.get_pdf_metadata good;
     Main.send_pdf_emails := Main.send_pdf_emails good;
     Main.archive_sent_pdf := Main.archive_sent_pdf good;
     Main.archive_processed_pngs := Main.archive_processed_pngs good;
     Main.generate_processing_summary := Main.generate_processing_summary good;
     Main.send_admin_notification := Main.send_admin_notification good;
     Main.cleanup_old_archives := Main.cleanup_old_archives good;
     Main.cleanup_old_pdfs := Main.cleanup_old_pdfs good |}.

End Examples.

(** ** Equality of paths is decidable *)

Global Instance Path_eq_dec : EqDecision Path.
Proof. solve_decision. Defined.

(** ** Loading the two CSV tables ([config_manager.py]) *)

Module ConfigLoader.

(** [dict(zip(df['FolderName'], df['PDFName']))] over the rows of
    [pdf_names.csv]. *)
Definition _load_pdf_names (rows : list (string * string)) : list (string * string) :=
  foldl (λ d row, PyDict.set row.1 row.2 d) [] rows.

(** A row of [mailing_list.csv] as pandas hands it over; the [CC] column
    may be absent from the file. *)
Record MailingRow : Set := mkMailingRow {
  row_pdf_name : string;
  row_recipients : Utils.cell;
  row_cc : option Utils.cell;
  row_subject : string;
}.

(** One turn of the loop of [_load_mailing_list]: the entry appended, if
    any, and the records written. *)
Definition load_row (row : MailingRow) : option MailingEntry * list log_record :=
  let '(recipients, warned) := Utils.split_email_list (row_recipients row) in
  let '(cc, warned_cc) :=
    Utils.split_email_list (default (Utils.PyString "") (row_cc row)) in
  match recipients with
  | [] =>
      (None, warned ++ warned_cc
             ++ [LogRecord error_logger ERROR
                   (Text ("No valid recipients for PDF: " +:+ row_pdf_name row))])
  | _ =>
      (Some {| pdf_name := row_pdf_name row; recipients := recipients;
               cc := cc; subject := row_subject row |},
       warned ++ warned_cc)
  end.

Definition _load_mailing_list (rows : list MailingRow)
  : list MailingEntry * list log_record :=
  let '(mailing_list, written) :=
    foldl (λ '(mailing_list, written) row,
             let '(entry, records) := load_row row in
             (match entry with
              | Some entry => mailing_list ++ [entry]
              | None => mailing_list
              end, written ++ records))
      ([], []) rows in
  (mailing_list,
   written ++ [LogRecord file_logger INFO (Text "Mailing list loaded")]).

End ConfigLoader.

(** ** [PDFGenerator.cleanup_old_pdfs] *)

Module OutputSweep.

(** What the sweep reads from outside: [datetime.now()] in microseconds and
    whether an [unlink] goes through. *)
Record sweep_io : Type := mkSweepIo {
  datetime_now : World -> Z;
  unlink_goes_through : World -> Path -> bool;
}.

(** [datetime.timedelta(days=keep_days)] in microseconds. *)
Definition timedelta_days (days : Z) : Z := (days * 86400 * 1000000)%Z.

(** The loop over [pdf_files + metadata_files] with its counter; [stat] on a
    file that is gone and a refused [unlink] raise, which ends the loop. *)
Fixpoint sweep_loop (env : sweep_io) (cutoff_date : Z) (files : list Path)
    (cleaned_count : nat) : M World nat :=
  match files with
  | [] => ret cleaned_count
  | file_path :: rest =>
      λ w, match lookup_file (fs w) file_path with
           | None => (Raise "No such file or directory", w)
           | Some f =>
               if (st_mtime f <? cutoff_date)%Z then
                 if unlink_goes_through env w file_path then
                   sweep_loop env cutoff_date rest (S cleaned_count)
                     (log_file_operation ("Cleaned up old file: " +:+ path_str file_path)
                        (set_fs (λ fs, unlink fs file_path) w))
                 else (Raise "Permission denied", w)
               else sweep_loop env cutoff_date rest cleaned_count w
           end
  end.

Definition cutoff (env : sweep_io) (keep_days : Z) (w : World) : Z :=
  (datetime_now env w - timedelta_days keep_days)%Z.

Definition cleanup_old_pdfs (env : sweep_io) (self : PDFGenerator.t) (keep_days : Z)
    (w : World) : World :=
  let cutoff_date := cutoff env keep_days w in
  let pdf_files := Utils.glob_suffix (fs w) (PDFGenerator.output_dir self) ".pdf" in
  let metadata_files := Utils.glob_suffix (fs w) (PDFGenerator.output_dir self) ".json" in
  match sweep_loop env cutoff_date (pdf_files ++ metadata_files) 0 w with
  | (Ret cleaned_count, w) =>
      if (0 <? cleaned_count)%nat
      then log_file_operation "Cleaned up old files from output directory" w
      else w
  | (Raise _, w) => log_error "Failed to cleanup old PDF files" w
  end.

End OutputSweep.

(** ** [main.py]: processing one folder from the command line *)

Module Cli.

Import PyStr.

(** The dictionary [process_specific_folder] returns: the result of
    [_process_single_folder], or one with only the key [error]. *)
Inductive specific_result : Set :=
| Processed (result : Main.FolderResult)
| OnlyError (error_msg : string).

(** [result.get('error')] as a truth value. *)
Definition has_error (result : specific_result) : bool :=
  match result with
  | Processed r => ConfigManager.truthy (Main.error r)
  | OnlyError error_msg => negb (error_msg =? "")
  end.

Section orchestrator.
Context {W : Type} (self : Main.Components W) (config : ConfigManager.t).

Definition process_specific_folder (folder_name : string) (w : W)
  : specific_result * W :=
  let w := Main.log self (LogRecord summary_logger INFO
                            (Text ("Processing specific folder: " +:+ folder_name))) w in
  if negb (bool_decide (folder_name ∈ ConfigManager.get_all_folder_names config)) then
    let error_msg := "Folder '" +:+ folder_name +:+ "' not found in configuration" in
    (OnlyError error_msg, Main.log self (LogRecord error_logger ERROR (Text error_msg)) w)
  else
    let '(result, w) := Main._process_single_folder self folder_name w in
    match Main.error result with
    | Some e =>
        if negb (e =? "") then
          (Processed result,
           Main._send_error_notification self
             ("BIMailer Processing Error - " +:+ folder_name)
             ("Error processing folder " +:+ folder_name +:+ ": " +:+ e) w)
        else (Processed result, w)
    | None => (Processed result, w)
    end.

End orchestrator.

(** What [main()] makes of [sys.argv[1]]. *)
Inductive command : Set :=
| Diagnostics
| Folder (folder_name : string)
| Usage.

(** [command.split(':', 1)[1]] for a command that contains a colon. *)
Fixpoint after_colon (l : list ascii) : list ascii :=
  match l with
  | [] => []
  | c :: l' => if Ascii.eqb c ":" then l' else after_colon l'
  end.

Definition parse (argv1 : string) : command :=
  let command := lower argv1 in
  if command =? "diagnostics" then Diagnostics
  else if String.prefix "folder:" command
  then Folder (str (after_colon (chars command)))
  else Usage.

(** The exit code of the [folder:] branch of [main()]. *)
Definition folder_exit_code (o : outcome specific_result) : Z :=
  match o with
  | Ret result => if has_error result then 1%Z else 0%Z
  | Raise _ => 1%Z
  end.

End Cli.

(** ** More concrete states *)

Module MoreExamples.

(** The configuration with two report folders, archiving switched off. *)
Definition config_no_archive : ConfigManager.t :=
  {| ConfigManager.email_config := ConfigManager.email_config Examples.config_two_folders;
     ConfigManager.general_config := ConfigManager.general_config Examples.config_two_folders;
     ConfigManager.admin_config := ConfigManager.admin_config Examples.config_two_folders;
     ConfigManager.processing_config :=
       {| png_file_extensions := [".png"; ".PNG"]; archive_after_processing := false;
          override_existing_lock := false; date_format := "%Y-%m-%d";
          timestamp_format := "%Y-%m-%d_%H-%M-%S" |};
     ConfigManager.pdf_names_mapping :=
       ConfigManager.pdf_names_mapping Examples.config_two_folders;
     ConfigManager.mailing_list := ConfigManager.mailing_list Examples.config_two_folders |}.

(** Surroundings in which the sidecar cannot be written. *)
Definition env_without_sidecar : Env :=
  {| strftime_now := strftime_now Examples.env;
     isoformat_now := isoformat_now Examples.env;
     year_now := year_now Examples.env;
     month_now := month_now Examples.env;
     mtime_now := mtime_now Examples.env;
     canvas_bytes := canvas_bytes Examples.env;
     canvas_save_ok := canvas_save_ok Examples.env;
     json_bytes := json_bytes Examples.env;
     json_dump_ok := λ _ _, false;
     move_ok := move_ok Examples.env;
     transport := transport Examples.env |}.

(** Two rows of [mailing_list.csv]: the second has no valid recipient. *)
Definition rows : list ConfigLoader.MailingRow :=
  [ {| ConfigLoader.row_pdf_name := "Report-A";
       ConfigLoader.row_recipients := Utils.PyString "a@test.com; b@test.org";
       ConfigLoader.row_cc := Some Utils.PyFloat;
       ConfigLoader.row_subject := "Report A [DATE]" |};
    {| ConfigLoader.row_pdf_name := "Report-B";
       ConfigLoader.row_recipients := Utils.PyString "not-an-address";
       ConfigLoader.row_cc := None;
       ConfigLoader.row_subject := "Report B" |} ].

Definition config_loaded : ConfigManager.t :=
  Examples.config_with
    (ConfigLoader._load_pdf_names
       [("ALL", "Global Headers"); ("GroupA", "Report-A"); ("GroupB", "Report-B")])
    (ConfigLoader._load_mailing_list rows).1.

(** A sweep ten days after the files of [Examples.built_world] were
    written, in which every [unlink] goes through. *)
Definition sweep_env : OutputSweep.sweep_io :=
  {| OutputSweep.datetime_now := λ _, (10 * 86400 * 1000000)%Z;
     OutputSweep.unlink_goes_through := λ _ _, true |}.

End MoreExamples.

(** * Properties *)

(** ** Regular expressions: [fullmatch] decides [lang] *)

Module ReFacts.

Import Re.

Lemma lang_nil_app r1 r2 :
  lang r1 [] -> lang r2 [] -> lang (Seq r1 r2) [].
Proof. intros H1 H2. exact (lang_seq r1 r2 [] [] H1 H2). Qed.

Lemma nullable_lang r : nullable r = true <-> lang r [].
Proof.
  split.
  - induction r as [| |p|r1 IH1 r2 IH2|r1 IH1 r2 IH2|r IH]; simpl; intros H;
      try discriminate.
    + constructor.
    + apply andb_true_iff in H as [H1 H2]. apply lang_nil_app; auto.
    + apply orb_true_iff in H as [H|H];
        [apply lang_alt_l | apply lang_alt_r]; auto.
    + constructor.
  - intros H. remember [] as l eqn:El.
    induction H as [|p c Hp|r1 r2 l1 l2 H1 IH1 H2 IH2|r1 r2 l H IH|r1 r2 l H IH
                    |r|r l1 l2 H1 IH1 H2 IH2]; simpl; auto; try discriminate.
    + apply app_eq_nil in El as [-> ->].
      rewrite IH1, IH2; auto.
    + rewrite IH; auto.
    + rewrite IH; auto. apply orb_true_r.
Qed.

Lemma deriv_sound c r : ∀ l, lang (deriv c r) l -> lang r (c :: l).
Proof.
  induction r as [| |p|r1 IH1 r2 IH2|r1 IH1 r2 IH2|r IH]; simpl; intros l H.
  - inversion H.
  - inversion H.
  - destruct (p c) eqn:Hp; inversion H; subst. by constructor.
  - destruct (nullable r1) eqn:Hn.
    + inversion H as [| | | ?? ? H' | ?? ? H' | |]; subst.
      * inversion H' as [| |?? l1 l2 Ha Hb| | | |]; subst.
        apply (lang_seq r1 r2 (c :: l1) l2); auto.
      * apply (lang_seq r1 r2 [] (c :: l)); auto.
        by apply nullable_lang.
    + inversion H as [| |?? l1 l2 Ha Hb| | | |]; subst.
      apply (lang_seq r1 r2 (c :: l1) l2); auto.
  - inversion H; subst; [apply lang_alt_l | apply lang_alt_r]; auto.
  - inversion H as [| |?? l1 l2 Ha Hb| | | |]; subst.
    apply (lang_star_cons r (c :: l1) l2); auto.
Qed.

Lemma deriv_complete c r l0 :
  lang r l0 -> ∀ l, l0 = c :: l -> lang (deriv c r) l.
Proof.
  induction 1 as [|p c' Hp|r1 r2 l1 l2 H1 IH1 H2 IH2|r1 r2 l' H IH|r1 r2 l' H IH
                  |r|r l1 l2 H1 IH1 H2 IH2]; intros l El; simpl.
  - discriminate.
  - injection El as -> <-. rewrite Hp. constructor.
  - destruct l1 as [|c1 l1]; simpl in El.
    + apply nullable_lang in H1 as Hn. rewrite Hn.
      apply lang_alt_r. auto.
    + injection El as -> <-.
      assert (lang (Seq (deriv c r1) r2) (l1 ++ l2)) as Hs
        by (constructor; auto).
      destruct (nullable r1); [by apply lang_alt_l | done].
  - apply lang_alt_l; auto.
  - apply lang_alt_r; auto.
  - discriminate.
  - destruct l1 as [|c1 l1]; simpl in El.
    + auto.
    + injection El as -> <-. constructor; auto.
Qed.

Lemma fullmatch_lang l : ∀ r, fullmatch r l = true <-> lang r l.
Proof.
  induction l as [|c l IH]; intros r; simpl.
  - apply nullable_lang.
  - rewrite IH. split; [apply deriv_sound|].
    intros H. by eapply deriv_complete.
Qed.

Lemma lang_class p l : lang (Class p) l <-> ∃ c, l = [c] ∧ p c = true.
Proof.
  split.
  - inversion 1; subst; eauto.
  - intros (c & -> & Hp). by constructor.
Qed.

Lemma lang_seq_iff r1 r2 l :
  lang (Seq r1 r2) l <-> ∃ l1 l2, l = l1 ++ l2 ∧ lang r1 l1 ∧ lang r2 l2.
Proof.
  split.
  - inversion 1; subst; eauto.
  - intros (l1 & l2 & -> & H1 & H2). by constructor.
Qed.

Lemma lang_star_class p l :
  lang (Star (Class p)) l <-> Forall (λ c, p c = true) l.
Proof.
  split.
  - intros H. remember (Star (Class p)) as r eqn:Er.
    induction H as [| | | | | |r l1 l2 H1 _ H2 IH2]; try discriminate.
    + constructor.
    + injection Er as ->. apply lang_class in H1 as (c & -> & Hp).
      constructor; auto.
  - induction 1 as [|c l Hp _ IH]; [constructor|].
    apply (lang_star_cons (Class p) [c] l); auto. by constructor.
Qed.

Lemma lang_plus_class p l :
  lang (plus (Class p)) l <-> l ≠ [] ∧ Forall (λ c, p c = true) l.
Proof.
  unfold plus. rewrite lang_seq_iff. split.
  - intros (l1 & l2 & -> & H1 & H2).
    apply lang_class in H1 as (c & -> & Hp).
    apply lang_star_class in H2. split; [done|]. by constructor.
  - intros [Hne Hall]. destruct l as [|c l]; [done|].
    inversion Hall; subst. exists [c], l.
    split; [done|]. split; [by constructor | by apply lang_star_class].
Qed.

Lemma lang_at_least_two_class p l :
  lang (at_least_two (Class p)) l <-> (2 ≤ length l)%nat ∧ Forall (λ c, p c = true) l.
Proof.
  unfold at_least_two. rewrite lang_seq_iff. split.
  - intros (l1 & l2 & -> & H1 & H2).
    apply lang_class in H1 as (c & -> & Hp).
    apply (lang_plus_class p l2) in H2 as [Hne Hall].
    destruct l2; [done|]. split; [simpl; lia | by constructor].
  - intros [Hlen Hall]. destruct l as [|c [|c' l]]; simpl in Hlen; try lia.
    inversion Hall; subst. exists [c], (c' :: l).
    split; [done|]. split; [by constructor|].
    by apply (lang_plus_class p (c' :: l)).
Qed.

Lemma lang_lit c l : lang (lit c) l <-> l = [c].
Proof.
  unfold lit. rewrite lang_class. split.
  - intros (c' & -> & H). by apply Ascii.eqb_eq in H as ->.
  - intros ->. exists c. split; [done|]. apply Ascii.eqb_refl.
Qed.

End ReFacts.

(** ** [utils.py]: addresses and recipient lists *)

Module UtilsFacts.

Import PyStr Re ReFacts Utils Spec.

Lemma chars_str l : chars (str l) = l.
Proof. apply list_ascii_of_string_of_list_ascii. Qed.

Lemma str_chars s : str (chars s) = s.
Proof. apply string_of_list_ascii_of_string. Qed.

(** The pattern denotes exactly the strings of the shape
    [local@domain.tld]. *)
Lemma email_pattern_lang s :
  lang email_pattern (chars s) <-> address_shape s.
Proof.
  unfold email_pattern, address_shape. split.
  - intros H.
    apply lang_seq_iff in H as (lp & l1 & E1 & Hlp & H).
    apply lang_seq_iff in H as (at_ & l2 & E2 & Hat & H).
    apply lang_seq_iff in H as (dom & l3 & E3 & Hdom & H).
    apply lang_seq_iff in H as (dot & tld & E4 & Hdot & Htld).
    apply lang_lit in Hat as ->. apply lang_lit in Hdot as ->.
    apply lang_plus_class in Hlp as [? ?].
    apply lang_plus_class in Hdom as [? ?].
    apply lang_at_least_two_class in Htld as [? ?].
    exists lp, dom, tld. subst. simpl. auto 10.
  - intros (lp & dom & tld & E & ? & ? & ? & ? & ? & ?). rewrite E.
    apply lang_seq_iff. exists lp, ("@"%char :: dom ++ "."%char :: tld).
    split; [done|]. split; [by apply lang_plus_class|].
    apply lang_seq_iff. exists ["@"%char], (dom ++ "."%char :: tld).
    split; [done|]. split; [by apply lang_lit|].
    apply lang_seq_iff. exists dom, ("."%char :: tld).
    split; [done|]. split; [by apply lang_plus_class|].
    apply lang_seq_iff. exists ["."%char], tld.
    split; [done|]. split; [by apply lang_lit|].
    by apply lang_at_least_two_class.
Qed.

Lemma lstrip_head l c l' : lstrip_chars l = c :: l' -> isspace c = false.
Proof.
  induction l as [|a l IH]; simpl; [done|].
  destruct (isspace a) eqn:Ha; [done|]. by intros [= <- _].
Qed.

Lemma lstrip_sublist l : ∀ c, c ∈ lstrip_chars l -> c ∈ l.
Proof.
  induction l as [|a l IH]; simpl; [done|]. intros c.
  destruct (isspace a); [|done]. intros H. right. auto.
Qed.

Lemma strip_sublist l c : c ∈ strip_chars l -> c ∈ l.
Proof.
  unfold strip_chars, rstrip_chars. intros H.
  apply lstrip_sublist. apply list_elem_of_In, in_rev, list_elem_of_In in H.
  apply lstrip_sublist in H. by apply list_elem_of_In, in_rev, list_elem_of_In in H.
Qed.

(** A stripped string does not end with white space. *)
Lemma strip_last l l' c : strip_chars l = l' ++ [c] -> isspace c = false.
Proof.
  unfold strip_chars, rstrip_chars. intros H.
  destruct (lstrip_chars (rev (lstrip_chars l))) as [|a t] eqn:E.
  - simpl in H. by destruct l'.
  - apply lstrip_head in E. simpl in H.
    apply app_inj_tail in H as [_ ->]. done.
Qed.

Lemma lstrip_nil l : lstrip_chars l = [] -> Forall (λ c, isspace c = true) l.
Proof.
  induction l as [|a l IH]; simpl; [constructor|].
  destruct (isspace a) eqn:Ha; [|done]. intros H. constructor; auto.
Qed.

Lemma strip_nil l : strip_chars l = [] -> Forall (λ c, isspace c = true) l.
Proof.
  unfold strip_chars, rstrip_chars. intros H.
  destruct (lstrip_chars l) as [|a t] eqn:E.
  - by apply lstrip_nil.
  - apply lstrip_head in E as Ha.
    apply (f_equal (@rev ascii)) in H. rewrite rev_involutive in H. simpl in H.
    apply lstrip_nil in H. rewrite Forall_app in H. destruct H as [_ H].
    inversion H; subst. congruence.
Qed.

(** On a stripped string [validate_email] is the shape test: the newline
    that [$] tolerates cannot be there. *)
Lemma validate_email_strip s :
  validate_email (strip s) = true <-> address_shape (strip s).
Proof.
  unfold validate_email, match_anchored.
  rewrite <- email_pattern_lang, <- fullmatch_lang.
  destruct (rev (chars (strip s))) as [|c l'] eqn:E.
  - by rewrite orb_false_r.
  - assert (isspace c = false) as Hc.
    { apply (f_equal (@rev ascii)) in E. rewrite rev_involutive in E. simpl in E.
      unfold strip in E. rewrite chars_str in E. by eapply strip_last. }
    destruct (Ascii.eqb c "010") eqn:Hnl.
    + apply Ascii.eqb_eq in Hnl as ->. by vm_compute in Hc.
    + simpl. by rewrite orb_false_r.
Qed.

Lemma address_shape_has_at s : address_shape s -> "@"%char ∈ chars s.
Proof.
  intros (lp & dom & tld & -> & _). apply elem_of_app. right. by left.
Qed.



Lemma blank_or_nan_without_at s :
  blank_or_nan s = true -> "@"%char ∉ chars s.
Proof.
  unfold blank_or_nan. rewrite !orb_true_iff, !String.eqb_eq.
  intros [[-> | H] | H] Hin.
  - by apply elem_of_nil in Hin.
  - apply (f_equal chars) in H. unfold strip in H. rewrite chars_str in H.
    apply strip_nil in H. rewrite Forall_forall in H.
    apply H in Hin. by vm_compute in Hin.
  - apply (f_equal chars) in H. unfold lower in H. rewrite chars_str in H.
    apply (list_elem_of_fmap_2 lower_char) in Hin.
    change (lower_char "@" ∈ map lower_char (chars s)) in Hin.
    rewrite H in Hin. vm_compute in Hin.
    repeat (apply elem_of_cons in Hin as [Hin | Hin]; [discriminate|]).
    by apply elem_of_nil in Hin.
Qed.




End UtilsFacts.

Example split_email_list_two_valid_one_malformed :
  Utils.split_email_list (Utils.PyString "a@test.com; b@test.org ;invalid-email")
  = (["a@test.com"; "b@test.org"],
     [LogRecord error_logger WARNING (InvalidEmails ["invalid-email"])]).
Proof. vm_compute. reflexivity. Qed.

Example split_email_list_missing_cell :
  Utils.split_email_list Utils.PyNone = ([], [])
  ∧ Utils.split_email_list Utils.PyFloat = ([], [])
  ∧ Utils.split_email_list (Utils.PyString "NaN") = ([], []).
Proof. vm_compute. auto. Qed.


(** ** The file system operations *)

Module FsFacts.

Lemma lookup_write_file fs p f : lookup_file (write_file fs p f) p = Some f.
Proof.
  unfold lookup_file, write_file. rewrite lookup_insert_eq. simpl.
  apply lookup_insert_eq.
Qed.

Lemma lookup_unlink fs p : lookup_file (unlink fs p) p = None.
Proof.
  unfold lookup_file, unlink. destruct (fs !! parent p) as [entries|] eqn:E.
  - rewrite lookup_insert_eq. simpl. apply lookup_delete_eq.
  - by rewrite E.
Qed.

Lemma lookup_write_file_ne fs p q f :
  p ≠ q -> lookup_file (write_file fs p f) q = lookup_file fs q.
Proof.
  intros Hne. unfold lookup_file, write_file.
  destruct (decide (parent p = parent q)) as [E|E].
  - rewrite E, lookup_insert_eq. simpl.
    assert (name p ≠ name q) as Hn.
    { intros En. apply Hne. destruct p, q; simpl in *; congruence. }
    rewrite lookup_insert_ne by done.
    destruct (fs !! parent q); simpl; [done | apply lookup_empty].
  - by rewrite lookup_insert_ne.
Qed.

End FsFacts.

(** ** The processing lock *)

Module LockFacts.

Import ProcessingLock.

(** A marker that is not stale makes [acquire_lock] give up at once: only a
    log record is added. *)
Lemma acquire_lock_live self env w marker :
  lookup_file (fs w) (lock_file self) = Some marker ->
  is_stale self (current_time env) marker = false ->
  acquire_lock self env w
  = (false, add_log (LogRecord file_logger ERROR
                       (Text "Processing already in progress (lock file exists)")) w).
Proof. intros Hm Hs. unfold acquire_lock. by rewrite Hm, Hs. Qed.

Lemma is_stale_false self now marker :
  is_stale self now marker = false
  <-> (now - st_mtime marker ≤ timeout_minutes self * 60 * 1000000)%Z.
Proof. unfold is_stale. rewrite Z.gtb_ltb, Z.ltb_ge. done. Qed.

Lemma is_stale_true self now marker :
  is_stale self now marker = true
  <-> (timeout_minutes self * 60 * 1000000 < now - st_mtime marker)%Z.
Proof. unfold is_stale. rewrite Z.gtb_ltb, Z.ltb_lt. done. Qed.

(** What a successful acquisition leaves at the marker path. *)
Lemma acquire_lock_marker self env w w' :
  acquire_lock self env w = (true, w') ->
  lookup_file (fs w') (lock_file self)
  = Some {| f_content := LockMarker {| timestamp := stamp_time env; pid := getpid env |};
            st_size := marker_bytes env; st_mtime := write_mtime env |}.
Proof.
  unfold acquire_lock, create_marker.
  destruct (lookup_file (fs w) (lock_file self)) as [m|].
  - destruct (is_stale _ _ _); [|done].
    destruct (unlink_ok env); [|done].
    destruct (open_ok env); [|done].
    intros [= <-]. simpl. apply FsFacts.lookup_write_file.
  - destruct (open_ok env); [|done].
    intros [= <-]. simpl. apply FsFacts.lookup_write_file.
Qed.

End LockFacts.

(** C3.  While a marker exists whose age (current time minus its
    modification time) does not exceed the timeout, [acquire_lock] returns
    [False] in one step and leaves the file system, the marker included, as it
    was; in particular a second acquisition right after a successful one,
    within the timeout and without a release, returns [False]. *)
Theorem acquire_lock_busy_while_marker_live (self : ProcessingLock.t) :
  (∀ env w marker,
     lookup_file (fs w) (ProcessingLock.lock_file self) = Some marker ->
     (ProcessingLock.current_time env - st_mtime marker
      ≤ ProcessingLock.timeout_minutes self * 60 * 1000000)%Z ->
     (ProcessingLock.acquire_lock self env w).1 = false
     ∧ fs (ProcessingLock.acquire_lock self env w).2 = fs w)
  ∧ (∀ env1 env2 w w1,
       ProcessingLock.acquire_lock self env1 w = (true, w1) ->
       (ProcessingLock.current_time env2 - ProcessingLock.write_mtime env1
        ≤ ProcessingLock.timeout_minutes self * 60 * 1000000)%Z ->
       (ProcessingLock.acquire_lock self env2 w1).1 = false
       ∧ fs (ProcessingLock.acquire_lock self env2 w1).2 = fs w1).
Proof.
  split.
  - intros env w marker Hm Hage.
    rewrite (LockFacts.acquire_lock_live self env w marker Hm);
      [done | by apply LockFacts.is_stale_false].
  - intros env1 env2 w w1 Hfirst Hage.
    apply LockFacts.acquire_lock_marker in Hfirst.
    rewrite (LockFacts.acquire_lock_live self env2 w1 _ Hfirst);
      [done | by apply LockFacts.is_stale_false].
Qed.

Lemma acquire_lock_busy_while_marker_live_witness :
  ProcessingLock.acquire_lock Examples.lock Examples.first_attempt Examples.empty_world
  = (true, Examples.locked_world)
  ∧ (ProcessingLock.acquire_lock Examples.lock (Examples.attempt_at 60000000)
       Examples.locked_world).1 = false
  ∧ fs (ProcessingLock.acquire_lock Examples.lock (Examples.attempt_at 60000000)
          Examples.locked_world).2 = fs Examples.locked_world.
Proof.
  split; [reflexivity|].
  apply (proj2 (acquire_lock_busy_while_marker_live Examples.lock)
           Examples.first_attempt (Examples.attempt_at 60000000)
           Examples.empty_world Examples.locked_world).
  - reflexivity.
  - vm_compute. discriminate.
Defined.

(** C4, the claim as stated fails: the marker written by the first
    acquisition is stamped 30 minutes and 3 microseconds before the second
    attempt, so by its stored timestamp it is stale, yet the second attempt is
    refused, because the modification time is only 30 minutes minus 2
    microseconds old. *)
Lemma stale_by_stored_timestamp_still_busy :
  ∃ marker,
    lookup_file (fs Examples.locked_world) (ProcessingLock.lock_file Examples.lock)
    = Some marker
    ∧ ProcessingLock.is_stale_by_stored_timestamp Examples.lock 1800000003 marker = true
    ∧ ProcessingLock.is_stale Examples.lock 1800000003 marker = false
    ∧ (ProcessingLock.acquire_lock Examples.lock (Examples.attempt_at 1800000003)
         Examples.locked_world).1 = false.
Proof.
  eexists. split; [vm_compute; reflexivity|].
  repeat split; vm_compute; reflexivity.
Qed.

(** C4, amended.  A marker is stale exactly when the current time minus the
    modification time of the marker file exceeds [timeout_minutes * 60]
    seconds.  A marker that is not stale refuses the acquisition; a stale one
    is removed, and the acquisition goes on to write a fresh marker holding
    the new timestamp and the process id (when the removal and the write go
    through; otherwise the call returns [False]). *)
Theorem acquire_lock_stale_by_mtime
    (self : ProcessingLock.t) (env : ProcessingLock.io) (w : World) (marker : File) :
  lookup_file (fs w) (ProcessingLock.lock_file self) = Some marker ->
  let stale :=
    bool_decide (ProcessingLock.timeout_minutes self * 60 * 1000000
                 < ProcessingLock.current_time env - st_mtime marker)%Z in
  let result := ProcessingLock.acquire_lock self env w in
  result.1 = stale && ProcessingLock.unlink_ok env && ProcessingLock.open_ok env
  ∧ (result.1 = true ->
     lookup_file (fs result.2) (ProcessingLock.lock_file self)
     = Some {| f_content :=
                 LockMarker {| timestamp := ProcessingLock.stamp_time env;
                               pid := ProcessingLock.getpid env |};
               st_size := ProcessingLock.marker_bytes env;
               st_mtime := ProcessingLock.write_mtime env |})
  ∧ (stale = true -> ProcessingLock.unlink_ok env = true ->
     ProcessingLock.open_ok env = false ->
     lookup_file (fs result.2) (ProcessingLock.lock_file self) = None).
Proof.
  intros Hm stale result.
  assert (ProcessingLock.is_stale self (ProcessingLock.current_time env) marker = stale)
    as Hs.
  { subst stale. destruct (ProcessingLock.is_stale _ _ _) eqn:E.
    - apply LockFacts.is_stale_true in E. by rewrite bool_decide_eq_true_2.
    - apply LockFacts.is_stale_false in E. rewrite bool_decide_eq_false_2; [done|lia]. }
  split; [|split].
  - subst result. unfold ProcessingLock.acquire_lock, ProcessingLock.create_marker.
    rewrite Hm, Hs. destruct stale; [|done].
    destruct (ProcessingLock.unlink_ok env); [|done].
    by destruct (ProcessingLock.open_ok env).
  - intros Hok. apply (LockFacts.acquire_lock_marker self env w).
    subst result. destruct (ProcessingLock.acquire_lock self env w) as [ok w'].
    simpl in *. by rewrite Hok.
  - intros Hst Hu Ho. subst result.
    unfold ProcessingLock.acquire_lock, ProcessingLock.create_marker.
    rewrite Hm, Hs, Hst, Hu, Ho. simpl. apply FsFacts.lookup_unlink.
Qed.

Lemma acquire_lock_stale_by_mtime_witness :
  (ProcessingLock.acquire_lock Examples.lock (Examples.attempt_at 1800000006)
     Examples.locked_world).1 = true
  ∧ lookup_file
      (fs (ProcessingLock.acquire_lock Examples.lock (Examples.attempt_at 1800000006)
             Examples.locked_world).2)
      (ProcessingLock.lock_file Examples.lock)
    = Some {| f_content := LockMarker {| timestamp := 1800000006; pid := 4343 |};
              st_size := 64; st_mtime := 1800000006 |}.
Proof.
  pose proof (acquire_lock_stale_by_mtime Examples.lock
                (Examples.attempt_at 1800000006) Examples.locked_world
                {| f_content := LockMarker {| timestamp := 0; pid := 4242 |};
                   st_size := 64; st_mtime := 5 |}) as H.
  destruct H as (H1 & H2 & _); [vm_compute; reflexivity|].
  split; [exact H1|]. apply H2. exact H1.
Defined.

(** ** Configuration validation *)

Module ConfigFacts.
Import ConfigManager Spec.

Lemma nonempty_true (s : gset string) x : x ∈ s -> nonempty s = true.
Proof.
  unfold nonempty. intros H. rewrite bool_decide_eq_false_2; [done|].
  intros ->. by apply not_elem_of_empty in H.
Qed.

Lemma nonempty_false (s : gset string) : nonempty s = false <-> s = ∅.
Proof. unfold nonempty. by rewrite negb_false_iff, bool_decide_eq_true. Qed.

Lemma snoc_if_nil {A} (b : bool) (l : list A) e :
  (if b then l ++ [e] else l) = [] <-> b = false ∧ l = [].
Proof.
  destruct b; split; try tauto.
  - intros H. apply app_eq_nil in H as [_ H]. discriminate.
  - intros [H _]. discriminate.
Qed.

Lemma snoc_match_nil {A B} (x : list B) (l : list A) e :
  match x with [] => l ++ [e] | _ :: _ => l end = [] <-> x ≠ [] ∧ l = [].
Proof.
  destruct x as [|b x]; split.
  - intros H. apply app_eq_nil in H as [_ H]. discriminate.
  - intros [H _]. done.
  - intros ->. done.
  - tauto.
Qed.

Lemma is_valid_iff c :
  (validate_configuration c).1 = true <-> (validate_configuration c).2 = [].
Proof.
  unfold validate_configuration. cbv zeta. simpl.
  match goal with |- (length ?E =? 0)%nat = true <-> _ => generalize E end.
  intros E. rewrite Nat.eqb_eq. destruct E; simpl; split; (done || lia).
Qed.

Lemma errors_nil_iff c :
  (validate_configuration c).2 = [] <->
  (use_default_mailer (email_config c) = false ->
     truthy (smtp_server (email_config c)) = true
     ∧ truthy (smtp_username (email_config c)) = true
     ∧ truthy (smtp_password (email_config c)) = true)
  ∧ (send_summary_email (admin_config c) || send_error_notifications (admin_config c) = true ->
     admin_emails (admin_config c) ≠ [])
  ∧ pdf_names_mapping c ≠ [] ∧ mailing_list c ≠ []
  ∧ orphaned c = ∅ ∧ missing c = ∅.
Proof.
  unfold validate_configuration. cbv zeta. simpl.
  fold (orphaned c). fold (missing c).
  rewrite !snoc_if_nil, !snoc_match_nil, !nonempty_false.
  destruct (use_default_mailer (email_config c));
    destruct (truthy (smtp_server (email_config c)));
    destruct (truthy (smtp_username (email_config c)));
    destruct (truthy (smtp_password (email_config c)));
    destruct (send_summary_email (admin_config c)
              || send_error_notifications (admin_config c));
    destruct (admin_emails (admin_config c)) as [|a l]; simpl;
    (split;
     [ intros H; destruct_and?; try discriminate; split_and?; try done
     | intros (H1 & H2 & ? & ? & ? & ?); try specialize (H1 eq_refl);
       try specialize (H2 eq_refl); destruct_and?; try discriminate; try done;
       split_and?; done ]).
Qed.

Lemma orphaned_empty c :
  orphaned c = ∅ <->
  ∀ entry, entry ∈ mailing_list c -> pdf_name entry ∈ PyDict.values (pdf_names_mapping c).
Proof.
  unfold orphaned. split.
  - intros H entry He.
    destruct (decide (pdf_name entry ∈ PyDict.values (pdf_names_mapping c))) as [|Hn]; [done|].
    assert (pdf_name entry ∈ (∅ : gset string)) as Habs; [|by apply not_elem_of_empty in Habs].
    rewrite <- H. apply elem_of_difference. rewrite !elem_of_list_to_set.
    split; [|done]. by apply list_elem_of_fmap_2.
  - intros H. apply set_eq. intros x.
    rewrite elem_of_difference, !elem_of_list_to_set, list_elem_of_fmap.
    split; [|by intros ?%not_elem_of_empty].
    intros [(entry & -> & He) Hn]. destruct Hn. auto.
Qed.

Lemma missing_empty c :
  missing c = ∅ <->
  ∀ document, document ∈ PyDict.values (pdf_names_mapping c) ->
    document ≠ "Global Headers" ->
    ∃ entry, entry ∈ mailing_list c ∧ pdf_name entry = document.
Proof.
  unfold missing. split.
  - intros H document Hd Hg.
    destruct (decide (document ∈ pdf_name <$> mailing_list c)) as [Hin|Hn].
    + apply list_elem_of_fmap in Hin as (entry & -> & He). eauto.
    + assert (document ∈ (∅ : gset string)) as Habs; [|by apply not_elem_of_empty in Habs].
      rewrite <- H. rewrite !elem_of_difference, !elem_of_list_to_set, elem_of_singleton.
      done.
  - intros H. apply set_eq. intros x.
    rewrite !elem_of_difference, !elem_of_list_to_set, elem_of_singleton.
    split; [|by intros ?%not_elem_of_empty].
    intros [[Hd Hn] Hg]. destruct Hn.
    destruct (H x Hd Hg) as (entry & He & <-). by apply list_elem_of_fmap_2.
Qed.

Lemma orphan_reported c x :
  x ∈ orphaned c ->
  OrphanedPdfNames (orphaned c) ∈ (validate_configuration c).2.
Proof.
  intros Hx. unfold validate_configuration. cbv zeta. simpl.
  fold (orphaned c). fold (missing c).
  rewrite (nonempty_true (orphaned c) x Hx). cbv iota.
  match goal with |- _ ∈ (if _ then (?E ++ _) ++ _ else ?E ++ _) => generalize E; intros E0 end.
  destruct (nonempty _); rewrite !elem_of_app, !list_elem_of_singleton; auto.
Qed.

Lemma missing_reported c x :
  x ∈ missing c ->
  MissingMailingEntries (missing c) ∈ (validate_configuration c).2.
Proof.
  intros Hx. unfold validate_configuration. cbv zeta. simpl.
  fold (orphaned c). fold (missing c).
  rewrite (nonempty_true (missing c) x Hx). cbv iota.
  apply elem_of_app. right. by apply list_elem_of_singleton.
Qed.

Lemma reported_invalid c e :
  e ∈ (validate_configuration c).2 -> (validate_configuration c).1 = false.
Proof.
  intros He. apply not_true_iff_false. rewrite is_valid_iff. intros E.
  rewrite E in He. by apply elem_of_nil in He.
Qed.

End ConfigFacts.

Lemma valid_configuration_errors_nil c :
  Spec.valid_configuration c <-> (ConfigManager.validate_configuration c).2 = [].
Proof.
  rewrite ConfigFacts.errors_nil_iff. unfold Spec.valid_configuration.
  by rewrite ConfigFacts.orphaned_empty, ConfigFacts.missing_empty.
Qed.

(** C8.  [validate_configuration] returns [(True, [])] exactly for the valid
    configurations; it reports a violation (and returns [False]) when (a) a
    mailing-list entry names a document that is not a value of the folder
    table, and when (b) a document of the folder table other than
    ["Global Headers"] has no mailing-list entry; the reported set contains
    the offending name. *)
Theorem validate_configuration_cross_references (c : ConfigManager.t) :
  (Spec.valid_configuration c <-> ConfigManager.validate_configuration c = (true, []))
  ∧ (∀ entry,
       entry ∈ ConfigManager.mailing_list c ->
       pdf_name entry ∉ PyDict.values (ConfigManager.pdf_names_mapping c) ->
       (ConfigManager.validate_configuration c).1 = false
       ∧ ∃ names, OrphanedPdfNames names ∈ (ConfigManager.validate_configuration c).2
                  ∧ pdf_name entry ∈ names)
  ∧ (∀ document,
       document ∈ PyDict.values (ConfigManager.pdf_names_mapping c) ->
       document ≠ "Global Headers" ->
       (∀ entry, entry ∈ ConfigManager.mailing_list c -> pdf_name entry ≠ document) ->
       (ConfigManager.validate_configuration c).1 = false
       ∧ ∃ names, MissingMailingEntries names ∈ (ConfigManager.validate_configuration c).2
                  ∧ document ∈ names).
Proof.
  split; [|split].
  - rewrite valid_configuration_errors_nil. split.
    + intros H. apply ConfigFacts.is_valid_iff in H as H1.
      destruct (ConfigManager.validate_configuration c) as [b e].
      simpl in *. by subst.
    + by intros ->.
  - intros entry He Hn.
    assert (pdf_name entry ∈ Spec.orphaned c) as Hin.
    { apply elem_of_difference. rewrite !elem_of_list_to_set.
      split; [by apply list_elem_of_fmap_2 | done]. }
    apply ConfigFacts.orphan_reported in Hin as Hrep.
    split; [by eapply ConfigFacts.reported_invalid | eauto].
  - intros document Hd Hg Hnone.
    assert (document ∈ Spec.missing c) as Hin.
    { unfold Spec.missing.
      rewrite !elem_of_difference, !elem_of_list_to_set, elem_of_singleton.
      split; [split; [done|] | done].
      intros (entry & E & He)%list_elem_of_fmap. by apply (Hnone entry). }
    apply ConfigFacts.missing_reported in Hin as Hrep.
    split; [by eapply ConfigFacts.reported_invalid | eauto].
Qed.

Lemma validate_configuration_cross_references_witness :
  ConfigManager.validate_configuration Examples.config = (true, [])
  ∧ (ConfigManager.validate_configuration Examples.config_orphan).1 = false
  ∧ (ConfigManager.validate_configuration Examples.config_unsent).1 = false.
Proof.
  split; [|split].
  - apply (proj1 (validate_configuration_cross_references Examples.config)).
    apply valid_configuration_errors_nil. vm_compute. reflexivity.
  - apply (proj1 (proj2 (validate_configuration_cross_references Examples.config_orphan))
             Examples.entry_z).
    + vm_compute. do 2 right. left.
    + vm_compute. intros H.
      repeat (apply elem_of_cons in H as [H | H]; [discriminate|]).
      by apply elem_of_nil in H.
  - apply (proj2 (proj2 (validate_configuration_cross_references Examples.config_unsent))
             "Report-B").
    + vm_compute. do 2 right. left.
    + discriminate.
    + intros entry H. vm_compute in H.
      repeat (apply elem_of_cons in H as [-> | H]; [discriminate|]).
      by apply elem_of_nil in H.
Defined.

(** ** The merge of the ALL folder into a folder's images *)

Module DictFacts.
Section dict.
Context {K V : Type} `{EqDecision K}.
Implicit Types (d : list (K * V)).

Lemma set_keys_in k v d : k ∈ d.*1 -> (PyDict.set k v d).*1 = d.*1.
Proof.
  induction d as [|[k' v'] d IH]; simpl; intros Hin.
  - by apply elem_of_nil in Hin.
  - destruct (decide (k' = k)) as [->|Hne]; simpl; [done|].
    f_equal. apply IH. apply elem_of_cons in Hin as [?|?]; [congruence | done].
Qed.

Lemma set_fresh k v d : k ∉ d.*1 -> PyDict.set k v d = d ++ [(k, v)].
Proof.
  induction d as [|[k' v'] d IH]; simpl; intros Hk; [done|].
  rewrite decide_False.
  - rewrite IH; [done|]. intros ?. apply Hk. by right.
  - intros ->. apply Hk. by left.
Qed.

Lemma set_values_elem k v d x :
  x ∈ (PyDict.set k v d).*2 -> x = v ∨ x ∈ d.*2.
Proof.
  induction d as [|[k' v'] d IH]; simpl.
  - intros ?%list_elem_of_singleton. auto.
  - destruct (decide (k' = k)); simpl.
    + intros [->|?]%elem_of_cons; [auto|]. right. by right.
    + intros [->|Hx]%elem_of_cons; [right; by left|].
      destruct (IH Hx); [auto|]. right. by right.
Qed.

Lemma contains_spec k d : PyDict.contains k d = true <-> k ∈ d.*1.
Proof. unfold PyDict.contains. apply bool_decide_eq_true. Qed.



End dict.
End DictFacts.

Module PdfFacts.
Import PDFGenerator DictFacts Spec.

Lemma set_keyed p d : keyed d -> keyed (PyDict.set (name p) p d).
Proof.
  unfold keyed. induction d as [|[k v] d IH]; csimpl; [done|].
  intros [= Hk Hd]. destruct (decide (k = name p)) as [->|Hne]; csimpl.
  - by rewrite Hd.
  - by rewrite Hk, IH.
Qed.

Lemma all_loop l : ∀ d,
  keyed d ->
  let d' := foldl (λ d png_file, PyDict.set (name png_file) png_file d) d l in
  keyed d'
  ∧ (∃ fresh, d'.*1 = d.*1 ++ fresh
              ∧ fresh `sublist_of` (name <$> l)
              ∧ NoDup fresh
              ∧ (∀ n, n ∈ fresh -> n ∉ d.*1)
              ∧ (∀ n, n ∈ name <$> l -> n ∈ d.*1 ∨ n ∈ fresh))
  ∧ (∀ v, v ∈ d'.*2 -> v ∈ d.*2 ∨ v ∈ l).
Proof.
  induction l as [|p l IH]; intros d Hd; simpl.
  - split; [done|]. split; [|auto].
    exists []. rewrite app_nil_r. split_and!; try done.
    + constructor.
    + intros n H. by apply elem_of_nil in H.
    + intros n H. by apply elem_of_nil in H.
  - destruct (IH (PyDict.set (name p) p d) (set_keyed p d Hd))
      as (Hk & (fresh & Hkeys & Hsub & Hnd & Hnew & Hcov) & Hval).
    split; [done|]. split.
    + destruct (decide (name p ∈ d.*1)) as [Hin|Hin].
      * rewrite (set_keys_in _ _ _ Hin) in Hkeys, Hnew, Hcov.
        exists fresh. split_and!; try done.
        -- by apply sublist_cons.
        -- intros n [->|Hn]%elem_of_cons; auto.
      * assert ((PyDict.set (name p) p d).*1 = d.*1 ++ [name p]) as Hset
          by (by rewrite (set_fresh _ _ _ Hin), fmap_app).
        rewrite Hset in Hkeys, Hnew, Hcov.
        exists (name p :: fresh). split_and!.
        -- by rewrite Hkeys, <- app_assoc.
        -- by apply sublist_skip.
        -- constructor; [|done]. intros Hf. apply (Hnew _ Hf).
           apply elem_of_app. right. by left.
        -- intros n [->|Hn]%elem_of_cons; [done|].
           intros Hd'. apply (Hnew _ Hn). apply elem_of_app. by left.
        -- intros n [->|Hn]%elem_of_cons; [right; by left|].
           destruct (Hcov n Hn) as [[?|Hs]%elem_of_app|?].
           ++ by left.
           ++ apply list_elem_of_singleton in Hs as ->. right. by left.
           ++ right. by right.
    + intros v Hv. destruct (Hval v Hv) as [Hv'|Hv']; [|right; by right].
      apply set_values_elem in Hv' as [->|?]; [right; by left | by left].
Qed.

Lemma folder_loop l : ∀ d,
  let d' := foldl (λ d png_file,
                     if PyDict.contains (name png_file) d then d
                     else PyDict.set (name png_file) png_file d) d l in
  ∃ added, d' = d ++ ((λ p, (name p, p)) <$> added)
           ∧ added `sublist_of` l
           ∧ NoDup (name <$> added)
           ∧ (∀ p, p ∈ added -> name p ∉ d.*1)
           ∧ (∀ p, p ∈ l -> name p ∈ d.*1 ∨ name p ∈ name <$> added).
Proof.
  induction l as [|p l IH]; intros d; simpl.
  - exists []. simpl. rewrite app_nil_r. split_and!; try done.
    + constructor.
    + intros q H. by apply elem_of_nil in H.
    + intros q H. by apply elem_of_nil in H.
  - destruct (PyDict.contains (name p) d) eqn:Hc.
    + apply contains_spec in Hc.
      destruct (IH d) as (added & E & Hsub & Hnd & Hnew & Hcov).
      exists added. split_and!; try done.
      * by apply sublist_cons.
      * intros q [->|Hq]%elem_of_cons; auto.
    + assert (name p ∉ d.*1) as Hp.
      { intros H. apply contains_spec in H. congruence. }
      rewrite (set_fresh _ _ _ Hp).
      destruct (IH (d ++ [(name p, p)])) as (added & E & Hsub & Hnd & Hnew & Hcov).
      exists (p :: added). split_and!.
      * rewrite E. simpl. by rewrite <- app_assoc.
      * by apply sublist_skip.
      * simpl. constructor; [|done].
        intros (q & Hq & Hin)%list_elem_of_fmap. apply (Hnew q Hin).
        rewrite fmap_app. apply elem_of_app. right. simpl. rewrite Hq. by left.
      * intros q [->|Hq]%elem_of_cons; [done|].
        intros Hd. apply (Hnew q Hq). rewrite fmap_app. apply elem_of_app. by left.
      * intros q [->|Hq]%elem_of_cons; [right; by left|].
        destruct (Hcov q Hq) as [Hd|Hd]; [|right; by right].
        rewrite fmap_app in Hd. apply elem_of_app in Hd as [?|Hd]; [by left|].
        simpl in Hd. apply list_elem_of_singleton in Hd. right. rewrite Hd. by left.
Qed.

(** The merge: the values are a block drawn from the ALL folder, one per
    name, followed by the folder's own files whose name is not taken. *)
Lemma combine_png_files_blocks all_pngs folder_pngs :
  ∃ global_part folder_part,
    combine_png_files all_pngs folder_pngs = global_part ++ folder_part
    ∧ (name <$> global_part) `sublist_of` (name <$> all_pngs)
    ∧ NoDup (name <$> global_part)
    ∧ (∀ p, p ∈ global_part -> p ∈ all_pngs)
    ∧ (∀ p, p ∈ all_pngs -> name p ∈ name <$> global_part)
    ∧ folder_part `sublist_of` folder_pngs
    ∧ NoDup (name <$> folder_part)
    ∧ (∀ p, p ∈ folder_part -> name p ∉ name <$> all_pngs)
    ∧ (∀ p, p ∈ folder_pngs -> name p ∉ name <$> all_pngs ->
         name p ∈ name <$> folder_part).
Proof.
  unfold combine_png_files.
  destruct (all_loop all_pngs [] eq_refl)
    as (Hk & (fresh & Hkeys & Hsub & Hnd & _ & Hcov) & Hval).
  set (d1 := foldl _ [] all_pngs) in *. simpl in Hkeys.
  destruct (folder_loop folder_pngs d1) as (added & E & Hsub2 & Hnd2 & Hnew & Hcov2).
  exists d1.*2, added. unfold PyDict.values. rewrite E, fmap_app.
  assert (((λ p : Path, (name p, p)) <$> added).*2 = added) as ->.
  { rewrite <- list_fmap_compose. apply list_fmap_id. }
  unfold keyed in Hk. rewrite Hk, Hkeys.
  assert (∀ n, n ∈ name <$> all_pngs <-> n ∈ fresh) as Hnames.
  { intros n. split.
    - intros Hn. destruct (Hcov n Hn) as [H|H]; [by apply elem_of_nil in H | done].
    - intros Hn. by eapply elem_of_sublist. }
  split_and!; try done.
  - intros p Hp. destruct (Hval p Hp) as [H|H]; [by apply elem_of_nil in H | done].
  - intros p Hp. apply Hnames. by apply list_elem_of_fmap_2.
  - intros p Hp Hn. apply (Hnew p Hp). rewrite Hkeys. by apply Hnames.
  - intros p Hp Hn. destruct (Hcov2 p Hp) as [H|H].
    + rewrite Hkeys in H. by apply Hnames in H.
    + done.
Qed.
End PdfFacts.

Module SortFacts.
Import Utils Spec.

Global Instance path_le_total : Total path_le.
Proof. intros p q. unfold path_le. apply total, _. Qed.

Global Instance path_le_trans : Transitive path_le.
Proof. intros p q r. unfold path_le. apply transitivity. Qed.

Lemma StronglySorted_sublist {A} (R : relation A) k l :
  k `sublist_of` l -> StronglySorted R l -> StronglySorted R k.
Proof.
  induction 1 as [|x k l Hs IH|x k l Hs IH]; intros Hl.
  - constructor.
  - apply StronglySorted_inv in Hl as [Hl Hx]. constructor; [auto|].
    apply Forall_forall. intros y Hy. rewrite Forall_forall in Hx.
  apply Hx. by eapply elem_of_sublist.
  - apply StronglySorted_inv in Hl as [Hl _]. auto.
Qed.

Lemma StronglySorted_names l :
  StronglySorted String.le (name <$> l) -> StronglySorted path_le l.
Proof.
  induction l as [|p l IH]; csimpl; intros H; [constructor|].
  apply StronglySorted_inv in H as [Hl Hp]. constructor; [auto|].
  apply Forall_forall. intros q Hq. rewrite Forall_forall in Hp.
  apply Hp. by apply list_elem_of_fmap_2.
Qed.

Lemma StronglySorted_strict l :
  StronglySorted path_le l -> NoDup (name <$> l) -> StronglySorted name_lt l.
Proof.
  induction l as [|p l IH]; csimpl; intros H Hnd; [constructor|].
  apply StronglySorted_inv in H as [Hl Hp]. apply NoDup_cons in Hnd as [Hn Hnd].
  constructor; [auto|].
  apply Forall_forall. intros q Hq. rewrite Forall_forall in Hp.
  split; [by apply Hp|].
  intros E. apply Hn. rewrite E. by apply list_elem_of_fmap_2.
Qed.

Lemma get_png_files_sorted fs directory extensions :
  StronglySorted path_le (get_png_files fs directory extensions).
Proof.
  unfold get_png_files. destruct (dir_exists fs directory); [|constructor].
  apply StronglySorted_merge_sort; apply _.
Qed.

Lemma get_png_files_parent fs directory extensions p :
  p ∈ get_png_files fs directory extensions -> parent p = directory.
Proof.
  unfold get_png_files. destruct (dir_exists fs directory);
    [|by intros ?%elem_of_nil].
  rewrite merge_sort_Permutation. intros (ext & Hp & _)%list_elem_of_bind.
  unfold glob_suffix in Hp. by apply list_elem_of_fmap in Hp as (n & -> & _).
Qed.

Lemma path_eq p q : parent p = parent q -> name p = name q -> p = q.
Proof. destruct p, q; simpl; congruence. Qed.

End SortFacts.

Module MergeFacts.
Import PDFGenerator SortFacts PdfFacts Spec.

Lemma draw_page_fst fs p x : draw_page fs p = Some x -> x.1 = p.
Proof.
  unfold draw_page. destruct (lookup_file fs p) as [[[[dims|]| | | |] sz mt]|]; try done.
  by intros [= <-].
Qed.

Lemma pages_of_filter fs l :
  pages_of fs l = filter (λ p, is_Some (draw_page fs p)) l.
Proof.
  unfold pages_of. induction l as [|p l IH]; [done|]. csimpl.
  destruct (draw_page fs p) as [x|] eqn:E; csimpl.
  - rewrite filter_cons_True by (rewrite E; eauto).
    rewrite IH. f_equal. by eapply draw_page_fst.
  - rewrite filter_cons_False; [done|]. rewrite E. by intros [? ?].
Qed.




(** The merge of two directory listings, as blocks. *)
Lemma merged_blocks fs all_folder folder_path extensions :
  let all_pngs := Utils.get_png_files fs all_folder extensions in
  let folder_pngs := Utils.get_png_files fs folder_path extensions in
  ∃ global_part folder_part,
    combine_png_files all_pngs folder_pngs = global_part ++ folder_part
    ∧ StronglySorted name_lt global_part
    ∧ NoDup (name <$> global_part)
    ∧ (∀ p, p ∈ global_part <-> p ∈ all_pngs)
    ∧ StronglySorted name_lt folder_part
    ∧ NoDup (name <$> folder_part)
    ∧ (∀ p, p ∈ folder_part <-> p ∈ folder_pngs ∧ name p ∉ name <$> all_pngs).
Proof.
  intros all_pngs folder_pngs.
  destruct (combine_png_files_blocks all_pngs folder_pngs)
    as (g & l & E & Hsub & Hnd & Hin & Hcov & Hsub2 & Hnd2 & Hnew & Hcov2).
  exists g, l.
  pose proof (get_png_files_sorted fs all_folder extensions) as Hs1.
  pose proof (get_png_files_sorted fs folder_path extensions) as Hs2.
  fold all_pngs in Hs1. fold folder_pngs in Hs2.
  split_and!; try done.
  - apply StronglySorted_strict; [|done]. apply StronglySorted_names.
    eapply StronglySorted_sublist; [exact Hsub|].
    eapply StronglySorted_fmap; [|exact Hs1]. auto.
  - intros p. split; [apply Hin|]. intros Hp.
    pose proof (Hcov p Hp) as Hc.
    apply list_elem_of_fmap in Hc as (q & Hn & Hq).
    assert (q = p) as <-; [|done]. apply path_eq; [|done].
    apply Hin in Hq.
    rewrite (get_png_files_parent _ _ _ _ Hq). symmetry.
    by eapply get_png_files_parent.
  - apply StronglySorted_strict; [|done].
    by eapply StronglySorted_sublist.
  - intros p. split.
    + intros Hp. split; [by eapply elem_of_sublist | by apply Hnew].
    + intros [Hp Hn].
      pose proof (Hcov2 p Hp Hn) as Hc.
      apply list_elem_of_fmap in Hc as (q & Hq & Hql).
      assert (q = p) as <-; [|done]. apply path_eq; [|done].
      assert (q ∈ folder_pngs) as Hqf by (by eapply elem_of_sublist).
      rewrite (get_png_files_parent _ _ _ _ Hqf). symmetry.
      by eapply get_png_files_parent.
Qed.

End MergeFacts.

Module DocFacts.
Import PyStr.

Lemma chars_app a b : chars (a +:+ b) = chars a ++ chars b.
Proof.
  induction a as [|c a IH]; [done|].
  change (chars (String c (a +:+ b)) = c :: (chars a ++ chars b)).
  unfold chars in *. simpl. by rewrite IH.
Qed.

Lemma append_assoc a b c : (a +:+ b) +:+ c = a +:+ b +:+ c.
Proof.
  induction a as [|x a IH]; [done|].
  change (String x ((a +:+ b) +:+ c) = String x (a +:+ b +:+ c)). by rewrite IH.
Qed.

Lemma last_chars_pdf a : last (chars (a +:+ ".pdf")) = Some "f"%char.
Proof.
  rewrite chars_app. change (chars ".pdf") with ([".";"p";"d"]%char ++ ["f"%char]).
  rewrite app_assoc. apply last_snoc.
Qed.

Lemma last_chars_json a : last (chars (a +:+ ".json")) = Some "n"%char.
Proof.
  rewrite chars_app. change (chars ".json") with ([".";"j";"s";"o"]%char ++ ["n"%char]).
  rewrite app_assoc. apply last_snoc.
Qed.

(** The sidecar of a [.pdf] file is another file. *)
Lemma sidecar_differs directory a :
  with_suffix (joinpath directory (a +:+ ".pdf")) ".json"
  ≠ joinpath directory (a +:+ ".pdf").
Proof.
  unfold with_suffix, joinpath. simpl. intros [= E].
  apply (f_equal (λ s, last (chars s))) in E.
  rewrite last_chars_pdf, last_chars_json in E. discriminate.
Qed.

(** The loop over the images only writes log records. *)
Lemma page_logs_fs png_files : ∀ w,
  fs (foldl (λ w png_file, add_log (PDFGenerator.page_logs (fs w) png_file) w) w png_files)
  = fs w
  ∧ attempts (foldl (λ w png_file, add_log (PDFGenerator.page_logs (fs w) png_file) w)
                w png_files) = attempts w.
Proof.
  induction png_files as [|p l IH]; intros w; simpl; [done|].
  destruct (IH (add_log (PDFGenerator.page_logs (fs w) p) w)) as [-> ->]. done.
Qed.

(** The document [generate_pdf_for_folder] returns holds the pages drawn
    from the merged list, in its order. *)
Lemma generate_pdf_for_folder_document env self folder w pdf :
  (PDFGenerator.generate_pdf_for_folder env self folder w).1 = Some pdf ->
  ∃ document,
    lookup_file (fs (PDFGenerator.generate_pdf_for_folder env self folder w).2) pdf
    = Some document
    ∧ f_content document
      = Document
          (PDFGenerator.pages_of (fs w)
             (PDFGenerator.combine_png_files
                (Utils.get_png_files (fs w) (PDFGenerator.all_folder self)
                   (PDFGenerator.extensions self))
                (Utils.get_png_files (fs w) (subdir (PDFGenerator.input_dir self) folder)
                   (PDFGenerator.extensions self)))).
Proof.
  unfold PDFGenerator.generate_pdf_for_folder.
  destruct (ConfigManager.get_pdf_name_for_folder _ _) as [[|c pdf_name]|]; try done.
  destruct (negb (dir_exists _ _)); [done|].
  destruct (PDFGenerator.combine_png_files _ _) as [|p l] eqn:E; [done|]. rewrite <- E.
  unfold PDFGenerator._create_pdf.
  match goal with |- context [foldl ?f w ?l] =>
    destruct (page_logs_fs l w) as [Hf _]; set (w1 := foldl f w l) in * end.
  rewrite <- !append_assoc.
  destruct (canvas_save_ok env w1 _); simpl; [|done].
  intros [= <-]. unfold PDFGenerator._store_pdf_metadata.
  destruct (json_dump_ok env _ _); simpl.
  - rewrite FsFacts.lookup_write_file_ne by apply sidecar_differs.
    rewrite FsFacts.lookup_write_file. eauto.
  - rewrite FsFacts.lookup_write_file. eauto.
Qed.

End DocFacts.

Example merged_example :
  PDFGenerator.combine_png_files
    (Utils.get_png_files Examples.files "./Input/ALL" Examples.extensions)
    (Utils.get_png_files Examples.files "./Input/GroupA" Examples.extensions)
  = [joinpath "./Input/ALL" "X.png"; joinpath "./Input/ALL" "header.png";
     joinpath "./Input/GroupA" "appendix.PNG"; joinpath "./Input/GroupA" "chart.png"].
Proof. vm_compute. reflexivity. Qed.

(** The example's merged list is not one sorted list: ["header.png"] of the
    ALL block comes before ["appendix.PNG"] of the folder block. *)
Example merged_example_not_one_sort :
  ¬ Sorted Utils.path_le
      (PDFGenerator.combine_png_files
         (Utils.get_png_files Examples.files "./Input/ALL" Examples.extensions)
         (Utils.get_png_files Examples.files "./Input/GroupA" Examples.extensions)).
Proof.
  rewrite merged_example. intros H.
  apply Sorted_inv in H as [H _]. apply Sorted_inv in H as [_ H].
  apply HdRel_inv in H. vm_compute in H. done.
Qed.

(** C10.  The list [generate_pdf_for_folder] hands to [_create_pdf] is two
    blocks: first the images of the ALL folder, then the images of the folder
    whose file name is not the name of an ALL image; each block is strictly
    increasing in file name.  The pages of the document it returns are the
    images of that list that open, in the same order, so the page order is
    this two-block order, not one sort of all names. *)
Theorem merged_images_two_sorted_blocks
    (env : Env) (self : PDFGenerator.t) (folder : string) (w : World) :
  let all_pngs :=
    Utils.get_png_files (fs w) (PDFGenerator.all_folder self)
      (PDFGenerator.extensions self) in
  let folder_pngs :=
    Utils.get_png_files (fs w) (subdir (PDFGenerator.input_dir self) folder)
      (PDFGenerator.extensions self) in
  let merged := PDFGenerator.combine_png_files all_pngs folder_pngs in
  let generated := PDFGenerator.generate_pdf_for_folder env self folder w in
  (∃ global_part folder_part,
     merged = global_part ++ folder_part
     ∧ StronglySorted Spec.name_lt global_part
     ∧ (∀ p, p ∈ global_part <-> p ∈ all_pngs)
     ∧ StronglySorted Spec.name_lt folder_part
     ∧ (∀ p, p ∈ folder_part <-> p ∈ folder_pngs ∧ name p ∉ name <$> all_pngs))
  ∧ (∀ pdf, generated.1 = Some pdf ->
       ∃ document,
         lookup_file (fs generated.2) pdf = Some document
         ∧ f_content document
           = Document (filter (λ p, is_Some (PDFGenerator.draw_page (fs w) p)) merged)).
Proof.
  intros all_pngs folder_pngs merged generated. split.
  - destruct (MergeFacts.merged_blocks (fs w) (PDFGenerator.all_folder self)
                (subdir (PDFGenerator.input_dir self) folder)
                (PDFGenerator.extensions self))
      as (g & l & E & ? & ? & ? & ? & ? & ?).
    exists g, l. by split_and!.
  - intros pdf Hpdf. rewrite <- MergeFacts.pages_of_filter.
    by apply DocFacts.generate_pdf_for_folder_document.
Qed.

Lemma merged_images_two_sorted_blocks_witness :
  ∃ document,
    lookup_file (fs Examples.built_world) Examples.report_a = Some document
    ∧ f_content document
      = Document
          [joinpath "./Input/ALL" "X.png"; joinpath "./Input/ALL" "header.png";
           joinpath "./Input/GroupA" "appendix.PNG"; joinpath "./Input/GroupA" "chart.png"].
Proof.
  destruct (proj2 (merged_images_two_sorted_blocks Examples.env
                     (PDFGenerator.init Examples.config ".") "GroupA" Examples.world)
              Examples.report_a) as (document & Hfile & Hpages).
  - vm_compute. reflexivity.
  - exists document. split; [exact Hfile|]. rewrite Hpages. vm_compute. reflexivity.
Defined.



(** ** Dispatch to the recipient entries *)

Module EmailFacts.
Import EmailSender Spec.

Lemma send_single_effects env pdf md entry w :
  let '(ok, w') := _send_single_email env pdf md entry w in
  ok = transport env w pdf md entry
  ∧ attempts w' = attempts w ++ [(pdf, entry)]
  ∧ fs w' = fs w.
Proof.
  unfold _send_single_email. by destruct (transport env w pdf md entry).
Qed.

Lemma send_loop_spec env pdf md entries : ∀ count w,
  let '(count', w') := send_loop env pdf md entries count w in
  count' = (count + length (List.filter id (dispatch_results env pdf md entries w)))%nat
  ∧ attempts w' = attempts w ++ ((λ entry, (pdf, entry)) <$> entries)
  ∧ fs w' = fs w.
Proof.
  induction entries as [|entry rest IH]; intros count w; simpl.
  - rewrite app_nil_r. split; [lia | done].
  - pose proof (send_single_effects env pdf md entry w) as Hs.
    destruct (_send_single_email env pdf md entry w) as [ok w1].
    destruct Hs as (_ & Ha & Hf).
    specialize (IH (if ok then S count else count) w1).
    destruct (send_loop env pdf md rest _ w1) as [count' w'].
    destruct IH as (Hc & Ha' & Hf'). split_and!.
    + rewrite Hc. destruct ok; simpl; lia.
    + rewrite Ha', Ha, <- app_assoc. done.
    + congruence.
Qed.

Lemma dispatch_results_length env pdf md entries : ∀ w,
  length (dispatch_results env pdf md entries w) = length entries.
Proof.
  induction entries as [|entry rest IH]; intros w; simpl; [done|].
  destruct (_send_single_email env pdf md entry w) as [ok w1]. simpl. by rewrite IH.
Qed.

Lemma all_true_count (l : list bool) :
  (length (List.filter id l) =? length l)%nat = forallb id l.
Proof.
  induction l as [|b l IH]; [done|]. simpl.
  pose proof (List.filter_length_le id l) as Hle.
  destruct b; simpl; [exact IH|]. apply Nat.eqb_neq. lia.
Qed.

Lemma validate_attachment_size_effects config pdf w :
  let '(ok, w') := _validate_attachment_size config pdf w in
  fs w' = fs w ∧ attempts w' = attempts w.
Proof.
  unfold _validate_attachment_size.
  destruct (lookup_file (fs w) pdf) as [f|]; [|done].
  by destruct (st_size f >? max_bytes config)%Z.
Qed.

(** The two size checks read the same file and compare with the same bound. *)
Lemma size_checks_agree config base pdf w w' :
  fs w' = fs w ->
  (_validate_attachment_size config pdf w').1
  = (PDFGenerator.validate_pdf_size (PDFGenerator.init config base) pdf w).1.
Proof.
  intros E. unfold _validate_attachment_size, PDFGenerator.validate_pdf_size, max_bytes.
  rewrite E. simpl. destruct (lookup_file (fs w) pdf) as [f|]; [|done].
  by destruct (st_size f >? _)%Z.
Qed.

End EmailFacts.

(** C2.  [send_pdf_emails] looks up the entries whose document name is the
    one recorded in the metadata.  With no such entry it returns [False]
    without any call of [_send_single_email].  Otherwise, for a document that
    has passed the size validation of the pipeline ([validate_pdf_size], the
    step before dispatch), it calls [_send_single_email] once per entry, in
    order, whatever the earlier calls returned, and returns [True] exactly
    when every call returned [True]. *)
Theorem send_pdf_emails_every_entry
    (env : Env) (config : ConfigManager.t) (base_path : string)
    (pdf : Path) (md : PdfMetadata) (w : World) :
  let pdf_name := default (stem pdf) (md_pdf_name md) in
  let entries := ConfigManager.get_mailing_entries_for_pdf config pdf_name in
  let result := EmailSender.send_pdf_emails env config pdf md w in
  (entries = [] -> result.1 = false ∧ attempts result.2 = attempts w)
  ∧ (entries ≠ [] ->
     (PDFGenerator.validate_pdf_size (PDFGenerator.init config base_path) pdf w).1 = true ->
     attempts result.2 = attempts w ++ ((λ entry, (pdf, entry)) <$> entries)
     ∧ ∃ start results,
         fs start = fs w ∧ attempts start = attempts w
         ∧ results = Spec.dispatch_results env pdf md entries start
         ∧ length results = length entries
         ∧ result.1 = forallb id results).
Proof.
  intros pdf_name entries result. subst result. unfold EmailSender.send_pdf_emails.
  fold pdf_name. fold entries. split.
  - intros ->. done.
  - intros Hne Hsize.
    rewrite <- (EmailFacts.size_checks_agree config base_path pdf w w eq_refl) in Hsize.
    destruct entries as [|entry rest] eqn:E; [done|]. rewrite <- E.
    pose proof (EmailFacts.validate_attachment_size_effects config pdf w) as Hv.
    destruct (EmailSender._validate_attachment_size config pdf w) as [ok w1].
    simpl in Hsize. subst ok. destruct Hv as [Hf1 Ha1]. simpl.
    set (start := log_email_operation ("Sending PDF '" +:+ pdf_name +:+ "'") w1).
    pose proof (EmailFacts.send_loop_spec env pdf md entries 0 start) as Hl.
    destruct (EmailSender.send_loop env pdf md entries 0 start) as [count w2].
    destruct Hl as (Hc & Ha2 & _). simpl in Ha2, Hc.
    pose proof (EmailFacts.dispatch_results_length env pdf md entries start) as Hlen.
    assert ((count =? length entries)%nat
            = forallb id (Spec.dispatch_results env pdf md entries start)) as Hall.
    { rewrite Hc, <- Hlen. apply EmailFacts.all_true_count. }
    split.
    + destruct (count =? length entries)%nat; simpl; by rewrite Ha2, Ha1.
    + exists start, (Spec.dispatch_results env pdf md entries start).
      split_and!; try done.
      rewrite <- Hall. by destruct (count =? length entries)%nat.
Qed.

Lemma send_pdf_emails_every_entry_witness :
  (EmailSender.send_pdf_emails Examples.env Examples.config Examples.report_a
     Examples.unlisted_metadata Examples.built_world).1 = false
  ∧ attempts (EmailSender.send_pdf_emails Examples.env Examples.config Examples.report_a
                Examples.report_a_metadata Examples.built_world).2
    = [(Examples.report_a, Examples.entry_a1); (Examples.report_a, Examples.entry_a2)].
Proof.
  split.
  - apply (proj1 (send_pdf_emails_every_entry Examples.env Examples.config "."
                    Examples.report_a Examples.unlisted_metadata Examples.built_world)).
    vm_compute. reflexivity.
  - apply (proj2 (send_pdf_emails_every_entry Examples.env Examples.config "."
                    Examples.report_a Examples.report_a_metadata Examples.built_world)).
    + vm_compute. discriminate.
    + vm_compute. reflexivity.
Defined.

(** ** The per-folder pipeline *)

Module MainFacts.
Import Main.

(** Unfolds the orchestrator down to the calls of the component methods and
    splits on the outcome of each call. *)
Ltac unfold_body :=
  unfold _process_single_folder, process_body, dispatch_and_archive,
    bind, call, tell, update, modify, gets, pass, ret.

Ltac split_calls self :=
  repeat (simpl;
    match goal with
    | |- context [generate_pdf_for_folder self ?f ?w] =>
        destruct (generate_pdf_for_folder self f w) as [[[?|]|?] ?]
    | |- context [validate_pdf_size self ?p ?w] =>
        destruct (validate_pdf_size self p w) as [[[|]|?] ?]
    | |- context [get_pdf_metadata self ?p ?w] =>
        destruct (get_pdf_metadata self p w) as [[[?|]|?] ?]
    | |- context [send_pdf_emails self ?p ?m ?w] =>
        destruct (send_pdf_emails self p m w) as [[[|]|?] ?]
    | |- context [archive_sent_pdf self ?p ?w] =>
        destruct (archive_sent_pdf self p w) as [[[|]|?] ?]
    | |- context [archive_processed_pngs self ?f ?w] =>
        destruct (archive_processed_pngs self f w) as [[[|]|?] ?]
    end).

Section generic.
Context {W : Type} (self : Components W).


Lemma archived_implies_sent folder w :
  files_archived (_process_single_folder self folder w).1 = true ->
  emails_sent (_process_single_folder self folder w).1 = true.
Proof. unfold_body. split_calls self; simpl; done. Qed.

Lemma not_sent_not_archived folder w :
  emails_sent (_process_single_folder self folder w).1 = false ->
  files_archived (_process_single_folder self folder w).1 = false.
Proof.
  intros H. destruct (files_archived _) eqn:E; [|done].
  apply archived_implies_sent in E. congruence.
Qed.


Lemma generation_failed folder w w1 :
  generate_pdf_for_folder self folder
    (log self (LogRecord summary_logger INFO (Text ("Processing folder: " +:+ folder))) w)
  = (Ret None, w1) ->
  _process_single_folder self folder w
  = (set_error "PDF generation failed" (initial_result self folder w), w1).
Proof. unfold_body. simpl. by intros ->. Qed.

(** Whatever the logger and the three middle stages leave untouched is, after
    a folder whose dispatch did not succeed, as the build stage left it: the
    archiving methods, about which nothing is assumed, were not called. *)
Lemma failed_dispatch_view {V} (view : W -> V) :
  (∀ r w, view (log self r w) = view w) ->
  (∀ p w, view (validate_pdf_size self p w).2 = view w) ->
  (∀ p w, view (get_pdf_metadata self p w).2 = view w) ->
  (∀ p m w, view (send_pdf_emails self p m w).2 = view w) ->
  ∀ folder w,
    emails_sent (_process_single_folder self folder w).1 = false ->
    view (_process_single_folder self folder w).2
    = view (generate_pdf_for_folder self folder
              (log self (LogRecord summary_logger INFO
                           (Text ("Processing folder: " +:+ folder))) w)).2.
Proof.
  intros Hlog Hval Hmeta Hsend folder w. unfold_body.
  repeat (simpl;
    match goal with
    | |- context [generate_pdf_for_folder self ?f ?w] =>
        destruct (generate_pdf_for_folder self f w) as [[[?|]|?] ?]
    | |- context [validate_pdf_size self ?p ?w] =>
        pose proof (Hval p w);
        destruct (validate_pdf_size self p w) as [[[|]|?] ?]
    | |- context [get_pdf_metadata self ?p ?w] =>
        pose proof (Hmeta p w);
        destruct (get_pdf_metadata self p w) as [[[?|]|?] ?]
    | |- context [send_pdf_emails self ?p ?m ?w] =>
        pose proof (Hsend p m w);
        destruct (send_pdf_emails self p m w) as [[[|]|?] ?]
    | |- context [archive_sent_pdf self ?p ?w] =>
        destruct (archive_sent_pdf self p w) as [[[|]|?] ?]
    | |- context [archive_processed_pngs self ?f ?w] =>
        destruct (archive_processed_pngs self f w) as [[[|]|?] ?]
    end);
    simpl in *; intros; try discriminate; rewrite ?Hlog in *; congruence.
Qed.

End generic.
End MainFacts.

Module PipelineFacts.

Lemma lookup_write_file_parent fs p q f :
  parent q ≠ parent p -> lookup_file (write_file fs p f) q = lookup_file fs q.
Proof.
  intros Hne. unfold lookup_file, write_file. by rewrite lookup_insert_ne.
Qed.

Lemma validate_pdf_size_effects self pdf w :
  fs (PDFGenerator.validate_pdf_size self pdf w).2 = fs w
  ∧ attempts (PDFGenerator.validate_pdf_size self pdf w).2 = attempts w.
Proof.
  unfold PDFGenerator.validate_pdf_size.
  destruct (lookup_file (fs w) pdf) as [f|]; [|done].
  by destruct (st_size f >? _)%Z.
Qed.

Lemma get_pdf_metadata_effects pdf w :
  fs (PDFGenerator.get_pdf_metadata pdf w).2 = fs w
  ∧ attempts (PDFGenerator.get_pdf_metadata pdf w).2 = attempts w.
Proof.
  unfold PDFGenerator.get_pdf_metadata.
  destruct (lookup_file (fs w) _) as [[[] ? ?]|]; done.
Qed.

Lemma send_pdf_emails_fs env config pdf md w :
  fs (EmailSender.send_pdf_emails env config pdf md w).2 = fs w.
Proof.
  unfold EmailSender.send_pdf_emails.
  destruct (ConfigManager.get_mailing_entries_for_pdf config _) as [|entry rest] eqn:E;
    [done|]. rewrite <- E.
  pose proof (EmailFacts.validate_attachment_size_effects config pdf w) as Hv.
  destruct (EmailSender._validate_attachment_size config pdf w) as [[|] w1];
    destruct Hv as [Hf _]; [|done]. simpl.
  match goal with |- context [EmailSender.send_loop env pdf md ?es 0 ?w0] =>
    pose proof (EmailFacts.send_loop_spec env pdf md es 0 w0) as Hl;
    destruct (EmailSender.send_loop env pdf md es 0 w0) as [count w2] end.
  destruct Hl as (_ & _ & Hf2). simpl in Hf2.
  destruct (count =? _)%nat; simpl; congruence.
Qed.

(** The build stage writes into the output directory only. *)
Lemma generate_pdf_for_folder_effects env self folder w q :
  parent q ≠ PDFGenerator.output_dir self ->
  lookup_file (fs (PDFGenerator.generate_pdf_for_folder env self folder w).2) q
  = lookup_file (fs w) q
  ∧ attempts (PDFGenerator.generate_pdf_for_folder env self folder w).2 = attempts w.
Proof.
  intros Hq. unfold PDFGenerator.generate_pdf_for_folder.
  destruct (ConfigManager.get_pdf_name_for_folder _ _) as [[|c pdf_name]|]; try done.
  destruct (negb (dir_exists _ _)); [done|].
  destruct (PDFGenerator.combine_png_files _ _) as [|p l] eqn:E; [done|]. rewrite <- E.
  unfold PDFGenerator._create_pdf.
  match goal with |- context [foldl ?f w ?l] =>
    destruct (DocFacts.page_logs_fs l w) as [Hf Ha]; set (w1 := foldl f w l) in * end.
  destruct (canvas_save_ok env w1 _); simpl; [|by rewrite Hf, Ha].
  unfold PDFGenerator._store_pdf_metadata.
  destruct (json_dump_ok env _ _); simpl.
  - rewrite !lookup_write_file_parent by done. by rewrite Hf, Ha.
  - rewrite !lookup_write_file_parent by done. by rewrite Hf, Ha.
Qed.

(** With nothing to draw, the build stage returns [None] and only logs. *)
Lemma generate_pdf_for_folder_empty env self folder w :
  PDFGenerator.combine_png_files
    (Utils.get_png_files (fs w) (PDFGenerator.all_folder self) (PDFGenerator.extensions self))
    (Utils.get_png_files (fs w) (subdir (PDFGenerator.input_dir self) folder)
       (PDFGenerator.extensions self)) = [] ->
  (PDFGenerator.generate_pdf_for_folder env self folder w).1 = None
  ∧ fs (PDFGenerator.generate_pdf_for_folder env self folder w).2 = fs w
  ∧ attempts (PDFGenerator.generate_pdf_for_folder env self folder w).2 = attempts w.
Proof.
  intros E. unfold PDFGenerator.generate_pdf_for_folder.
  destruct (ConfigManager.get_pdf_name_for_folder _ _) as [[|c pdf_name]|]; try done.
  destruct (negb (dir_exists _ _)); [done|].
  match goal with |- context [PDFGenerator.combine_png_files ?a ?b] =>
    replace (PDFGenerator.combine_png_files a b) with (@nil Path) end.
  done.
Qed.

Lemma total_snd {A} (f : World -> A * World) w : (Main.total f w).2 = (f w).2.
Proof. unfold Main.total. by destruct (f w). Qed.

Lemma total_eq {A} (f : World -> A * World) w : Main.total f w = (Ret (f w).1, (f w).2).
Proof. unfold Main.total. by destruct (f w). Qed.

End PipelineFacts.

Example partial_dispatch_run :
  let result := Main._process_single_folder (Examples.orchestrator Examples.config)
                  "GroupA" Examples.world in
  Main.pdf_created result.1 = true ∧ Main.emails_sent result.1 = false
  ∧ Main.files_archived result.1 = false
  ∧ attempts result.2
    = [(joinpath "./Output/PDFs" "Report-A_2024-05-01_06-00-00.pdf", Examples.entry_a1);
       (joinpath "./Output/PDFs" "Report-A_2024-05-01_06-00-00.pdf", Examples.entry_a2)].
Proof. vm_compute. auto. Qed.

(** C1.  A folder is archived only if its dispatch succeeded.  When
    [emails_sent] is false the archived flag is false and the file system is
    exactly as the build stage left it: the rendered document is where it was
    written, and every file outside the output directory, the source images
    among them, is as it was before the folder was processed. *)
Theorem archiving_only_after_full_dispatch
    (env : Env) (base_path : string)
    (generate_summary : list (string * Main.FolderResult) -> M World string)
    (send_notification : string -> string -> bool -> M World bool)
    (sweep_archives : M World unit) (sweep_pdfs : Z -> M World unit)
    (config : ConfigManager.t) (folder : string) (w : World) :
  let self := Main.components env base_path generate_summary send_notification
                sweep_archives sweep_pdfs config in
  let result := Main._process_single_folder self folder w in
  let built :=
    PDFGenerator.generate_pdf_for_folder env (PDFGenerator.init config base_path) folder
      (log_summary ("Processing folder: " +:+ folder) w) in
  (Main.files_archived result.1 = true -> Main.emails_sent result.1 = true)
  ∧ (Main.emails_sent result.1 = false ->
     Main.files_archived result.1 = false
     ∧ fs result.2 = fs built.2
     ∧ ∀ p, parent p ≠ subdir base_path "Output/PDFs" ->
            lookup_file (fs result.2) p = lookup_file (fs w) p).
Proof.
  intros self result built. split; [apply MainFacts.archived_implies_sent|].
  intros Hsent.
  assert (fs result.2 = fs built.2) as Hfs.
  { subst result built.
    rewrite (MainFacts.failed_dispatch_view self fs); try done.
    - simpl. by rewrite PipelineFacts.total_snd.
    - intros p w0. simpl. rewrite PipelineFacts.total_snd.
      apply PipelineFacts.validate_pdf_size_effects.
    - intros p w0. simpl. rewrite PipelineFacts.total_snd.
      apply PipelineFacts.get_pdf_metadata_effects.
    - intros p m w0. simpl. rewrite PipelineFacts.total_snd.
      apply PipelineFacts.send_pdf_emails_fs. }
  split_and!; [by apply MainFacts.not_sent_not_archived | done |].
  intros p Hp. rewrite Hfs. subst built.
  by destruct (PipelineFacts.generate_pdf_for_folder_effects env
                 (PDFGenerator.init config base_path) folder
                 (log_summary ("Processing folder: " +:+ folder) w) p Hp) as [-> _].
Qed.

Lemma archiving_only_after_full_dispatch_witness :
  let result := Main._process_single_folder (Examples.orchestrator Examples.config)
                  "GroupA" Examples.world in
  Main.files_archived result.1 = false
  ∧ lookup_file (fs result.2) (joinpath "./Input/GroupA" "chart.png")
    = Some (Examples.image 640 480)
  ∧ is_Some (lookup_file (fs result.2) Examples.report_a).
Proof.
  destruct (archiving_only_after_full_dispatch Examples.env "."
              (λ _, ret "summary") (λ _ _ _, ret true) pass (λ _, pass)
              Examples.config "GroupA" Examples.world) as [_ H].
  destruct H as (H1 & H2 & H3); [vm_compute; reflexivity|].
  split; [exact H1|]. split.
  - etrans; [apply H3; vm_compute; discriminate|]. vm_compute. reflexivity.
  - unfold Examples.orchestrator. rewrite H2. vm_compute. eauto.
Defined.

(** C5, the claim as stated fails: a folder with no image at all ends with
    [pdf_created] false and the error field set. *)
Lemma empty_image_set_records_error :
  let result := Main._process_single_folder (Examples.orchestrator Examples.config)
                  "GroupA" Examples.empty_folder_world in
  PDFGenerator.combine_png_files
    (Utils.get_png_files (fs Examples.empty_folder_world) "./Input/ALL" Examples.extensions)
    (Utils.get_png_files (fs Examples.empty_folder_world) "./Input/GroupA" Examples.extensions)
  = []
  ∧ Main.pdf_created result.1 = false
  ∧ Main.error result.1 = Some "PDF generation failed"
  ∧ Main.error result.1 ≠ None.
Proof. vm_compute. repeat split; done. Qed.

(** C5, amended.  When the combined image set of a folder is empty the
    pipeline stops after the build stage with [pdf_created] false and the
    error field set to ["PDF generation failed"], the value it also has when
    the build itself fails; nothing is dispatched and no file is touched. *)
Theorem empty_image_set_short_circuits
    (env : Env) (base_path : string)
    (generate_summary : list (string * Main.FolderResult) -> M World string)
    (send_notification : string -> string -> bool -> M World bool)
    (sweep_archives : M World unit) (sweep_pdfs : Z -> M World unit)
    (config : ConfigManager.t) (folder : string) (w : World) :
  let self := Main.components env base_path generate_summary send_notification
                sweep_archives sweep_pdfs config in
  let generator := PDFGenerator.init config base_path in
  let result := Main._process_single_folder self folder w in
  PDFGenerator.combine_png_files
    (Utils.get_png_files (fs w) (PDFGenerator.all_folder generator)
       (PDFGenerator.extensions generator))
    (Utils.get_png_files (fs w) (subdir (PDFGenerator.input_dir generator) folder)
       (PDFGenerator.extensions generator)) = [] ->
  Main.pdf_created result.1 = false
  ∧ Main.error result.1 = Some "PDF generation failed"
  ∧ Main.emails_sent result.1 = false
  ∧ Main.files_archived result.1 = false
  ∧ Main.pdf_path result.1 = None
  ∧ fs result.2 = fs w
  ∧ attempts result.2 = attempts w.
Proof.
  intros self generator result Hempty.
  pose proof (PipelineFacts.generate_pdf_for_folder_empty env generator folder
                (log_summary ("Processing folder: " +:+ folder) w) Hempty)
    as (Hnone & Hfs & Hatt).
  subst result.
  rewrite (MainFacts.generation_failed self folder w
             (PDFGenerator.generate_pdf_for_folder env generator folder
                (log_summary ("Processing folder: " +:+ folder) w)).2).
  - simpl. by rewrite Hfs, Hatt.
  - simpl. rewrite PipelineFacts.total_eq. apply pair_equal_spec.
    split; [f_equal; exact Hnone | reflexivity].
Qed.

Lemma empty_image_set_short_circuits_witness :
  let result := Main._process_single_folder (Examples.orchestrator Examples.config)
                  "GroupA" Examples.empty_folder_world in
  Main.pdf_created result.1 = false
  ∧ Main.error result.1 = Some "PDF generation failed".
Proof.
  destruct (empty_image_set_short_circuits Examples.env "."
              (λ _, ret "summary") (λ _ _ _, ret true) pass (λ _, pass)
              Examples.config "GroupA" Examples.empty_folder_world) as (H1 & H2 & _).
  - vm_compute. reflexivity.
  - split; [exact H1 | exact H2].
Defined.

(** ** The run over all folders *)

Module RunFacts.
Import Main MainFacts DictFacts.

Section generic.
Context {W : Type} (self : Components W).




End generic.


End RunFacts.

(** With the faulty size validation the folder GroupA ends with the
    exception in its error field, and GroupB is still built, sent and
    archived. *)
Example faulty_run :
  ∃ a b w',
    Main.run_full_processing Examples.faulty_orchestrator Examples.world_two_folders
    = (Ret [("GroupA", a); ("GroupB", b)], w')
    ∧ Main.error a = Some "Processing exception: stat failed"
    ∧ Main.emails_sent a = false
    ∧ Main.error b = None
    ∧ Main.emails_sent b = true ∧ Main.files_archived b = true.
Proof. vm_compute. eexists _, _, _. split; [reflexivity|]. auto. Qed.



(** * Further properties of the scripts *)

(** ** More on [utils.py]: addresses, recipient lists, file names *)

Module AddressFacts.

Import PyStr Re ReFacts Utils Spec UtilsFacts.

Lemma chars_inj s t : chars s = chars t -> s = t.
Proof. intros H. by rewrite <- (str_chars s), H, str_chars. Qed.

Lemma chars_append a b : chars (a +:+ b) = chars a ++ chars b.
Proof. induction a as [|c a IH]; simpl; [done|]. by f_equal. Qed.

Lemma validate_email_fullmatch s :
  fullmatch email_pattern (chars s) = true <-> address_shape s.
Proof. by rewrite fullmatch_lang, email_pattern_lang. Qed.

Lemma address_shape_valid s : address_shape s -> validate_email s = true.
Proof.
  intros H. unfold validate_email, match_anchored.
  apply validate_email_fullmatch in H. by rewrite H.
Qed.

(** No character of an address is white space or a semicolon. *)
Lemma address_char c :
  local_char c || domain_char c || is_alpha c || Ascii.eqb c "@" || Ascii.eqb c "." = true ->
  isspace c || Ascii.eqb c ";" = false.
Proof. destruct c as [[] [] [] [] [] [] [] []]; vm_compute; congruence. Qed.

Lemma address_chars s :
  address_shape s ->
  Forall (λ c, isspace c = false ∧ Ascii.eqb c ";" = false) (chars s).
Proof.
  assert (∀ c, isspace c || Ascii.eqb c ";" = false ->
               isspace c = false ∧ Ascii.eqb c ";" = false) as Hsplit.
  { intros c H. by apply orb_false_iff in H. }
  intros (lp & dom & tld & -> & _ & Hlp & _ & Hdom & _ & Htld).
  apply Forall_app; split; [|apply Forall_cons; split; [by apply Hsplit|]].
  2: apply Forall_app; split; [|apply Forall_cons; split; [by apply Hsplit|]].
  - eapply Forall_impl; [exact Hlp|]. intros c Hc. apply Hsplit, address_char.
    simpl in Hc. by rewrite Hc.
  - eapply Forall_impl; [exact Hdom|]. intros c Hc. apply Hsplit, address_char.
    simpl in Hc. rewrite Hc. by rewrite orb_true_r.
  - eapply Forall_impl; [exact Htld|]. intros c Hc. apply Hsplit, address_char.
    simpl in Hc. rewrite Hc. by rewrite !orb_true_r.
Qed.

Lemma lstrip_fixed l :
  match l with [] => True | c :: _ => isspace c = false end -> lstrip_chars l = l.
Proof. destruct l as [|c l]; simpl; [done|]. by intros ->. Qed.

Lemma lstrip_split l :
  ∃ s, l = s ++ lstrip_chars l ∧ Forall (λ c, isspace c = true) s.
Proof.
  induction l as [|c l (s & E & Hs)]; simpl; [by exists []|].
  destruct (isspace c) eqn:Hc.
  - exists (c :: s). split; [simpl; by f_equal | by constructor].
  - by exists [].
Qed.

Lemma lstrip_lstrip l : lstrip_chars (lstrip_chars l) = lstrip_chars l.
Proof.
  apply lstrip_fixed. destruct (lstrip_chars l) as [|c t] eqn:E; [done|].
  by eapply lstrip_head.
Qed.

(** A stripped string starts and ends with a character that is not white
    space, so stripping it again changes nothing. *)
Lemma strip_chars_trimmed l :
  lstrip_chars (strip_chars l) = strip_chars l
  ∧ lstrip_chars (rev (strip_chars l)) = rev (strip_chars l).
Proof.
  unfold strip_chars, rstrip_chars. set (m := lstrip_chars l).
  split.
  - apply lstrip_fixed.
    destruct (lstrip_split (rev m)) as (s & E & Hs).
    destruct (rev (lstrip_chars (rev m))) as [|c t] eqn:Er; [done|].
    apply (f_equal (@rev ascii)) in E. rewrite rev_involutive, rev_app_distr, Er in E.
    simpl in E. subst m. by eapply lstrip_head.
  - rewrite rev_involutive. apply lstrip_lstrip.
Qed.

Lemma strip_chars_strip_chars l : strip_chars (strip_chars l) = strip_chars l.
Proof.
  destruct (strip_chars_trimmed l) as [H1 H2].
  unfold strip_chars at 1. unfold rstrip_chars. by rewrite H1, H2, rev_involutive.
Qed.

Lemma strip_chars_no_space l :
  Forall (λ c, isspace c = false) l -> strip_chars l = l.
Proof.
  intros H. unfold strip_chars, rstrip_chars.
  rewrite (lstrip_fixed l) by (destruct H; done).
  rewrite lstrip_fixed, rev_involutive; [done|].
  apply Forall_rev in H. by destruct H.
Qed.

Lemma split_chars_no_sep sep a :
  Forall (λ c, Ascii.eqb c sep = false) a -> split_chars sep a = [a].
Proof.
  induction 1 as [|c a Hc _ IH]; simpl; [done|]. by rewrite Hc, IH.
Qed.

Lemma split_chars_app sep a rest :
  Forall (λ c, Ascii.eqb c sep = false) a ->
  split_chars sep (a ++ sep :: rest) = a :: split_chars sep rest.
Proof.
  induction 1 as [|c a Hc _ IH]; simpl.
  - by rewrite Ascii.eqb_refl.
  - by rewrite Hc, IH.
Qed.

Lemma split_chars_concat sep l :
  l ≠ [] ->
  Forall (λ s, Forall (λ c, Ascii.eqb c sep = false) (chars s)) l ->
  split_chars sep (chars (String.concat (String sep "") l)) = map chars l.
Proof.
  intros Hne H. induction H as [|s l Hs Hl IH]; [done|].
  destruct l as [|s' l].
  - simpl. by rewrite split_chars_no_sep.
  - change (String.concat (String sep "") (s :: s' :: l))
      with (s +:+ String sep "" +:+ String.concat (String sep "") (s' :: l)).
    rewrite !chars_append. simpl. rewrite split_chars_app by done.
    simpl. f_equal. by apply IH.
Qed.

Lemma filter_all {A} (f : A -> bool) l :
  Forall (λ x, f x = true) l -> List.filter f l = l.
Proof. induction 1 as [|x l Hx _ IH]; simpl; [done|]. by rewrite Hx, IH. Qed.

Lemma map_id_on {A} (f : A -> A) l : Forall (λ x, f x = x) l -> map f l = l.
Proof. induction 1 as [|x l Hx _ IH]; simpl; [done|]. by rewrite Hx, IH. Qed.

Lemma strip_address s : address_shape s -> strip s = s.
Proof.
  intros H. unfold strip. rewrite strip_chars_no_space; [apply str_chars|].
  eapply Forall_impl; [by apply address_chars|]. by intros c [? _].
Qed.

End AddressFacts.

(** X1.  [validate_email] accepts exactly the strings of the shape
    local-part ["@"] domain ["."] alphabetic suffix of length at least two,
    and those strings followed by one newline: the pattern ends in [$],
    which also matches just before a final newline. *)
Theorem validate_email_shape_or_trailing_newline (s : string) :
  Utils.validate_email s = true
  <-> Spec.address_shape s
      ∨ ∃ t, s = t +:+ Main.newline ∧ Spec.address_shape t.
Proof.
  unfold Utils.validate_email, Re.match_anchored.
  rewrite orb_true_iff, AddressFacts.validate_email_fullmatch.
  apply or_iff_compat_l.
  destruct (rev (PyStr.chars s)) as [|c l'] eqn:E.
  - split; [done|]. intros (t & -> & _).
    rewrite AddressFacts.chars_append, rev_app_distr in E. discriminate.
  - apply (f_equal (@rev ascii)) in E. rewrite rev_involutive in E. simpl in E.
    rewrite andb_true_iff, Ascii.eqb_eq. split.
    + intros [-> H]. exists (PyStr.str (rev l')). split.
      * apply AddressFacts.chars_inj.
        by rewrite AddressFacts.chars_append, UtilsFacts.chars_str.
      * apply AddressFacts.validate_email_fullmatch.
        by rewrite UtilsFacts.chars_str.
    + intros (t & -> & H).
      rewrite AddressFacts.chars_append in E.
      change (PyStr.chars Main.newline) with ["010"%char] in E.
      apply app_inj_tail in E as [<- <-]. split; [done|].
      by apply AddressFacts.validate_email_fullmatch.
Qed.

(** X2.  Round trip with [';'.join]: a non-empty list of well-formed
    addresses joined with semicolons is split back into the same list, in
    the same order, and nothing is logged. *)
Theorem split_email_list_join (l : list string) :
  l ≠ [] ->
  Forall Spec.address_shape l ->
  Utils.split_email_list (Utils.PyString (String.concat ";" l)) = (l, []).
Proof.
  intros Hne Hl. unfold Utils.split_email_list.
  assert (Utils.blank_or_nan (String.concat ";" l) = false) as ->.
  { apply not_true_iff_false. intros H.
    apply UtilsFacts.blank_or_nan_without_at in H. apply H.
    destruct Hl as [|s l Hs _]; [done|].
    apply UtilsFacts.address_shape_has_at in Hs.
    destruct l as [|s' l]; [done|].
    change (String.concat ";" (s :: s' :: l))
      with (s +:+ ";" +:+ String.concat ";" (s' :: l)).
    rewrite AddressFacts.chars_append. apply elem_of_app. by left. }
  assert (map PyStr.strip (PyStr.split ";" (String.concat ";" l)) = l) as ->.
  { unfold PyStr.split. rewrite AddressFacts.split_chars_concat; [|done|].
    - rewrite !map_map. apply AddressFacts.map_id_on.
      eapply Forall_impl; [exact Hl|]. intros s Hs. simpl.
      rewrite UtilsFacts.str_chars. by apply AddressFacts.strip_address.
    - eapply Forall_impl; [exact Hl|]. intros s Hs.
      eapply Forall_impl; [by apply AddressFacts.address_chars|]. by intros c [_ ?]. }
  rewrite AddressFacts.filter_all.
  - by rewrite Nat.eqb_refl.
  - eapply Forall_impl; [exact Hl|]. apply AddressFacts.address_shape_valid.
Qed.

Lemma split_email_list_join_witness :
  Utils.split_email_list (Utils.PyString "a@test.com;b.c@mail.example.org")
  = (["a@test.com"; "b.c@mail.example.org"], []).
Proof.
  apply (split_email_list_join ["a@test.com"; "b.c@mail.example.org"]); [done|].
  repeat constructor.
  - exists (PyStr.chars "a"), (PyStr.chars "test"), (PyStr.chars "com").
    vm_compute. repeat split; try done; try lia; repeat constructor.
  - exists (PyStr.chars "b.c"), (PyStr.chars "mail.example"), (PyStr.chars "org").
    vm_compute. repeat split; try done; try lia; repeat constructor.
Defined.

(** ** More on the file system operations *)

Module FsMoreFacts.

Import Utils.

Lemma listdir_elem fs d n :
  n ∈ listdir fs d <-> is_Some (lookup_file fs (joinpath d n)).
Proof.
  unfold listdir, lookup_file. simpl.
  destruct (fs !! d) as [entries|]; simpl.
  - rewrite list_elem_of_fmap. split.
    + intros ([k f] & -> & H). apply elem_of_map_to_list in H. by exists f.
    + intros [f H]. exists (n, f). split; [done|]. by apply elem_of_map_to_list.
  - split; [by intros ?%elem_of_nil | by intros [? ?]].
Qed.

Lemma listdir_NoDup fs d : NoDup (listdir fs d).
Proof.
  unfold listdir. destruct (fs !! d); [apply NoDup_fst_map_to_list | constructor].
Qed.

Lemma file_exists_true fs p : file_exists fs p = true <-> is_Some (lookup_file fs p).
Proof. unfold file_exists. apply bool_decide_eq_true. Qed.

Lemma glob_suffix_elem fs d ext p :
  p ∈ glob_suffix fs d ext
  <-> parent p = d ∧ is_Some (lookup_file fs p) ∧ PyStr.endswith (name p) ext = true.
Proof.
  unfold glob_suffix. rewrite list_elem_of_fmap. split.
  - intros (n & -> & Hn). apply list_elem_of_In, filter_In in Hn as [Hn He].
    apply list_elem_of_In, listdir_elem in Hn. done.
  - intros (<- & Hp & He). exists (name p). split; [by destruct p|].
    apply list_elem_of_In, filter_In. split; [|done].
    apply list_elem_of_In, listdir_elem. by destruct p.
Qed.

Lemma glob_suffix_NoDup fs d ext : NoDup (glob_suffix fs d ext).
Proof.
  unfold glob_suffix. apply NoDup_fmap_2.
  - intros n m [= ->]. done.
  - apply NoDup_ListNoDup, List.NoDup_filter, NoDup_ListNoDup, listdir_NoDup.
Qed.

Lemma lookup_dir_exists fs p : is_Some (lookup_file fs p) -> dir_exists fs (parent p) = true.
Proof.
  unfold lookup_file, dir_exists. intros [f H]. apply bool_decide_eq_true.
  destruct (fs !! parent p); [by eexists | done].
Qed.

Lemma lookup_unlink_ne fs p q :
  p ≠ q -> lookup_file (unlink fs p) q = lookup_file fs q.
Proof.
  intros Hne. unfold lookup_file, unlink.
  destruct (fs !! parent p) as [entries|] eqn:E; [|done].
  destruct (decide (parent p = parent q)) as [Ep|Ep].
  - rewrite <- Ep, lookup_insert_eq, E. simpl.
    apply lookup_delete_ne. intros En. apply Hne. by apply SortFacts.path_eq.
  - by rewrite lookup_insert_ne.
Qed.

Lemma lookup_unlink_Some fs p q f :
  lookup_file (unlink fs p) q = Some f -> lookup_file fs q = Some f.
Proof.
  destruct (decide (p = q)) as [->|Hne].
  - by rewrite FsFacts.lookup_unlink.
  - by rewrite lookup_unlink_ne.
Qed.

Lemma lookup_makedirs fs d q : lookup_file (makedirs fs d) q = lookup_file fs q.
Proof.
  unfold lookup_file, makedirs. destruct (fs !! d) as [entries|] eqn:E; [done|].
  destruct (decide (d = parent q)) as [<-|Hne].
  - by rewrite lookup_insert_eq, E.
  - by rewrite lookup_insert_ne.
Qed.

Lemma lookup_write_file_dir fs p q f :
  parent p ≠ parent q -> lookup_file (write_file fs p f) q = lookup_file fs q.
Proof. intros H. apply FsFacts.lookup_write_file_ne. congruence. Qed.

Lemma get_png_files_elem fs directory extensions p :
  p ∈ get_png_files fs directory extensions
  <-> parent p = directory
      ∧ is_Some (lookup_file fs p)
      ∧ ∃ ext, ext ∈ extensions ∧ PyStr.endswith (name p) ext = true.
Proof.
  unfold get_png_files. destruct (dir_exists fs directory) eqn:Hd.
  - rewrite merge_sort_Permutation, list_elem_of_bind. split.
    + intros (ext & Hp & Hext). apply glob_suffix_elem in Hp.
      destruct Hp as (? & ? & ?). eauto.
    + intros (? & ? & ext & ? & ?). exists ext. split; [|done].
      by apply glob_suffix_elem.
  - split; [by intros ?%elem_of_nil|]. intros (<- & Hp & _).
    apply lookup_dir_exists in Hp. congruence.
Qed.

End FsMoreFacts.


(** ** [clean_filename] *)

Module CleanFacts.

Import PyStr PDFGenerator UtilsFacts.

Local Abbreviation replaced :=
  (λ c : ascii, if existsb (Ascii.eqb c) invalid_chars then "_"%char else c).

Lemma replaced_valid c : existsb (Ascii.eqb (replaced c)) invalid_chars = false.
Proof.
  cbv beta. destruct (existsb (Ascii.eqb c) invalid_chars) eqn:E; [|exact E].
  by vm_compute.
Qed.

Lemma chars_clean_filename s :
  chars (clean_filename s) = strip_chars (map replaced (chars s)).
Proof. unfold clean_filename, strip. by rewrite !chars_str. Qed.

Lemma clean_filename_valid s c :
  c ∈ chars (clean_filename s) -> existsb (Ascii.eqb c) invalid_chars = false.
Proof.
  rewrite chars_clean_filename. intros H. apply strip_sublist in H.
  apply list_elem_of_fmap in H as (c0 & -> & _). apply replaced_valid.
Qed.

End CleanFacts.

(** X4.  The name [clean_filename] returns contains none of the characters
    [< > : / \ | ? *] nor a double quote, has no white space at either end,
    and is left as it is by a second call. *)
Theorem clean_filename_idempotent (filename : string) :
  let cleaned := PDFGenerator.clean_filename filename in
  (∀ c, c ∈ PyStr.chars cleaned -> c ∉ PDFGenerator.invalid_chars)
  ∧ PyStr.strip cleaned = cleaned
  ∧ PDFGenerator.clean_filename cleaned = cleaned.
Proof.
  intros cleaned.
  assert (PyStr.strip cleaned = cleaned) as Hstrip.
  { apply AddressFacts.chars_inj. unfold PyStr.strip at 1.
    rewrite UtilsFacts.chars_str. subst cleaned.
    rewrite CleanFacts.chars_clean_filename.
    apply AddressFacts.strip_chars_strip_chars. }
  split; [|split; [done|]].
  - intros c Hc Hin. apply CleanFacts.clean_filename_valid in Hc.
    apply not_true_iff_false in Hc. apply Hc.
    apply existsb_exists. exists c. split; [by apply list_elem_of_In|].
    apply Ascii.eqb_refl.
  - unfold PDFGenerator.clean_filename at 1.
    rewrite AddressFacts.map_id_on; [by rewrite UtilsFacts.str_chars|].
    apply Forall_forall. intros c Hc.
    apply CleanFacts.clean_filename_valid in Hc. by rewrite Hc.
Qed.

(** ** More on the processing lock *)

Module LockMoreFacts.

Import ProcessingLock.

Lemma release_lock_absent self b w :
  lookup_file (fs w) (lock_file self) = None -> release_lock self b w = w.
Proof.
  intros H. unfold release_lock, file_exists. rewrite H.
  by rewrite bool_decide_eq_false_2 by (by intros [? ?]).
Qed.

Lemma release_lock_lookup self w :
  lookup_file (fs (release_lock self true w)) (lock_file self) = None.
Proof.
  unfold release_lock. destruct (file_exists (fs w) (lock_file self)) eqn:E.
  - simpl. apply FsFacts.lookup_unlink.
  - unfold file_exists in E. apply bool_decide_eq_false in E.
    destruct (lookup_file (fs w) (lock_file self)); [|done].
    exfalso. apply E. by eexists.
Qed.

Lemma release_lock_others self b w q :
  q ≠ lock_file self ->
  lookup_file (fs (release_lock self b w)) q = lookup_file (fs w) q.
Proof.
  intros Hq. unfold release_lock.
  destruct (file_exists (fs w) (lock_file self)); [|done].
  destruct b; simpl; [|done]. by apply FsMoreFacts.lookup_unlink_ne.
Qed.

Lemma release_lock_attempts self b w :
  attempts (release_lock self b w) = attempts w.
Proof.
  unfold release_lock. destruct (file_exists (fs w) (lock_file self)); [|done].
  by destruct b.
Qed.

Lemma acquire_lock_absent self env w :
  lookup_file (fs w) (lock_file self) = None ->
  acquire_lock self env w = create_marker self env w.
Proof. intros H. unfold acquire_lock. by rewrite H. Qed.

Lemma acquire_lock_attempts self env w :
  attempts (acquire_lock self env w).2 = attempts w.
Proof.
  unfold acquire_lock, create_marker.
  destruct (lookup_file (fs w) (lock_file self)) as [m|].
  - destruct (is_stale _ _ _); [|done].
    destruct (unlink_ok env); [|done]. by destruct (open_ok env).
  - by destruct (open_ok env).
Qed.


End LockMoreFacts.

(** X5.  [release_lock] removes the marker and nothing else: every other
    file and the dispatch record are as before.  Releasing again, also when
    the second [unlink] would be refused, is a no-op that writes no log
    record. *)
Theorem release_lock_removes_only_marker (self : ProcessingLock.t) (w : World) :
  let w' := ProcessingLock.release_lock self true w in
  lookup_file (fs w') (ProcessingLock.lock_file self) = None
  ∧ (∀ q, q ≠ ProcessingLock.lock_file self ->
          lookup_file (fs w') q = lookup_file (fs w) q)
  ∧ attempts w' = attempts w
  ∧ ∀ goes_through, ProcessingLock.release_lock self goes_through w' = w'.
Proof.
  intros w'. subst w'. split_and!.
  - apply LockMoreFacts.release_lock_lookup.
  - intros q Hq. by apply LockMoreFacts.release_lock_others.
  - apply LockMoreFacts.release_lock_attempts.
  - intros b. apply LockMoreFacts.release_lock_absent,
      LockMoreFacts.release_lock_lookup.
Qed.

(** X6.  After a release the next [acquire_lock] does not look at the
    timeout: it succeeds exactly when the new marker can be written, and the
    marker then carries the new time stamp and process id. *)
Theorem acquire_lock_after_release
    (self : ProcessingLock.t) (env : ProcessingLock.io) (w : World) :
  let released := ProcessingLock.release_lock self true w in
  (ProcessingLock.acquire_lock self env released).1 = ProcessingLock.open_ok env
  ∧ (ProcessingLock.open_ok env = true ->
     lookup_file (fs (ProcessingLock.acquire_lock self env released).2)
       (ProcessingLock.lock_file self)
     = Some {| f_content :=
                 LockMarker {| timestamp := ProcessingLock.stamp_time env;
                               pid := ProcessingLock.getpid env |};
               st_size := ProcessingLock.marker_bytes env;
               st_mtime := ProcessingLock.write_mtime env |}).
Proof.
  intros released.
  rewrite LockMoreFacts.acquire_lock_absent
    by apply LockMoreFacts.release_lock_lookup.
  unfold ProcessingLock.create_marker.
  destruct (ProcessingLock.open_ok env); [|done].
  split; [done|]. intros _. simpl. apply FsFacts.lookup_write_file.
Qed.

Lemma acquire_lock_after_release_witness :
  let released := ProcessingLock.release_lock Examples.lock true Examples.locked_world in
  (ProcessingLock.acquire_lock Examples.lock (Examples.attempt_at 10) released).1 = true
  ∧ lookup_file
      (fs (ProcessingLock.acquire_lock Examples.lock (Examples.attempt_at 10) released).2)
      (ProcessingLock.lock_file Examples.lock)
    = Some {| f_content := LockMarker {| timestamp := 10; pid := 4343 |};
              st_size := 64; st_mtime := 10 |}.
Proof.
  intros released.
  pose proof (acquire_lock_after_release Examples.lock (Examples.attempt_at 10)
                Examples.locked_world) as [H1 H2].
  split; [exact H1 | apply H2; reflexivity].
Defined.



(** X8.  Once the lock is acquired, the [with] block hands back whatever
    its body returned or raised, and the marker is gone afterwards in both
    cases; the release touches no other file. *)
Theorem lock_released_when_body_returns_or_raises {A : Type}
    (lock : ProcessingLock.t) (env : ProcessingLock.io) (body : M World A)
    (w w1 : World) :
  ProcessingLock.acquire_lock lock env w = (true, w1) ->
  let block := Main.with_processing_lock lock env true body w in
  block.1 = (body w1).1
  ∧ lookup_file (fs block.2) (ProcessingLock.lock_file lock) = None
  ∧ (∀ q, q ≠ ProcessingLock.lock_file lock ->
          lookup_file (fs block.2) q = lookup_file (fs (body w1).2) q)
  ∧ attempts block.2 = attempts (body w1).2.
Proof.
  intros Hacq block. subst block.
  unfold Main.with_processing_lock, ProcessingLock.enter. rewrite Hacq.
  destruct (body w1) as [o w2]. simpl. split_and!.
  - done.
  - apply LockMoreFacts.release_lock_lookup.
  - intros q Hq. by apply LockMoreFacts.release_lock_others.
  - apply LockMoreFacts.release_lock_attempts.
Qed.

Lemma lock_released_when_body_returns_or_raises_witness :
  let block := Main.with_processing_lock Examples.lock Examples.first_attempt true
                 (raise "boom" : M World unit) Examples.empty_world in
  block.1 = Raise "boom"
  ∧ lookup_file (fs block.2) (ProcessingLock.lock_file Examples.lock) = None.
Proof.
  intros block.
  destruct (lock_released_when_body_returns_or_raises Examples.lock
              Examples.first_attempt (raise "boom" : M World unit)
              Examples.empty_world Examples.locked_world eq_refl)
    as (H1 & H2 & _).
  split; [exact H1 | exact H2].
Defined.

(** ** Loading the configuration tables *)

Module LoaderFacts.

Import Utils Spec ConfigManager ConfigLoader.


Lemma load_mailing_list_from rows : ∀ (entries : list MailingEntry) (written : list log_record),
  foldl (λ '(mailing_list, written) row,
           let '(entry, records) := load_row row in
           (match entry with
            | Some entry => mailing_list ++ [entry]
            | None => mailing_list
            end, written ++ records))
    (entries, written) rows
  = (entries ++ omap (λ row, (load_row row).1) rows,
     written ++ (rows ≫= λ row, (load_row row).2)).
Proof.
  induction rows as [|row rows IH]; intros entries written; simpl.
  - by rewrite !app_nil_r.
  - destruct (load_row row) as [[entry|] records]; simpl; rewrite IH.
    + by rewrite <- !app_assoc.
    + by rewrite <- !app_assoc.
Qed.

Lemma load_mailing_list_eq rows :
  _load_mailing_list rows
  = (omap (λ row, (load_row row).1) rows,
     (rows ≫= λ row, (load_row row).2)
     ++ [LogRecord file_logger INFO (Text "Mailing list loaded")]).
Proof. unfold _load_mailing_list. by rewrite load_mailing_list_from. Qed.

(** Whatever [split_email_list] returns is a list of well-formed
    addresses. *)
Lemma split_email_list_shape c e :
  e ∈ (split_email_list c).1 -> address_shape e.
Proof.
  destruct c as [| |s]; simpl; try by intros ?%elem_of_nil.
  destruct (blank_or_nan s); simpl; [by intros ?%elem_of_nil|].
  assert (e ∈ List.filter validate_email (map PyStr.strip (PyStr.split ";" s))
          -> address_shape e) as H.
  { intros [Hin Hv]%list_elem_of_In%filter_In.
    apply in_map_iff in Hin as (p & <- & _). by apply UtilsFacts.validate_email_strip. }
  by destruct (_ =? _)%nat.
Qed.

(** The entry a row gives, if it gives one. *)
Lemma load_row_Some row entry :
  (load_row row).1 = Some entry <->
  (split_email_list (row_recipients row)).1 ≠ []
  ∧ entry = {| pdf_name := row_pdf_name row;
               recipients := (split_email_list (row_recipients row)).1;
               cc := (split_email_list (default (PyString "") (row_cc row))).1;
               subject := row_subject row |}.
Proof.
  unfold load_row.
  destruct (split_email_list (row_recipients row)) as [rs l1].
  destruct (split_email_list (default (PyString "") (row_cc row))) as [cs l2].
  simpl. destruct rs as [|r rs]; simpl.
  - split; [done | by intros [? _]].
  - split; [by intros [= <-] | by intros [_ ->]].
Qed.

Lemma load_row_None row :
  (load_row row).1 = None <-> (split_email_list (row_recipients row)).1 = [].
Proof.
  unfold load_row.
  destruct (split_email_list (row_recipients row)) as [rs l1].
  destruct (split_email_list (default (PyString "") (row_cc row))) as [cs l2].
  simpl. by destruct rs.
Qed.

Lemma load_row_error row :
  (load_row row).1 = None ->
  LogRecord error_logger ERROR
    (Text ("No valid recipients for PDF: " +:+ row_pdf_name row)) ∈ (load_row row).2.
Proof.
  unfold load_row.
  destruct (split_email_list (row_recipients row)) as [rs l1].
  destruct (split_email_list (default (PyString "") (row_cc row))) as [cs l2].
  simpl. destruct rs; simpl; [|done]. intros _.
  rewrite !elem_of_app, list_elem_of_singleton. auto.
Qed.

Lemma loaded_entry rows entry :
  entry ∈ (_load_mailing_list rows).1 <->
  ∃ row, row ∈ rows ∧ (load_row row).1 = Some entry.
Proof. rewrite load_mailing_list_eq. simpl. apply list_elem_of_omap. Qed.

Lemma omap_sublist {A B} (f : A -> option B) (g : A -> B) l :
  (∀ x y, f x = Some y -> y = g x) -> omap f l `sublist_of` (g <$> l).
Proof.
  intros H. induction l as [|x l IH]; csimpl; [done|].
  destruct (f x) as [y|] eqn:E.
  - rewrite (H _ _ E). by constructor.
  - by constructor.
Qed.

Lemma get_value {K V} `{EqDecision K} (k : K) (v : V) d :
  PyDict.get k d = Some v -> v ∈ PyDict.values d.
Proof.
  unfold PyDict.values. induction d as [|[k' v'] d IH]; simpl; [done|].
  destruct (decide (k' = k)).
  - intros [= ->]. by left.
  - intros H. right. auto.
Qed.

End LoaderFacts.


(** X10.  Every entry [_load_mailing_list] keeps has at least one recipient,
    and all its recipients and copies are well-formed addresses.  The
    entries are in the order of their rows; a row with a valid recipient gives
    an entry with the row's document, subject and valid recipients; a row
    without one gives no entry and an ERROR record naming its document. *)
Theorem load_mailing_list_keeps_rows_with_recipients
    (rows : list ConfigLoader.MailingRow) :
  let loaded := ConfigLoader._load_mailing_list rows in
  (∀ entry, entry ∈ loaded.1 ->
     recipients entry ≠ []
     ∧ Forall Spec.address_shape (recipients entry)
     ∧ Forall Spec.address_shape (cc entry))
  ∧ (pdf_name <$> loaded.1) `sublist_of` (ConfigLoader.row_pdf_name <$> rows)
  ∧ (∀ row, row ∈ rows ->
       match (Utils.split_email_list (ConfigLoader.row_recipients row)).1 with
       | [] =>
           LogRecord error_logger ERROR
             (Text ("No valid recipients for PDF: " +:+ ConfigLoader.row_pdf_name row))
           ∈ loaded.2
       | valid =>
           ∃ entry, entry ∈ loaded.1
                    ∧ pdf_name entry = ConfigLoader.row_pdf_name row
                    ∧ recipients entry = valid
                    ∧ subject entry = ConfigLoader.row_subject row
       end).
Proof.
  intros loaded. split_and!.
  - intros entry (row & _ & Hrow)%LoaderFacts.loaded_entry.
    apply LoaderFacts.load_row_Some in Hrow as [Hne ->]. simpl.
    split_and!; [done | |]; apply Forall_forall; intros e He;
      by eapply LoaderFacts.split_email_list_shape.
  - subst loaded. rewrite LoaderFacts.load_mailing_list_eq. simpl.
    rewrite list_fmap_omap.
    apply LoaderFacts.omap_sublist. intros row name.
    destruct ((ConfigLoader.load_row row).1) as [entry|] eqn:E; simpl; [|done].
    intros [= <-]. by apply LoaderFacts.load_row_Some in E as [_ ->].
  - intros row Hrow.
    destruct ((Utils.split_email_list (ConfigLoader.row_recipients row)).1)
      as [|r rs] eqn:E.
    + subst loaded. rewrite LoaderFacts.load_mailing_list_eq. simpl.
      apply elem_of_app. left. apply list_elem_of_bind. exists row.
      split; [|done]. by apply LoaderFacts.load_row_error, LoaderFacts.load_row_None.
    + eexists. split.
      * apply LoaderFacts.loaded_entry. exists row. split; [done|].
        apply LoaderFacts.load_row_Some. split; [by rewrite E | reflexivity].
      * simpl. by rewrite E.
Qed.

(** X11.  In a configuration that passed [validate_configuration], a folder
    mapped to a document other than ["Global Headers"] always has a mailing
    entry to send its document to. *)
Theorem validated_folder_has_mailing_entries
    (config : ConfigManager.t) (folder document : string) :
  (ConfigManager.validate_configuration config).1 = true ->
  ConfigManager.get_pdf_name_for_folder config folder = Some document ->
  document ≠ "Global Headers" ->
  ConfigManager.get_mailing_entries_for_pdf config document ≠ [].
Proof.
  intros Hvalid Hdoc Hglobal.
  apply ConfigFacts.is_valid_iff, ConfigFacts.errors_nil_iff in Hvalid.
  destruct Hvalid as (_ & _ & _ & _ & _ & Hmissing).
  apply LoaderFacts.get_value in Hdoc.
  destruct (proj1 (ConfigFacts.missing_empty config) Hmissing document Hdoc Hglobal)
    as (entry & Hin & Hname).
  unfold ConfigManager.get_mailing_entries_for_pdf. intros Hnil.
  assert (In entry (List.filter (λ e, pdf_name e =? document)
                      (ConfigManager.mailing_list config))) as H.
  { apply filter_In. split; [by apply list_elem_of_In|]. by apply String.eqb_eq. }
  rewrite Hnil in H. destruct H.
Qed.

Lemma validated_folder_has_mailing_entries_witness :
  ConfigManager.get_mailing_entries_for_pdf Examples.config "Report-A" ≠ [].
Proof.
  apply (validated_folder_has_mailing_entries Examples.config "GroupA" "Report-A").
  - vm_compute. reflexivity.
  - vm_compute. reflexivity.
  - discriminate.
Defined.

(** X12.  A document all of whose rows in [mailing_list.csv] lack a valid
    recipient has no entry in the loaded mailing list; if a folder is mapped
    to it (and it is not ["Global Headers"]) the configuration is rejected,
    with the document among the reported documents without entries. *)
Theorem document_without_valid_recipient_rejected
    (config : ConfigManager.t) (rows : list ConfigLoader.MailingRow)
    (document : string) :
  ConfigManager.mailing_list config = (ConfigLoader._load_mailing_list rows).1 ->
  document ∈ PyDict.values (ConfigManager.pdf_names_mapping config) ->
  document ≠ "Global Headers" ->
  (∀ row, row ∈ rows -> ConfigLoader.row_pdf_name row = document ->
          (Utils.split_email_list (ConfigLoader.row_recipients row)).1 = []) ->
  ConfigManager.get_mailing_entries_for_pdf config document = []
  ∧ (ConfigManager.validate_configuration config).1 = false
  ∧ ∃ missing, document ∈ missing
               ∧ MissingMailingEntries missing
                 ∈ (ConfigManager.validate_configuration config).2.
Proof.
  intros Hlist Hdoc Hglobal Hrows.
  assert (∀ entry, entry ∈ ConfigManager.mailing_list config ->
                   pdf_name entry ≠ document) as Hnone.
  { intros entry Hin Hname. rewrite Hlist in Hin.
    apply LoaderFacts.loaded_entry in Hin as (row & Hrow & Hentry).
    apply LoaderFacts.load_row_Some in Hentry as [Hne ->]. simpl in Hname.
    by apply Hne, Hrows. }
  assert (document ∈ Spec.missing config) as Hmissing.
  { unfold Spec.missing.
    rewrite !elem_of_difference, !elem_of_list_to_set, elem_of_singleton.
    split_and!; [done | | done].
    intros (entry & -> & Hin)%list_elem_of_fmap. by eapply Hnone. }
  split_and!.
  - unfold ConfigManager.get_mailing_entries_for_pdf.
    destruct (List.filter _ _) as [|entry l] eqn:E; [done|].
    assert (In entry (entry :: l)) as Hin by (by left).
    rewrite <- E in Hin. apply filter_In in Hin as [Hin Hname].
    apply String.eqb_eq in Hname. apply list_elem_of_In in Hin.
    by apply Hnone in Hin.
  - eapply ConfigFacts.reported_invalid.
    by apply (ConfigFacts.missing_reported config document).
  - exists (Spec.missing config). split; [done|].
    by apply (ConfigFacts.missing_reported config document).
Qed.

Lemma document_without_valid_recipient_rejected_witness :
  ConfigManager.get_mailing_entries_for_pdf MoreExamples.config_loaded "Report-B" = []
  ∧ (ConfigManager.validate_configuration MoreExamples.config_loaded).1 = false
  ∧ ∃ missing, "Report-B" ∈ missing
               ∧ MissingMailingEntries missing
                 ∈ (ConfigManager.validate_configuration MoreExamples.config_loaded).2.
Proof.
  apply (document_without_valid_recipient_rejected MoreExamples.config_loaded
           MoreExamples.rows "Report-B").
  - reflexivity.
  - vm_compute. right. right. by left.
  - discriminate.
  - intros row Hrow Hname. unfold MoreExamples.rows in Hrow.
    apply elem_of_cons in Hrow as [->|Hrow]; [discriminate Hname|].
    apply list_elem_of_singleton in Hrow as ->. vm_compute. reflexivity.
Defined.

(** ** More on the build stage *)

Module BuildFacts.

Import PDFGenerator.

(** The merged image list of a folder in a state. *)
Local Abbreviation merged self folder w :=
  (combine_png_files
     (Utils.get_png_files (fs w) (all_folder self) (extensions self))
     (Utils.get_png_files (fs w) (subdir (input_dir self) folder) (extensions self))).

Local Abbreviation logged w png_files :=
  (foldl (λ w png_file, add_log (page_logs (fs w) png_file) w) w png_files).

(** The name and place of the document [_create_pdf] writes. *)
Local Abbreviation target env self pdf_name w :=
  (joinpath (output_dir self)
     (clean_filename pdf_name +:+ "_"
      +:+ strftime_now env
            (timestamp_format (ConfigManager.processing_config (config self))) w
      +:+ ".pdf")).

Lemma truthy_Some s : ConfigManager.truthy s = true <-> ∃ d, s = Some d ∧ d ≠ "".
Proof.
  destruct s as [d|]; simpl.
  - rewrite negb_true_iff, String.eqb_neq. split; [by eauto | by intros (? & [= <-] & ?)].
  - split; [done | by intros (? & ? & _)].
Qed.

(** When the build fails nothing is written. *)
Lemma generate_None env self folder w :
  (generate_pdf_for_folder env self folder w).1 = None ->
  fs (generate_pdf_for_folder env self folder w).2 = fs w
  ∧ attempts (generate_pdf_for_folder env self folder w).2 = attempts w.
Proof.
  unfold generate_pdf_for_folder.
  destruct (ConfigManager.get_pdf_name_for_folder _ _) as [[|c pdf_name]|]; try done.
  destruct (negb (dir_exists _ _)); [done|].
  destruct (combine_png_files _ _) as [|p l] eqn:E; [done|]. rewrite <- E.
  unfold _create_pdf.
  match goal with |- context [foldl ?f w ?l] =>
    destruct (DocFacts.page_logs_fs l w) as [Hf Ha]; set (w1 := foldl f w l) in * end.
  destruct (canvas_save_ok env w1 _); simpl; [done|]. by rewrite Hf, Ha.
Qed.

(** What a successful build returns and leaves behind. *)
Lemma generate_Some env self folder w pdf :
  (generate_pdf_for_folder env self folder w).1 = Some pdf ->
  ∃ pdf_name,
    ConfigManager.get_pdf_name_for_folder (config self) folder = Some pdf_name
    ∧ pdf_name ≠ ""
    ∧ dir_exists (fs w) (subdir (input_dir self) folder) = true
    ∧ merged self folder w ≠ []
    ∧ pdf = target env self pdf_name w
    ∧ canvas_save_ok env (logged w (merged self folder w)) pdf = true
    ∧ lookup_file (fs (generate_pdf_for_folder env self folder w).2) pdf
      = Some {| f_content := Document (pages_of (fs w) (merged self folder w));
                st_size := canvas_bytes env (pages_of (fs w) (merged self folder w));
                st_mtime := mtime_now env (logged w (merged self folder w)) |}
    ∧ attempts (generate_pdf_for_folder env self folder w).2 = attempts w.
Proof.
  unfold generate_pdf_for_folder.
  destruct (ConfigManager.get_pdf_name_for_folder _ _) as [[|c pdf_name]|]; try done.
  destruct (negb (dir_exists _ _)) eqn:Hd; [done|]. apply negb_false_iff in Hd.
  destruct (combine_png_files _ _) as [|p l] eqn:E; [done|]. rewrite <- E.
  unfold _create_pdf.
  match goal with |- context [foldl ?f w ?l] =>
    destruct (DocFacts.page_logs_fs l w) as [Hf Ha]; set (w1 := foldl f w l) in * end.
  destruct (canvas_save_ok env w1 _) eqn:Hsave; simpl; [|done].
  intros [= <-]. exists (String c pdf_name).
  split_and!; try done.
  - by rewrite E.
  - unfold _store_pdf_metadata.
    rewrite <- !DocFacts.append_assoc.
    destruct (json_dump_ok env _ _); simpl.
    + rewrite FsFacts.lookup_write_file_ne by apply DocFacts.sidecar_differs.
      by rewrite FsFacts.lookup_write_file.
    + by rewrite FsFacts.lookup_write_file.
  - unfold _store_pdf_metadata. by destruct (json_dump_ok env _ _).
Qed.

(** The build succeeds when there is something to build and the canvas can
    be saved. *)
Lemma generate_succeeds env self folder w pdf_name :
  ConfigManager.get_pdf_name_for_folder (config self) folder = Some pdf_name ->
  pdf_name ≠ "" ->
  dir_exists (fs w) (subdir (input_dir self) folder) = true ->
  merged self folder w ≠ [] ->
  canvas_save_ok env (logged w (merged self folder w)) (target env self pdf_name w) = true ->
  (generate_pdf_for_folder env self folder w).1 = Some (target env self pdf_name w).
Proof.
  intros Hname Hne Hd Hm Hsave. unfold generate_pdf_for_folder. rewrite Hname, Hd.
  destruct pdf_name as [|c pdf_name]; [done|]. simpl.
  destruct (combine_png_files _ _) as [|p l] eqn:E; [done|].
  rewrite <- E in Hsave. rewrite <- E.
  unfold _create_pdf. by rewrite Hsave.
Qed.

(** The sidecar a successful build leaves, when the dump goes through. *)
Lemma generate_sidecar env self folder w pdf :
  (∀ w p, json_dump_ok env w p = true) ->
  (generate_pdf_for_folder env self folder w).1 = Some pdf ->
  ∃ sidecar,
    lookup_file (fs (generate_pdf_for_folder env self folder w).2)
      (with_suffix pdf ".json") = Some sidecar
    ∧ f_content sidecar
      = Sidecar {| md_pdf_path := Some (path_str pdf);
                   md_pdf_name :=
                     ConfigManager.get_pdf_name_for_folder (config self) folder;
                   md_folder_name := Some folder;
                   md_files := (omap (draw_page (fs w)) (merged self folder w)).*2 |}.
Proof.
  intros Hdump. unfold generate_pdf_for_folder.
  destruct (ConfigManager.get_pdf_name_for_folder _ _) as [[|c pdf_name]|]; try done.
  destruct (negb (dir_exists _ _)) eqn:Hd; [done|].
  destruct (combine_png_files _ _) as [|p l] eqn:E; [done|]. rewrite <- E.
  unfold _create_pdf.
  match goal with |- context [foldl ?f w ?l] =>
    destruct (DocFacts.page_logs_fs l w) as [Hf Ha]; set (w1 := foldl f w l) in * end.
  destruct (canvas_save_ok env w1 _) eqn:Hsave; simpl; [|done].
  intros [= <-]. unfold _store_pdf_metadata. rewrite Hdump. simpl.
  rewrite FsFacts.lookup_write_file. eauto.
Qed.

Lemma draw_page_info fs p x :
  draw_page fs p = Some x -> fi_filename x.2 = name x.1.
Proof.
  unfold draw_page. destruct (lookup_file fs p) as [[[[dims|]| | | |] sz mt]|]; try done.
  by intros [= <-].
Qed.

Lemma drawn_names fs l :
  fi_filename <$> (omap (draw_page fs) l).*2 = name <$> pages_of fs l.
Proof.
  unfold pages_of. induction l as [|p l IH]; [done|]. csimpl.
  destruct (draw_page fs p) as [x|] eqn:E; csimpl; [|done].
  f_equal; [by eapply draw_page_info | done].
Qed.

Lemma get_is_Some {K V} `{EqDecision K} (k : K) (d : list (K * V)) :
  is_Some (PyDict.get k d) <-> k ∈ PyDict.keys d.
Proof.
  unfold PyDict.keys. induction d as [|[k' v'] d IH]; simpl.
  - split; [by intros [? ?] | by intros ?%elem_of_nil].
  - destruct (decide (k' = k)) as [->|Hne].
    + split; [by left | by eauto].
    + rewrite IH, elem_of_cons. split; [auto|]. by intros [?|?].
Qed.

(** A folder with an image of its own has a non-empty merged list. *)
Lemma merged_nonempty (all_pngs folder_pngs : list Path) :
  folder_pngs ≠ [] -> combine_png_files all_pngs folder_pngs ≠ [].
Proof.
  intros Hne.
  destruct (PdfFacts.combine_png_files_blocks all_pngs folder_pngs)
    as (g & l & E & _ & _ & _ & Hcov & _ & _ & _ & Hcov2).
  rewrite E. destruct folder_pngs as [|p ps]; [done|].
  destruct (decide (name p ∈ name <$> all_pngs)) as [Hin|Hin].
  - apply list_elem_of_fmap in Hin as (q & _ & Hq). apply Hcov in Hq.
    destruct g; [by apply elem_of_nil in Hq | done].
  - assert (name p ∈ name <$> l) as Hl by (apply Hcov2; [by left | done]).
    destruct l; [by apply elem_of_nil in Hl|]. by destruct g.
Qed.

End BuildFacts.

(** X13.  When the canvas can always be saved, [generate_pdf_for_folder]
    returns a document exactly when the folder has a non-empty document name,
    exists, and its merged image list is not empty.  The document is then a
    file of the output directory named after the cleaned document name and
    the time stamp; when nothing is returned nothing was written. *)
Theorem generate_pdf_for_folder_returns_document_iff
    (env : Env) (self : PDFGenerator.t) (folder : string) (w : World) :
  (∀ w p, canvas_save_ok env w p = true) ->
  let result := PDFGenerator.generate_pdf_for_folder env self folder w in
  let merged :=
    PDFGenerator.combine_png_files
      (Utils.get_png_files (fs w) (PDFGenerator.all_folder self)
         (PDFGenerator.extensions self))
      (Utils.get_png_files (fs w) (subdir (PDFGenerator.input_dir self) folder)
         (PDFGenerator.extensions self)) in
  (is_Some result.1
   <-> ConfigManager.truthy
         (ConfigManager.get_pdf_name_for_folder (PDFGenerator.config self) folder) = true
       ∧ dir_exists (fs w) (subdir (PDFGenerator.input_dir self) folder) = true
       ∧ merged ≠ [])
  ∧ (∀ pdf, result.1 = Some pdf ->
       parent pdf = PDFGenerator.output_dir self
       ∧ (∃ pdf_name stamp,
            ConfigManager.get_pdf_name_for_folder (PDFGenerator.config self) folder
            = Some pdf_name
            ∧ name pdf = PDFGenerator.clean_filename pdf_name +:+ "_" +:+ stamp +:+ ".pdf")
       ∧ is_Some (lookup_file (fs result.2) pdf))
  ∧ (result.1 = None -> fs result.2 = fs w).
Proof.
  intros Hsave result merged. split_and!.
  - split.
    + intros [pdf Hpdf].
      apply BuildFacts.generate_Some in Hpdf
        as (pdf_name & Hname & Hne & Hd & Hm & _).
      split_and!; [|done..]. apply BuildFacts.truthy_Some. eauto.
    + intros ((pdf_name & Hname & Hne)%BuildFacts.truthy_Some & Hd & Hm).
      eexists. by eapply BuildFacts.generate_succeeds.
  - intros pdf Hpdf.
    apply BuildFacts.generate_Some in Hpdf
      as (pdf_name & Hname & Hne & Hd & Hm & -> & _ & Hfile & _).
    split_and!; [done | | by eexists]. eauto.
  - intros Hnone. by apply BuildFacts.generate_None.
Qed.

Lemma generate_pdf_for_folder_returns_document_iff_witness :
  is_Some (PDFGenerator.generate_pdf_for_folder Examples.env
             (PDFGenerator.init Examples.config ".") "GroupA" Examples.world).1.
Proof.
  apply (generate_pdf_for_folder_returns_document_iff Examples.env
           (PDFGenerator.init Examples.config ".") "GroupA" Examples.world).
  - reflexivity.
  - split_and!; [vm_compute; reflexivity | vm_compute; reflexivity |].
    vm_compute. discriminate.
Defined.

(** X14.  Round trip of the sidecar: when the dump goes through,
    [get_pdf_metadata] on the document a build returned gives back what
    [_store_pdf_metadata] was given, namely the path of the document, the
    configured document name, the folder, and one entry per page of the
    document, in page order and under the page's file name. *)
Theorem stored_metadata_is_loaded_back
    (env : Env) (self : PDFGenerator.t) (folder : string) (w : World) (pdf : Path) :
  (∀ w p, json_dump_ok env w p = true) ->
  let built := PDFGenerator.generate_pdf_for_folder env self folder w in
  built.1 = Some pdf ->
  ∃ metadata pages,
    PDFGenerator.get_pdf_metadata pdf built.2 = (Some metadata, built.2)
    ∧ md_pdf_path metadata = Some (path_str pdf)
    ∧ md_pdf_name metadata
      = ConfigManager.get_pdf_name_for_folder (PDFGenerator.config self) folder
    ∧ md_folder_name metadata = Some folder
    ∧ f_content <$> lookup_file (fs built.2) pdf = Some (Document pages)
    ∧ fi_filename <$> md_files metadata = name <$> pages.
Proof.
  intros Hdump built Hpdf.
  destruct (BuildFacts.generate_sidecar env self folder w pdf Hdump Hpdf)
    as (sidecar & Hlookup & Hcontent).
  apply BuildFacts.generate_Some in Hpdf as (_ & _ & _ & _ & _ & _ & _ & Hdoc & _).
  eexists _, _. split_and!.
  - unfold PDFGenerator.get_pdf_metadata. subst built. rewrite Hlookup.
    destruct sidecar as [c sz mt]. simpl in Hcontent. rewrite Hcontent. reflexivity.
  - done.
  - done.
  - done.
  - subst built. rewrite Hdoc. reflexivity.
  - apply BuildFacts.drawn_names.
Qed.

Lemma stored_metadata_is_loaded_back_witness :
  ∃ metadata,
    PDFGenerator.get_pdf_metadata Examples.report_a Examples.built_world
    = (Some metadata, Examples.built_world)
    ∧ md_pdf_name metadata = Some "Report-A"
    ∧ md_folder_name metadata = Some "GroupA".
Proof.
  destruct (stored_metadata_is_loaded_back Examples.env
              (PDFGenerator.init Examples.config ".") "GroupA" Examples.world
              Examples.report_a) as (metadata & pages & H1 & _ & H3 & H4 & _).
  - reflexivity.
  - vm_compute. reflexivity.
  - exists metadata. split_and!; [exact H1 | | exact H4].
    rewrite H3. vm_compute. reflexivity.
Defined.

(** X15.  [get_folders_with_new_pngs] keeps the order of the folder table,
    never lists the folder ["ALL"], and lists only folders that are in the
    table, exist, and hold an image of their own.  For such a folder the
    merged image list is not empty, so the build does not stop for lack of
    images. *)
Theorem get_folders_with_new_pngs_have_images (self : PDFGenerator.t) (w : World) :
  PDFGenerator.get_folders_with_new_pngs self w
    `sublist_of` ConfigManager.get_all_folder_names (PDFGenerator.config self)
  ∧ ∀ folder, folder ∈ PDFGenerator.get_folders_with_new_pngs self w ->
      folder ≠ "ALL"
      ∧ is_Some (ConfigManager.get_pdf_name_for_folder (PDFGenerator.config self) folder)
      ∧ dir_exists (fs w) (subdir (PDFGenerator.input_dir self) folder) = true
      ∧ Utils.get_png_files (fs w) (subdir (PDFGenerator.input_dir self) folder)
          (PDFGenerator.extensions self) ≠ []
      ∧ PDFGenerator.combine_png_files
          (Utils.get_png_files (fs w) (PDFGenerator.all_folder self)
             (PDFGenerator.extensions self))
          (Utils.get_png_files (fs w) (subdir (PDFGenerator.input_dir self) folder)
             (PDFGenerator.extensions self)) ≠ [].
Proof.
  assert (∀ {A} (f : A -> bool) l, List.filter f l `sublist_of` l) as Hsub.
  { intros A f l. induction l as [|x l IH]; simpl; [done|].
    destruct (f x); by constructor. }
  unfold PDFGenerator.get_folders_with_new_pngs. split.
  - etrans; [apply Hsub|]. apply Hsub.
  - intros folder [[Hin Hall]%filter_In Hf]%list_elem_of_In%filter_In.
    apply andb_true_iff in Hf as [Hd Hpng].
    apply negb_true_iff, String.eqb_neq in Hall.
    assert (Utils.get_png_files (fs w) (subdir (PDFGenerator.input_dir self) folder)
              (PDFGenerator.extensions self) ≠ []) as Hne.
    { intros E. by rewrite E in Hpng. }
    split_and!; try done.
    + apply BuildFacts.get_is_Some. by apply list_elem_of_In.
    + by apply BuildFacts.merged_nonempty.
Qed.

(** X16.  [validate_pdf_size] accepts a document exactly when it exists and
    its size is at most the configured number of mebibytes (a document of
    exactly that size passes); it never touches the file system, and an
    accepted document leaves the state as it was.  The second check, in
    [send_pdf_emails], gives the same verdict on the same file system. *)
Theorem validate_pdf_size_accepts_up_to_limit
    (config : ConfigManager.t) (base_path : string) (pdf : Path) (w : World) :
  let self := PDFGenerator.init config base_path in
  let checked := PDFGenerator.validate_pdf_size self pdf w in
  (checked.1 = true
   <-> ∃ f, lookup_file (fs w) pdf = Some f
            ∧ (st_size f ≤ max_attachment_size_mb (ConfigManager.general_config config)
                           * 1024 * 1024)%Z)
  ∧ fs checked.2 = fs w
  ∧ (checked.1 = true -> checked.2 = w)
  ∧ (EmailSender._validate_attachment_size config pdf w).1 = checked.1.
Proof.
  intros self checked. subst checked self.
  unfold PDFGenerator.validate_pdf_size, EmailSender._validate_attachment_size,
    EmailSender.max_bytes. simpl.
  destruct (lookup_file (fs w) pdf) as [f|]; simpl.
  - destruct (st_size f >? _)%Z eqn:E; simpl.
    + split_and!; try done. split; [done|]. intros (f' & [= <-] & Hle).
      apply Z.gtb_lt in E. lia.
    + split_and!; try done. split; [|done]. intros _. exists f. split; [done|].
      rewrite Z.gtb_ltb in E. by apply Z.ltb_ge in E.
  - split_and!; try done. split; [done | by intros (? & ? & _)].
Qed.

(** ** The archiving methods *)

Module ArchiveFacts.

Import FileManager.

Lemma prefix_append a b : String.prefix a (a +:+ b) = true.
Proof.
  induction a as [|c a IH]; simpl; [by destruct b|].
  by destruct (ascii_dec c c).
Qed.

Lemma prefix_append_r a b c : String.prefix a b = true -> String.prefix a (b +:+ c) = true.
Proof.
  revert b. induction a as [|x a IH]; intros b; simpl.
  - intros _. by destruct (b +:+ c).
  - destruct b as [|y b]; simpl; [done|]. destruct (ascii_dec x y); [apply IH | done].
Qed.

Lemma prefix_cancel a b c : String.prefix (a +:+ b) (a +:+ c) = String.prefix b c.
Proof.
  induction a as [|x a IH]; simpl; [done|]. by destruct (ascii_dec x x).
Qed.

Lemma prefix_subdir a b : String.prefix a (subdir a b) = true.
Proof. apply prefix_append. Qed.

Lemma prefix_subdir_r a b c : String.prefix a b = true -> String.prefix a (subdir b c) = true.
Proof. apply prefix_append_r. Qed.

(** The input folders are not below the archive directories. *)
Lemma input_not_archived_png config base folder :
  String.prefix (png_archive_dir (init config base))
    (subdir (input_dir (init config base)) folder) = false.
Proof.
  unfold init, subdir. simpl. rewrite !DocFacts.append_assoc, prefix_cancel.
  reflexivity.
Qed.

Lemma move_Some env src dst w w' :
  move env src dst w = Some w' ->
  ∃ f, lookup_file (fs w) src = Some f
       ∧ fs w' = write_file (unlink (fs w) src) dst f
       ∧ attempts w' = attempts w.
Proof.
  unfold move. destruct (lookup_file (fs w) src) as [f|]; [|done].
  destruct (move_ok env w src dst); [|done]. intros [= <-]. eauto.
Qed.

(** What the loop of [archive_processed_pngs] does to the files that are
    not in the batch folder: it only removes, and only files of its list;
    when the counter goes up by the length of the list, every file of the
    list is gone. *)
Lemma archive_loop_spec env batch png_files : ∀ count w,
  (∀ p, p ∈ png_files -> parent p ≠ batch) ->
  let looped := archive_loop env batch png_files count w in
  attempts looped.2 = attempts w
  ∧ (∀ q f, parent q ≠ batch -> lookup_file (fs looped.2) q = Some f ->
            lookup_file (fs w) q = Some f)
  ∧ (∀ q, parent q ≠ batch -> q ∉ png_files ->
          lookup_file (fs looped.2) q = lookup_file (fs w) q)
  ∧ (looped.1 ≤ count + length png_files)%nat
  ∧ (looped.1 = (count + length png_files)%nat ->
     ∀ p, p ∈ png_files -> lookup_file (fs looped.2) p = None).
Proof.
  induction png_files as [|p rest IH]; intros count w Hout; simpl.
  - split_and!; try done; [lia|]. by intros _ p ?%elem_of_nil.
  - assert (∀ q, q ∈ rest -> parent q ≠ batch) as Hrest.
    { intros q Hq. apply Hout. by right. }
    assert (parent p ≠ batch) as Hp by (apply Hout; by left).
    destruct (move env p (joinpath batch (name p)) w) as [w1|] eqn:Hmove.
    + apply move_Some in Hmove as (f & Hsrc & Hfs & Hat).
      destruct (IH (S count) (log_file_operation ("Archived PNG: " +:+ name p) w1) Hrest)
        as (H1 & H2 & H3 & H4 & H5).
      simpl in H1, H2, H3.
      assert (∀ q, parent q ≠ batch ->
                   lookup_file (fs w1) q = lookup_file (unlink (fs w) p) q) as Hw1.
      { intros q Hq. rewrite Hfs. apply FsMoreFacts.lookup_write_file_dir. simpl. congruence. }
      split_and!.
      * congruence.
      * intros q g Hq Hg. apply H2 in Hg; [|done]. rewrite Hw1 in Hg by done.
        by apply FsMoreFacts.lookup_unlink_Some in Hg.
      * intros q Hq Hnot. rewrite H3; [|done|].
        -- rewrite Hw1 by done. apply FsMoreFacts.lookup_unlink_ne.
           intros ->. apply Hnot. by left.
        -- intros Hin. apply Hnot. by right.
      * lia.
      * intros Hcount q [->|Hq]%elem_of_cons.
        -- match goal with |- ?x = None => destruct x as [g|] eqn:Hg end; [|done].
           apply H2 in Hg; [|done]. rewrite Hw1, FsFacts.lookup_unlink in Hg; done.
        -- apply H5; [lia | done].
    + destruct (IH count (log_error ("Failed to archive PNG file: " +:+ path_str p) w) Hrest)
        as (H1 & H2 & H3 & H4 & H5).
      simpl in H1, H2, H3. split_and!.
      * done.
      * done.
      * intros q Hq Hnot. apply H3; [done|]. intros Hin. apply Hnot. by right.
      * lia.
      * intros Hcount. lia.
Qed.

Lemma archive_processed_pngs_attempts env self folder w :
  attempts (archive_processed_pngs env self folder w).2 = attempts w.
Proof.
  unfold archive_processed_pngs.
  destruct (negb (archiving_enabled self)); [done|].
  destruct (negb (dir_exists _ _)); [done|].
  destruct (_ ≫= _) as [|p l] eqn:E; [done|].
  match goal with |- context [archive_loop env ?b ?l ?c ?w0] =>
    assert (attempts (archive_loop env b l c w0).2 = attempts w0) as H;
    [|destruct (archive_loop env b l c w0) as [count w3]; simpl in *; by rewrite H]
  end.
  generalize 0%nat. generalize (p :: l). clear.
  match goal with |- ∀ l c, attempts (archive_loop env ?b l c ?w0).2 = _ =>
    generalize w0; generalize b end.
  intros b w0 l. revert w0. induction l as [|q l IH]; intros w0 c; simpl; [done|].
  destruct (move env q _ w0) as [w1|] eqn:Hmove.
  - apply move_Some in Hmove as (f & _ & _ & Hat). rewrite IH. done.
  - by rewrite IH.
Qed.

Lemma archive_sent_pdf_attempts env self pdf w :
  attempts (archive_sent_pdf env self pdf w).2 = attempts w.
Proof.
  unfold archive_sent_pdf.
  destruct (negb (archiving_enabled self)); [done|].
  destruct (negb (file_exists _ _)); [done|].
  match goal with |- context [move env pdf ?d ?w0] =>
    destruct (move env pdf d w0) as [w2|] eqn:H1 end; [|done].
  apply move_Some in H1 as (f & _ & _ & Hat). simpl in Hat.
  destruct (file_exists (fs w2) _); [|done].
  match goal with |- context [move env ?s ?d w2] =>
    destruct (move env s d w2) as [w3|] eqn:H2 end; [|done].
  apply move_Some in H2 as (g & _ & _ & Hat2). simpl. congruence.
Qed.

(** With archiving switched off both methods leave every file in place. *)
Lemma archive_disabled env self folder pdf w :
  archiving_enabled self = false ->
  (archive_sent_pdf env self pdf w = (true, w))
  ∧ (archive_processed_pngs env self folder w).1 = true
  ∧ fs (archive_processed_pngs env self folder w).2 = fs w.
Proof.
  intros H. unfold archive_sent_pdf, archive_processed_pngs. by rewrite H.
Qed.

(** The effect of [archive_processed_pngs] on the files outside the PNG
    archive, and what a [True] result says about the folder. *)
Lemma archive_processed_pngs_spec env config base folder w :
  let self := init config base in
  let archived := archive_processed_pngs env self folder w in
  let folder_path := subdir (input_dir self) folder in
  (∀ q, parent q ≠ folder_path ->
        String.prefix (png_archive_dir self) (parent q) = false ->
        lookup_file (fs archived.2) q = lookup_file (fs w) q)
  ∧ (∀ q f, String.prefix (png_archive_dir self) (parent q) = false ->
            lookup_file (fs archived.2) q = Some f -> lookup_file (fs w) q = Some f)
  ∧ (archiving_enabled self = true -> archived.1 = true ->
     ∀ p ext, ext ∈ png_file_extensions (ConfigManager.processing_config config) ->
              p ∈ Utils.glob_suffix (fs w) folder_path ext ->
              lookup_file (fs archived.2) p = None).
Proof.
  intros self archived folder_path. subst archived.
  unfold archive_processed_pngs.
  destruct (negb (archiving_enabled self)) eqn:Hen.
  { simpl. split_and!; try done. intros H. rewrite H in Hen. done. }
  fold folder_path.
  destruct (negb (dir_exists (fs w) folder_path)); [simpl; split_and!; done|].
  change (png_file_extensions (ConfigManager.processing_config (FileManager.config self)))
    with (png_file_extensions (ConfigManager.processing_config config)).
  set (png_files := _ ≫= _).
  assert (∀ p, p ∈ png_files -> parent p = folder_path) as Hparent.
  { intros p (ext & Hp & _)%list_elem_of_bind.
    by apply FsMoreFacts.glob_suffix_elem in Hp as [? _]. }
  destruct png_files as [|p0 l0] eqn:E.
  { simpl. split_and!; try done. intros _ _ p ext Hext Hp.
    assert (p ∈ png_files) as Hin by (apply list_elem_of_bind; eauto).
    rewrite E in Hin. by apply elem_of_nil in Hin. }
  rewrite <- E in *. clear E p0 l0.
  set (archive_folder := subdir (subdir (png_archive_dir self) _) _).
  set (w1 := set_fs _ w).
  set (batch := subdir archive_folder _).
  set (w2 := set_fs _ w1).
  assert (String.prefix (png_archive_dir self) batch = true) as Hbatch.
  { subst batch archive_folder. do 2 apply ArchiveFacts.prefix_subdir_r.
    apply ArchiveFacts.prefix_subdir. }
  assert (∀ q, lookup_file (fs w2) q = lookup_file (fs w) q) as Hw2.
  { intros q. subst w2 w1. simpl. by rewrite !FsMoreFacts.lookup_makedirs. }
  assert (∀ q, String.prefix (png_archive_dir self) (parent q) = false ->
               parent q ≠ batch) as Hout.
  { intros q Hq E. rewrite E in Hq. congruence. }
  assert (∀ p, p ∈ png_files -> parent p ≠ batch) as Hfiles.
  { intros p Hp. apply Hout. rewrite (Hparent p Hp).
    apply input_not_archived_png. }
  destruct (archive_loop_spec env batch png_files 0 w2 Hfiles)
    as (_ & H2 & H3 & _ & H5).
  destruct (archive_loop env batch png_files 0 w2) as [count w3]. simpl in *.
  split_and!.
  - intros q Hq Hpre. rewrite H3, Hw2; [done | by apply Hout |].
    intros Hin. by apply Hparent in Hin.
  - intros q f Hpre Hq. rewrite <- Hw2. apply H2; [by apply Hout | done].
  - intros _ Hcount p ext Hext Hp. apply Nat.eqb_eq in Hcount.
    apply H5; [done|]. apply list_elem_of_bind. eauto.
Qed.

Lemma archive_sent_pdf_spec env self pdf w :
  let archived := archive_sent_pdf env self pdf w in
  (∀ q, parent q ≠ parent pdf ->
        String.prefix (pdf_archive_dir self) (parent q) = false ->
        lookup_file (fs archived.2) q = lookup_file (fs w) q)
  ∧ (archiving_enabled self = true -> archived.1 = true ->
     String.prefix (pdf_archive_dir self) (parent pdf) = false ->
     lookup_file (fs archived.2) pdf = None
     ∧ lookup_file (fs archived.2) (with_suffix pdf ".json") = None).
Proof.
  intros archived. subst archived. unfold archive_sent_pdf.
  destruct (negb (archiving_enabled self)) eqn:Hen.
  { simpl. split; [done|]. intros H. by rewrite H in Hen. }
  destruct (negb (file_exists (fs w) pdf)); [simpl; split; done|].
  set (archive_folder := subdir (subdir (pdf_archive_dir self) _) _).
  set (w1 := set_fs _ w).
  set (destination := joinpath archive_folder _).
  assert (String.prefix (pdf_archive_dir self) archive_folder = true) as Hfolder.
  { subst archive_folder. apply prefix_subdir_r, prefix_subdir. }
  assert (∀ q, lookup_file (fs w1) q = lookup_file (fs w) q) as Hw1.
  { intros q. subst w1. simpl. by rewrite FsMoreFacts.lookup_makedirs. }
  assert (∀ q, String.prefix (pdf_archive_dir self) (parent q) = false ->
               parent q ≠ archive_folder) as Hout.
  { intros q Hq E. rewrite E in Hq. congruence. }
  destruct (move env pdf destination w1) as [w2|] eqn:Hmove1.
  2: { simpl. split; [by intros; rewrite Hw1 | done]. }
  apply move_Some in Hmove1 as (f & Hsrc & Hfs2 & _).
  assert (∀ q, parent q ≠ archive_folder ->
               lookup_file (fs w2) q = lookup_file (unlink (fs w) pdf) q) as Hw2.
  { intros q Hq. rewrite Hfs2, FsMoreFacts.lookup_write_file_dir by (simpl; congruence).
    destruct (decide (pdf = q)) as [<-|Hne].
    - by rewrite !FsFacts.lookup_unlink.
    - by rewrite !FsMoreFacts.lookup_unlink_ne, Hw1. }
  destruct (file_exists (fs w2) (with_suffix pdf ".json")) eqn:Hside.
  - set (metadata_destination := with_suffix destination ".json").
    destruct (move env (with_suffix pdf ".json") metadata_destination w2)
      as [w3|] eqn:Hmove2.
    2: { simpl. split; [|done]. intros q Hq Hpre. rewrite Hw2 by (by apply Hout).
         apply FsMoreFacts.lookup_unlink_ne. intros <-. done. }
    apply move_Some in Hmove2 as (g & _ & Hfs3 & _). simpl.
    assert (∀ q, parent q ≠ archive_folder ->
                 lookup_file (fs w3) q
                 = lookup_file (unlink (fs w2) (with_suffix pdf ".json")) q) as Hw3.
    { intros q Hq. rewrite Hfs3. apply FsMoreFacts.lookup_write_file_dir.
      simpl. congruence. }
    split.
    + intros q Hq Hpre. rewrite Hw3 by (by apply Hout).
      rewrite FsMoreFacts.lookup_unlink_ne by (intros <-; done).
      rewrite Hw2 by (by apply Hout).
      apply FsMoreFacts.lookup_unlink_ne. intros <-. done.
    + intros _ _ Hpre. rewrite !Hw3 by (apply Hout; done). split.
      * destruct (lookup_file (unlink (fs w2) _) pdf) as [h|] eqn:Hh; [|done].
        apply FsMoreFacts.lookup_unlink_Some in Hh.
        rewrite Hw2, FsFacts.lookup_unlink in Hh; [done | by apply Hout].
      * apply FsFacts.lookup_unlink.
  - simpl. split.
    + intros q Hq Hpre. rewrite Hw2 by (by apply Hout).
      apply FsMoreFacts.lookup_unlink_ne. intros <-. done.
    + intros _ _ Hpre. split.
      * rewrite Hw2 by (by apply Hout). apply FsFacts.lookup_unlink.
      * unfold file_exists in Hside. apply bool_decide_eq_false in Hside.
        destruct (lookup_file (fs w2) _); [|done]. exfalso. apply Hside. by eexists.
Qed.

(** After a [True] result with archiving on, the folder has no image. *)
Lemma archive_processed_pngs_empties env config base folder w :
  archiving_enabled (init config base) = true ->
  (archive_processed_pngs env (init config base) folder w).1 = true ->
  Utils.get_png_files (fs (archive_processed_pngs env (init config base) folder w).2)
    (subdir (input_dir (init config base)) folder)
    (png_file_extensions (ConfigManager.processing_config config)) = [].
Proof.
  intros Hen Htrue.
  destruct (archive_processed_pngs_spec env config base folder w)
    as (Hloc & Hmono & Hgone).
  apply elem_of_nil_inv. intros p Hp.
  apply FsMoreFacts.get_png_files_elem in Hp as (Hparent & [f Hf] & ext & Hext & Hend).
  assert (lookup_file (fs w) p = Some f) as Hw.
  { apply Hmono; [|exact Hf]. rewrite Hparent. apply input_not_archived_png. }
  assert (lookup_file (fs (archive_processed_pngs env (init config base) folder w).2) p
          = None) as Hnone.
  { apply (Hgone Hen Htrue p ext Hext).
    apply FsMoreFacts.glob_suffix_elem. split_and!; [done | by eexists | done]. }
  congruence.
Qed.

End ArchiveFacts.

(** X17.  When [archive_processed_pngs] returns [True] with archiving
    switched on, the folder holds no file with one of the image extensions
    any more, so [get_png_files] finds nothing there.  Whatever it returns,
    it only moves files from the folder into the PNG archive: every file
    outside both, the images of the ALL folder among them, is as before, and
    no message is attempted. *)
Theorem archived_folder_has_no_image_left
    (env : Env) (config : ConfigManager.t) (base_path folder : string) (w : World) :
  let self := FileManager.init config base_path in
  let archived := FileManager.archive_processed_pngs env self folder w in
  FileManager.archiving_enabled self = true ->
  archived.1 = true ->
  Utils.get_png_files (fs archived.2) (subdir (FileManager.input_dir self) folder)
    (png_file_extensions (ConfigManager.processing_config config)) = []
  ∧ (∀ q, parent q ≠ subdir (FileManager.input_dir self) folder ->
          String.prefix (FileManager.png_archive_dir self) (parent q) = false ->
          lookup_file (fs archived.2) q = lookup_file (fs w) q)
  ∧ attempts archived.2 = attempts w.
Proof.
  intros self archived Hen Htrue.
  destruct (ArchiveFacts.archive_processed_pngs_spec env config base_path folder w)
    as (Hloc & _ & _).
  split_and!; [|exact Hloc | apply ArchiveFacts.archive_processed_pngs_attempts].
  by apply ArchiveFacts.archive_processed_pngs_empties.
Qed.

Lemma archived_folder_has_no_image_left_witness :
  let self := FileManager.init Examples.config "." in
  let archived := FileManager.archive_processed_pngs Examples.env self "GroupA"
                    Examples.world in
  Utils.get_png_files (fs archived.2) (subdir (FileManager.input_dir self) "GroupA")
    (png_file_extensions (ConfigManager.processing_config Examples.config)) = []
  ∧ (∀ q, parent q ≠ subdir (FileManager.input_dir self) "GroupA" ->
          String.prefix (FileManager.png_archive_dir self) (parent q) = false ->
          lookup_file (fs archived.2) q = lookup_file (fs Examples.world) q)
  ∧ attempts archived.2 = attempts Examples.world.
Proof.
  apply (archived_folder_has_no_image_left Examples.env Examples.config "."
           "GroupA" Examples.world).
  - vm_compute. reflexivity.
  - vm_compute. reflexivity.
Defined.

(** X18.  When [archive_sent_pdf] returns [True] with archiving switched
    on, neither the document nor its sidecar is in the output directory any
    more (for a document that is not itself below the PDF archive).  Whatever
    it returns, files outside the document's directory and the PDF archive
    are as before, and no message is attempted. *)
Theorem archived_document_leaves_output
    (env : Env) (self : FileManager.t) (pdf : Path) (w : World) :
  let archived := FileManager.archive_sent_pdf env self pdf w in
  FileManager.archiving_enabled self = true ->
  archived.1 = true ->
  String.prefix (FileManager.pdf_archive_dir self) (parent pdf) = false ->
  lookup_file (fs archived.2) pdf = None
  ∧ lookup_file (fs archived.2) (with_suffix pdf ".json") = None
  ∧ (∀ q, parent q ≠ parent pdf ->
          String.prefix (FileManager.pdf_archive_dir self) (parent q) = false ->
          lookup_file (fs archived.2) q = lookup_file (fs w) q)
  ∧ attempts archived.2 = attempts w.
Proof.
  intros archived Hen Htrue Hpre.
  destruct (ArchiveFacts.archive_sent_pdf_spec env self pdf w) as [Hloc Hgone].
  destruct (Hgone Hen Htrue Hpre) as [H1 H2].
  split_and!; [exact H1 | exact H2 | exact Hloc |].
  apply ArchiveFacts.archive_sent_pdf_attempts.
Qed.

Lemma archived_document_leaves_output_witness :
  let self := FileManager.init Examples.config "." in
  let archived := FileManager.archive_sent_pdf Examples.env self Examples.report_a
                    Examples.built_world in
  lookup_file (fs archived.2) Examples.report_a = None
  ∧ lookup_file (fs archived.2) (with_suffix Examples.report_a ".json") = None
  ∧ (∀ q, parent q ≠ parent Examples.report_a ->
          String.prefix (FileManager.pdf_archive_dir self) (parent q) = false ->
          lookup_file (fs archived.2) q = lookup_file (fs Examples.built_world) q)
  ∧ attempts archived.2 = attempts Examples.built_world.
Proof.
  apply (archived_document_leaves_output Examples.env
           (FileManager.init Examples.config ".") Examples.report_a
           Examples.built_world).
  - vm_compute. reflexivity.
  - vm_compute. reflexivity.
  - vm_compute. reflexivity.
Defined.

(** ** The pipeline over the modelled file system *)

Module StageFacts.

Import Main.

(** Runs [_process_single_folder] over the components built by
    [Main.components], splitting on what each stage returns and keeping the
    equations. *)
Ltac run_stages :=
  MainFacts.unfold_body; simpl; unfold Main.total;
  repeat (simpl;
    match goal with
    | |- context [PDFGenerator.generate_pdf_for_folder ?e ?s ?f ?w] =>
        destruct (PDFGenerator.generate_pdf_for_folder e s f w) as [[?pdf|] ?w] eqn:?Hbuilt
    | |- context [PDFGenerator.validate_pdf_size ?s ?p ?w] =>
        destruct (PDFGenerator.validate_pdf_size s p w) as [[|] ?w] eqn:?Hchecked
    | |- context [PDFGenerator.get_pdf_metadata ?p ?w] =>
        destruct (PDFGenerator.get_pdf_metadata p w) as [[?md|] ?w] eqn:?Hloaded
    | |- context [EmailSender.send_pdf_emails ?e ?c ?p ?m ?w] =>
        destruct (EmailSender.send_pdf_emails e c p m w) as [[|] ?w] eqn:?Hsent
    | |- context [FileManager.archive_sent_pdf ?e ?s ?p ?w] =>
        destruct (FileManager.archive_sent_pdf e s p w) as [[|] ?w] eqn:?Hpdf
    | |- context [FileManager.archive_processed_pngs ?e ?s ?f ?w] =>
        destruct (FileManager.archive_processed_pngs e s f w) as [[|] ?w] eqn:?Hpngs
    end); simpl.

Lemma fst_eq {A B} (x : A * B) a b : x = (a, b) -> x.1 = a.
Proof. by intros ->. Qed.

Lemma snd_eq {A B} (x : A * B) a b : x = (a, b) -> x.2 = b.
Proof. by intros ->. Qed.

(** The dispatch adds one attempt per mailing entry of the document, or
    none at all when the size check fails. *)
Lemma send_pdf_emails_attempts env config pdf md w :
  let entries :=
    ConfigManager.get_mailing_entries_for_pdf config
      (default (stem pdf) (md_pdf_name md)) in
  attempts (EmailSender.send_pdf_emails env config pdf md w).2
  = attempts w
    ++ if (EmailSender._validate_attachment_size config pdf w).1
       then (λ entry, (pdf, entry)) <$> entries else [].
Proof.
  intros entries. unfold EmailSender.send_pdf_emails. fold entries.
  destruct entries as [|entry rest] eqn:E.
  { simpl. destruct (_ : bool); by rewrite app_nil_r. }
  rewrite <- E.
  pose proof (EmailFacts.validate_attachment_size_effects config pdf w) as Hv.
  destruct (EmailSender._validate_attachment_size config pdf w) as [[|] w1];
    destruct Hv as [_ Ha]; [|simpl; by rewrite app_nil_r].
  cbn [negb fst snd].
  match goal with |- context [EmailSender.send_loop env pdf md ?es 0 ?w0] =>
    pose proof (EmailFacts.send_loop_spec env pdf md es 0 w0) as Hl;
    destruct (EmailSender.send_loop env pdf md es 0 w0) as [count w2] end.
  destruct Hl as (_ & Hat & _). simpl in Hat.
  destruct (count =? _)%nat; simpl; by rewrite Hat, Ha.
Qed.

(** Without mailing entries for the name it is given, the dispatch fails
    and attempts nothing. *)
Lemma send_pdf_emails_no_entries env config pdf md w :
  ConfigManager.get_mailing_entries_for_pdf config
    (default (stem pdf) (md_pdf_name md)) = [] ->
  (EmailSender.send_pdf_emails env config pdf md w).1 = false
  ∧ attempts (EmailSender.send_pdf_emails env config pdf md w).2 = attempts w.
Proof. intros E. unfold EmailSender.send_pdf_emails. by rewrite E. Qed.

(** When the sidecar cannot be written, a build leaves the sidecar path as
    it was. *)
Lemma generate_without_sidecar env self folder w pdf :
  (∀ w p, json_dump_ok env w p = false) ->
  (PDFGenerator.generate_pdf_for_folder env self folder w).1 = Some pdf ->
  lookup_file (fs (PDFGenerator.generate_pdf_for_folder env self folder w).2)
    (with_suffix pdf ".json")
  = lookup_file (fs w) (with_suffix pdf ".json").
Proof.
  intros Hdump. unfold PDFGenerator.generate_pdf_for_folder.
  destruct (ConfigManager.get_pdf_name_for_folder _ _) as [[|c pdf_name]|]; try done.
  destruct (negb (dir_exists _ _)) eqn:Hd; [done|].
  destruct (PDFGenerator.combine_png_files _ _) as [|p l] eqn:E; [done|]. rewrite <- E.
  unfold PDFGenerator._create_pdf.
  match goal with |- context [foldl ?f w ?l] =>
    destruct (DocFacts.page_logs_fs l w) as [Hf Ha]; set (w1 := foldl f w l) in * end.
  destruct (canvas_save_ok env w1 _) eqn:Hsave; simpl; [|done].
  intros [= <-]. unfold PDFGenerator._store_pdf_metadata. rewrite Hdump. simpl.
  rewrite <- !DocFacts.append_assoc.
  rewrite FsFacts.lookup_write_file_ne; [by rewrite Hf|].
  intros E'. by eapply DocFacts.sidecar_differs.
Qed.

End StageFacts.

Module PipelineMoreFacts.

Import Main.

Lemma validate_pdf_size_true self pdf w f :
  lookup_file (fs w) pdf = Some f ->
  (st_size f ≤ max_attachment_size_mb
                 (ConfigManager.general_config (PDFGenerator.config self)) * 1024 * 1024)%Z ->
  PDFGenerator.validate_pdf_size self pdf w = (true, w).
Proof.
  intros Hf Hle. unfold PDFGenerator.validate_pdf_size. rewrite Hf.
  destruct (st_size f >? _)%Z eqn:E; [|done]. apply Z.gtb_lt in E. lia.
Qed.

Lemma validate_attachment_size_true config pdf w f :
  lookup_file (fs w) pdf = Some f ->
  (st_size f ≤ max_attachment_size_mb (ConfigManager.general_config config)
               * 1024 * 1024)%Z ->
  (EmailSender._validate_attachment_size config pdf w).1 = true.
Proof.
  intros Hf Hle. unfold EmailSender._validate_attachment_size, EmailSender.max_bytes.
  rewrite Hf. destruct (st_size f >? _)%Z eqn:E; [|done]. apply Z.gtb_lt in E. lia.
Qed.

Lemma get_pdf_metadata_Some pdf w sidecar metadata :
  lookup_file (fs w) (with_suffix pdf ".json") = Some sidecar ->
  f_content sidecar = Sidecar metadata ->
  PDFGenerator.get_pdf_metadata pdf w = (Some metadata, w).
Proof.
  intros Hs Hc. unfold PDFGenerator.get_pdf_metadata. rewrite Hs.
  destruct sidecar as [c sz mt]. simpl in Hc. by rewrite Hc.
Qed.

Lemma get_pdf_metadata_None pdf w :
  lookup_file (fs w) (with_suffix pdf ".json") = None ->
  PDFGenerator.get_pdf_metadata pdf w = (None, w).
Proof. intros Hs. unfold PDFGenerator.get_pdf_metadata. by rewrite Hs. Qed.

End PipelineMoreFacts.

(** X19.  The pipeline end to end, when the writes go through and the
    document is within the size limit: a folder that has a document name,
    exists and has images is built, and its document is attempted exactly
    once for every mailing entry of the configured document name, in the
    order of the mailing list; archiving, whatever it does, adds no attempt. *)
Theorem document_attempted_once_per_mailing_entry
    (env : Env) (base_path : string)
    (generate_summary : list (string * Main.FolderResult) -> M World string)
    (send_notification : string -> string -> bool -> M World bool)
    (sweep_archives : M World unit) (sweep_pdfs : Z -> M World unit)
    (config : ConfigManager.t) (folder pdf_name : string) (w : World) :
  let self := Main.components env base_path generate_summary send_notification
                sweep_archives sweep_pdfs config in
  let generator := PDFGenerator.init config base_path in
  let merged :=
    PDFGenerator.combine_png_files
      (Utils.get_png_files (fs w) (PDFGenerator.all_folder generator)
         (PDFGenerator.extensions generator))
      (Utils.get_png_files (fs w) (subdir (PDFGenerator.input_dir generator) folder)
         (PDFGenerator.extensions generator)) in
  (∀ w p, canvas_save_ok env w p = true) ->
  (∀ w p, json_dump_ok env w p = true) ->
  ConfigManager.get_pdf_name_for_folder config folder = Some pdf_name ->
  pdf_name ≠ "" ->
  dir_exists (fs w) (subdir (PDFGenerator.input_dir generator) folder) = true ->
  merged ≠ [] ->
  (canvas_bytes env (PDFGenerator.pages_of (fs w) merged)
   ≤ max_attachment_size_mb (ConfigManager.general_config config) * 1024 * 1024)%Z ->
  let result := Main._process_single_folder self folder w in
  ∃ pdf,
    Main.pdf_created result.1 = true
    ∧ Main.pdf_path result.1 = Some (path_str pdf)
    ∧ attempts result.2
      = attempts w
        ++ ((λ entry, (pdf, entry))
              <$> ConfigManager.get_mailing_entries_for_pdf config pdf_name).
Proof.
  intros self generator merged Hsave Hdump Hname Hne Hdir Hmerged Hsize result.
  set (w0 := add_log (LogRecord summary_logger INFO
                        (Text ("Processing folder: " +:+ folder))) w).
  pose proof (BuildFacts.generate_succeeds env generator folder w0 pdf_name
                Hname Hne Hdir Hmerged (Hsave _ _)) as Hbuilt.
  set (pdf := joinpath _ _) in Hbuilt.
  pose proof (BuildFacts.generate_Some env generator folder w0 pdf Hbuilt)
    as (name' & Hname' & _ & _ & _ & _ & _ & Hdoc & Hat).
  pose proof (BuildFacts.generate_sidecar env generator folder w0 pdf Hdump Hbuilt)
    as (sidecar & Hside & Hcontent).
  exists pdf. subst result self.
  MainFacts.unfold_body. simpl. unfold Main.total. fold generator. fold w0.
  destruct (PDFGenerator.generate_pdf_for_folder env generator folder w0)
    as [built w1]. simpl in Hbuilt, Hdoc, Hat, Hside. subst built. simpl.
  rewrite (PipelineMoreFacts.validate_pdf_size_true generator pdf w1 _ Hdoc) by exact Hsize.
  simpl.
  rewrite (PipelineMoreFacts.get_pdf_metadata_Some pdf w1 _ _ Hside Hcontent). simpl.
  match goal with |- context [EmailSender.send_pdf_emails env config pdf ?md w1] =>
    pose proof (StageFacts.send_pdf_emails_attempts env config pdf md w1) as Hsent;
    destruct (EmailSender.send_pdf_emails env config pdf md w1) as [sent w2]
  end.
  rewrite (PipelineMoreFacts.validate_attachment_size_true config pdf w1 _ Hdoc)
    in Hsent by exact Hsize.
  simpl in Hsent. fold generator in Hsent. rewrite Hname in Hsent. simpl in Hsent.
  destruct sent; simpl.
  - pose proof (ArchiveFacts.archive_sent_pdf_attempts env
                  (FileManager.init config base_path) pdf w2) as H1.
    destruct (FileManager.archive_sent_pdf env _ pdf w2) as [a1 w3]. simpl in H1.
    pose proof (ArchiveFacts.archive_processed_pngs_attempts env
                  (FileManager.init config base_path) folder w3) as H2.
    destruct (FileManager.archive_processed_pngs env _ folder w3) as [a2 w4].
    simpl in H2. destruct a1, a2; simpl; split_and!; try done; congruence.
  - split_and!; try done. congruence.
Qed.

Lemma document_attempted_once_per_mailing_entry_witness :
  let result := Main._process_single_folder (Examples.orchestrator Examples.config)
                  "GroupA" Examples.world in
  ∃ pdf,
    Main.pdf_created result.1 = true
    ∧ Main.pdf_path result.1 = Some (path_str pdf)
    ∧ attempts result.2
      = attempts Examples.world
        ++ ((λ entry, (pdf, entry))
              <$> ConfigManager.get_mailing_entries_for_pdf Examples.config "Report-A").
Proof.
  apply (document_attempted_once_per_mailing_entry Examples.env "."
           (λ _, ret "summary") (λ _ _ _, ret true) pass (λ _, pass)
           Examples.config "GroupA" "Report-A" Examples.world).
  - reflexivity.
  - reflexivity.
  - vm_compute. reflexivity.
  - discriminate.
  - vm_compute. reflexivity.
  - vm_compute. discriminate.
  - vm_compute. discriminate.
Defined.

Module RelistFacts.

Import Main.

(** Directories other than the output directory are, as maps, untouched by
    the build. *)
Lemma generate_dir env self folder w d :
  d ≠ PDFGenerator.output_dir self ->
  fs (PDFGenerator.generate_pdf_for_folder env self folder w).2 !! d = fs w !! d.
Proof.
  intros Hd. unfold PDFGenerator.generate_pdf_for_folder.
  destruct (ConfigManager.get_pdf_name_for_folder _ _) as [[|c pdf_name]|]; try done.
  destruct (negb (dir_exists _ _)); [done|].
  destruct (PDFGenerator.combine_png_files _ _) as [|p l] eqn:E; [done|]. rewrite <- E.
  unfold PDFGenerator._create_pdf.
  match goal with |- context [foldl ?f w ?l] =>
    destruct (DocFacts.page_logs_fs l w) as [Hf Ha]; set (w1 := foldl f w l) in * end.
  destruct (canvas_save_ok env w1 _); simpl; [|by rewrite Hf].
  unfold PDFGenerator._store_pdf_metadata.
  destruct (json_dump_ok env _ _); simpl; unfold write_file; simpl;
    rewrite ?lookup_insert_ne by done; by rewrite Hf.
Qed.

(** The listing of a directory depends on that directory only. *)
Lemma get_png_files_dir fs1 fs2 d extensions :
  fs1 !! d = fs2 !! d ->
  Utils.get_png_files fs1 d extensions = Utils.get_png_files fs2 d extensions.
Proof.
  intros E. unfold Utils.get_png_files, dir_exists, Utils.glob_suffix, listdir.
  by rewrite E.
Qed.

Lemma get_folders_dir self w1 w2 :
  (∀ folder, fs w1 !! subdir (PDFGenerator.input_dir self) folder
             = fs w2 !! subdir (PDFGenerator.input_dir self) folder) ->
  PDFGenerator.get_folders_with_new_pngs self w1
  = PDFGenerator.get_folders_with_new_pngs self w2.
Proof.
  intros E. unfold PDFGenerator.get_folders_with_new_pngs.
  apply filter_ext. intros folder.
  rewrite (get_png_files_dir (fs w1) (fs w2)) by apply E.
  unfold dir_exists. by rewrite E.
Qed.

Lemma prefix_refl a : String.prefix a a = true.
Proof. induction a as [|c a IH]; simpl; [done|]. by destruct (ascii_dec c c). Qed.

(** An input folder is not the output directory. *)
Lemma input_not_output config base folder :
  subdir (PDFGenerator.input_dir (PDFGenerator.init config base)) folder
  ≠ PDFGenerator.output_dir (PDFGenerator.init config base).
Proof.
  unfold PDFGenerator.init, subdir. simpl. intros E.
  pose proof (prefix_refl (base +:+ "/" +:+ "Output/PDFs")) as H.
  rewrite <- E in H at 2.
  rewrite !DocFacts.append_assoc, ArchiveFacts.prefix_cancel in H. discriminate.
Qed.

Section generic.
Context {W : Type} (self : Components W).

(** A folder reported as archived went through [archive_processed_pngs],
    which returned [True]; after it only log records were written. *)
Lemma archived_after_pngs folder w :
  files_archived (_process_single_folder self folder w).1 = true ->
  error (_process_single_folder self folder w).1 = None
  ∧ ∃ w6 w7,
      archive_processed_pngs self folder w6 = (Ret true, w7)
      ∧ ∀ V (view : W -> V),
          (∀ r w, view (log self r w) = view w) ->
          view (_process_single_folder self folder w).2 = view w7.
Proof.
  MainFacts.unfold_body.
  repeat (simpl;
    match goal with
    | |- context [generate_pdf_for_folder self ?f ?w] =>
        destruct (generate_pdf_for_folder self f w) as [[[?|]|?] ?]
    | |- context [validate_pdf_size self ?p ?w] =>
        destruct (validate_pdf_size self p w) as [[[|]|?] ?]
    | |- context [get_pdf_metadata self ?p ?w] =>
        destruct (get_pdf_metadata self p w) as [[[?|]|?] ?]
    | |- context [send_pdf_emails self ?p ?m ?w] =>
        destruct (send_pdf_emails self p m w) as [[[|]|?] ?]
    | |- context [archive_sent_pdf self ?p ?w] =>
        destruct (archive_sent_pdf self p w) as [[[|]|?] ?]
    | |- context [archive_processed_pngs self ?f ?w] =>
        destruct (archive_processed_pngs self f w) as [[[|]|?] ?] eqn:?Hpngs
    end); simpl; try discriminate; intros _; (split; [done|]);
    eexists _, _; (split; [eassumption|]); intros V view Hlog; by rewrite ?Hlog.
Qed.

End generic.

End RelistFacts.

(** X20.  With archiving switched on, a folder reported as archived holds
    no image any more when its processing ends, so the next run's
    [get_folders_with_new_pngs] does not list it and its document is not sent
    twice; its error field is empty. *)
Theorem archived_folder_is_not_listed_again
    (env : Env) (base_path : string)
    (generate_summary : list (string * Main.FolderResult) -> M World string)
    (send_notification : string -> string -> bool -> M World bool)
    (sweep_archives : M World unit) (sweep_pdfs : Z -> M World unit)
    (config : ConfigManager.t) (folder : string) (w : World) :
  let self := Main.components env base_path generate_summary send_notification
                sweep_archives sweep_pdfs config in
  let generator := PDFGenerator.init config base_path in
  let result := Main._process_single_folder self folder w in
  archive_after_processing (ConfigManager.processing_config config) = true ->
  Main.files_archived result.1 = true ->
  Main.error result.1 = None
  ∧ Utils.get_png_files (fs result.2) (subdir (PDFGenerator.input_dir generator) folder)
      (PDFGenerator.extensions generator) = []
  ∧ folder ∉ PDFGenerator.get_folders_with_new_pngs generator result.2.
Proof.
  intros self generator result Hen Harchived.
  destruct (RelistFacts.archived_after_pngs self folder w Harchived)
    as (Herror & w6 & w7 & Hpngs & Hview).
  simpl in Hpngs. rewrite PipelineFacts.total_eq in Hpngs.
  injection Hpngs as Htrue Hw7.
  assert (Utils.get_png_files (fs result.2)
            (subdir (PDFGenerator.input_dir generator) folder)
            (PDFGenerator.extensions generator) = []) as Hnone.
  { subst result. rewrite (Hview _ fs) by done. rewrite <- Hw7.
    by apply ArchiveFacts.archive_processed_pngs_empties. }
  split_and!; [done | done |].
  unfold PDFGenerator.get_folders_with_new_pngs.
  intros [_ Hf]%list_elem_of_In%filter_In. rewrite Hnone in Hf.
  by rewrite andb_false_r in Hf.
Qed.

Lemma archived_folder_is_not_listed_again_witness :
  let self := Main.components Examples.env "." (λ _, ret "summary") (λ _ _ _, ret true)
                pass (λ _, pass) Examples.config_two_folders in
  let generator := PDFGenerator.init Examples.config_two_folders "." in
  let result := Main._process_single_folder self "GroupA" Examples.world in
  Main.error result.1 = None
  ∧ Utils.get_png_files (fs result.2) (subdir (PDFGenerator.input_dir generator) "GroupA")
      (PDFGenerator.extensions generator) = []
  ∧ "GroupA" ∉ PDFGenerator.get_folders_with_new_pngs generator result.2.
Proof.
  apply (archived_folder_is_not_listed_again Examples.env "."
           (λ _, ret "summary") (λ _ _ _, ret true) pass (λ _, pass)
           Examples.config_two_folders "GroupA" Examples.world).
  - vm_compute. reflexivity.
  - vm_compute. reflexivity.
Defined.

(** X21.  With archiving switched off, a folder whose dispatch succeeded is
    still reported as archived, without error, although no file was moved:
    the folders [get_folders_with_new_pngs] lists afterwards are those it
    listed before, so the same images are built and sent again by the next
    run. *)
Theorem archiving_disabled_keeps_folder_listed
    (env : Env) (base_path : string)
    (generate_summary : list (string * Main.FolderResult) -> M World string)
    (send_notification : string -> string -> bool -> M World bool)
    (sweep_archives : M World unit) (sweep_pdfs : Z -> M World unit)
    (config : ConfigManager.t) (folder : string) (w : World) :
  let self := Main.components env base_path generate_summary send_notification
                sweep_archives sweep_pdfs config in
  let generator := PDFGenerator.init config base_path in
  let result := Main._process_single_folder self folder w in
  archive_after_processing (ConfigManager.processing_config config) = false ->
  Main.emails_sent result.1 = true ->
  Main.files_archived result.1 = true
  ∧ Main.error result.1 = None
  ∧ PDFGenerator.get_folders_with_new_pngs generator result.2
    = PDFGenerator.get_folders_with_new_pngs generator w.
Proof.
  intros self generator result Hdis.
  set (w0 := add_log (LogRecord summary_logger INFO
                        (Text ("Processing folder: " +:+ folder))) w).
  assert (∀ w', fs w' = fs (PDFGenerator.generate_pdf_for_folder env generator folder w0).2 ->
                PDFGenerator.get_folders_with_new_pngs generator w'
                = PDFGenerator.get_folders_with_new_pngs generator w) as Hsame.
  { intros w' E. apply RelistFacts.get_folders_dir. intros f. rewrite E.
    apply (RelistFacts.generate_dir env generator folder w0).
    apply RelistFacts.input_not_output. }
  subst result self. revert Hsame.
  MainFacts.unfold_body. simpl. unfold Main.total. fold generator. fold w0.
  destruct (PDFGenerator.generate_pdf_for_folder env generator folder w0)
    as [[pdf|] w1]; simpl; [|discriminate].
  pose proof (PipelineFacts.validate_pdf_size_effects generator pdf w1) as [Hv _].
  destruct (PDFGenerator.validate_pdf_size generator pdf w1) as [[|] w2];
    simpl in *; [|discriminate].
  pose proof (PipelineFacts.get_pdf_metadata_effects pdf w2) as [Hm _].
  assert (∀ md w3, fs w3 = fs w1 ->
    ∀ sent w4, EmailSender.send_pdf_emails env config pdf md w3 = (sent, w4) ->
    ∀ a1 w5, FileManager.archive_sent_pdf env (FileManager.init config base_path) pdf w4
             = (a1, w5) ->
    ∀ a2 w6, FileManager.archive_processed_pngs env (FileManager.init config base_path)
               folder w5 = (a2, w6) ->
    sent = true -> a1 = true ∧ a2 = true ∧ fs w6 = fs w1) as Hrest.
  { intros md w3 E3 sent w4 Hsent a1 w5 H1 a2 w6 H2 ->.
    pose proof (PipelineFacts.send_pdf_emails_fs env config pdf md w3) as Hs.
    rewrite Hsent in Hs. simpl in Hs.
    destruct (ArchiveFacts.archive_disabled env (FileManager.init config base_path)
                folder pdf w4 Hdis) as (E1 & _ & _).
    rewrite E1 in H1. injection H1 as <- <-.
    destruct (ArchiveFacts.archive_disabled env (FileManager.init config base_path)
                folder pdf w4 Hdis) as (_ & E2 & E3').
    rewrite H2 in E2, E3'. simpl in E2, E3'. split_and!; congruence. }
  set (manager := FileManager.init config base_path) in *.
  destruct (PDFGenerator.get_pdf_metadata pdf w2) as [[md|] w3]; simpl in *.
  - destruct (EmailSender.send_pdf_emails env config pdf md w3) as [[|] w4] eqn:Hsent;
      simpl; [|discriminate].
    destruct (FileManager.archive_sent_pdf env manager pdf w4) as [a1 w5] eqn:H1.
    destruct (FileManager.archive_processed_pngs env manager folder w5)
      as [a2 w6] eqn:H2.
    destruct (Hrest md w3 (eq_trans Hm Hv) _ _ Hsent _ _ H1 _ _ H2 eq_refl)
      as (-> & -> & Hfs).
    simpl. intros Hsame _. split_and!; [done | done |]. by apply Hsame.
  - match goal with |- context [EmailSender.send_pdf_emails env config pdf ?md ?w3'] =>
      destruct (EmailSender.send_pdf_emails env config pdf md w3') as [[|] w4] eqn:Hsent
    end; simpl; [|discriminate].
    destruct (FileManager.archive_sent_pdf env manager pdf w4) as [a1 w5] eqn:H1.
    destruct (FileManager.archive_processed_pngs env manager folder w5)
      as [a2 w6] eqn:H2.
    match type of Hsent with EmailSender.send_pdf_emails _ _ _ ?md ?w3' = _ =>
      destruct (Hrest md w3' (eq_trans Hm Hv) _ _ Hsent _ _ H1 _ _ H2 eq_refl)
        as (-> & -> & Hfs)
    end.
    simpl. intros Hsame _. split_and!; [done | done |]. by apply Hsame.
Qed.

Lemma archiving_disabled_keeps_folder_listed_witness :
  let self := Main.components Examples.env "." (λ _, ret "summary") (λ _ _ _, ret true)
                pass (λ _, pass) MoreExamples.config_no_archive in
  let generator := PDFGenerator.init MoreExamples.config_no_archive "." in
  let result := Main._process_single_folder self "GroupA" Examples.world in
  Main.files_archived result.1 = true
  ∧ Main.error result.1 = None
  ∧ PDFGenerator.get_folders_with_new_pngs generator result.2
    = PDFGenerator.get_folders_with_new_pngs generator Examples.world.
Proof.
  apply (archiving_disabled_keeps_folder_listed Examples.env "."
           (λ _, ret "summary") (λ _ _ _, ret true) pass (λ _, pass)
           MoreExamples.config_no_archive "GroupA" Examples.world).
  - vm_compute. reflexivity.
  - vm_compute. reflexivity.
Defined.

(** X22.  When the sidecar of a freshly built document cannot be written
    (and the output directory held no file before), the pipeline looks the
    mailing entries up under the folder name instead of the document name:
    unless some entry is named like the folder, nothing is attempted and the
    folder ends with [emails_sent] false and an error, although entries for
    its document may exist. *)
Theorem missing_sidecar_dispatches_under_folder_name
    (env : Env) (base_path : string)
    (generate_summary : list (string * Main.FolderResult) -> M World string)
    (send_notification : string -> string -> bool -> M World bool)
    (sweep_archives : M World unit) (sweep_pdfs : Z -> M World unit)
    (config : ConfigManager.t) (folder : string) (w : World) :
  let self := Main.components env base_path generate_summary send_notification
                sweep_archives sweep_pdfs config in
  let generator := PDFGenerator.init config base_path in
  let result := Main._process_single_folder self folder w in
  (∀ w p, json_dump_ok env w p = false) ->
  (∀ q, parent q = PDFGenerator.output_dir generator -> lookup_file (fs w) q = None) ->
  ConfigManager.get_mailing_entries_for_pdf config folder = [] ->
  Main.emails_sent result.1 = false
  ∧ Main.files_archived result.1 = false
  ∧ attempts result.2 = attempts w
  ∧ (Main.pdf_created result.1 = true ->
     Main.error result.1 = Some "Email sending failed"
     ∨ Main.error result.1 = Some "PDF size validation failed").
Proof.
  intros self generator result Hdump Hempty Hentries.
  set (w0 := add_log (LogRecord summary_logger INFO
                        (Text ("Processing folder: " +:+ folder))) w).
  pose proof (BuildFacts.generate_None env generator folder w0) as Hnone.
  pose proof (λ pdf, BuildFacts.generate_Some env generator folder w0 pdf) as Hsome.
  pose proof (λ pdf, StageFacts.generate_without_sidecar env generator folder w0 pdf Hdump)
    as Hside.
  subst result self.
  MainFacts.unfold_body. simpl. unfold Main.total. fold generator. fold w0.
  destruct (PDFGenerator.generate_pdf_for_folder env generator folder w0)
    as [[pdf|] w1]; simpl in *.
  2: { destruct (Hnone eq_refl) as [_ ->]. split_and!; done. }
  destruct (Hsome pdf eq_refl) as (doc & _ & _ & _ & _ & Hpdf & _ & _ & Hat).
  specialize (Hside pdf eq_refl).
  rewrite (Hempty (with_suffix pdf ".json")) in Hside by (by rewrite Hpdf).
  pose proof (PipelineFacts.validate_pdf_size_effects generator pdf w1) as [Hvf Hva].
  destruct (PDFGenerator.validate_pdf_size generator pdf w1) as [[|] w2]; simpl in *.
  2: { split_and!; try done; [congruence | auto]. }
  rewrite (PipelineMoreFacts.get_pdf_metadata_None pdf w2) by (by rewrite Hvf).
  simpl.
  match goal with |- context [EmailSender.send_pdf_emails env config pdf ?md ?w3] =>
    destruct (StageFacts.send_pdf_emails_no_entries env config pdf md w3 Hentries)
      as [Hfalse Hsa];
    destruct (EmailSender.send_pdf_emails env config pdf md w3) as [sent w4]
  end.
  simpl in Hfalse, Hsa. subst sent. simpl.
  split_and!; try done; [congruence | auto].
Qed.

Lemma missing_sidecar_dispatches_under_folder_name_witness :
  let env := MoreExamples.env_without_sidecar in
  let self := Main.components env "." (λ _, ret "summary") (λ _ _ _, ret true)
                pass (λ _, pass) Examples.config in
  let result := Main._process_single_folder self "GroupA" Examples.world in
  Main.emails_sent result.1 = false
  ∧ Main.files_archived result.1 = false
  ∧ attempts result.2 = attempts Examples.world
  ∧ (Main.pdf_created result.1 = true ->
     Main.error result.1 = Some "Email sending failed"
     ∨ Main.error result.1 = Some "PDF size validation failed").
Proof.
  apply (missing_sidecar_dispatches_under_folder_name MoreExamples.env_without_sidecar "."
           (λ _, ret "summary") (λ _ _ _, ret true) pass (λ _, pass)
           Examples.config "GroupA" Examples.world).
  - reflexivity.
  - intros [d n] Hd. simpl in Hd. subst d. vm_compute. reflexivity.
  - vm_compute. reflexivity.
Defined.

(** ** The outcome record and the exit code *)

Module OutcomeFacts.

Import Main.

Lemma filter_length_eq {A} (f : A -> bool) l :
  length (List.filter f l) = length l <-> ∀ x, x ∈ l -> f x = true.
Proof.
  induction l as [|x l IH]; simpl.
  - split; [by intros _ x ?%elem_of_nil | done].
  - pose proof (List.filter_length_le f l) as Hle. destruct (f x) eqn:Hx; simpl.
    + split.
      * intros [= H]. intros y [->|Hy]%elem_of_cons; [done|]. by apply IH.
      * intros H. f_equal. apply IH. intros y Hy. apply H. by right.
    + split; [lia|]. intros H. rewrite H in Hx; [done | by left].
Qed.

End OutcomeFacts.

(** X23.  The outcome record [_process_single_folder] returns, whatever the
    components do (raising included): it carries the folder's name; the error
    field is empty exactly when the folder was archived; a folder whose
    messages were sent has a document, and a folder has a document path
    exactly when a document was created; and an outcome without an end time
    stopped before the dispatch. *)
Theorem outcome_record_invariants {W : Type}
    (self : Main.Components W) (folder : string) (w : W) :
  let result := (Main._process_single_folder self folder w).1 in
  Main.folder_name result = folder
  ∧ (Main.error result = None <-> Main.files_archived result = true)
  ∧ (Main.emails_sent result = true -> Main.pdf_created result = true)
  ∧ (Main.pdf_created result = true <-> is_Some (Main.pdf_path result))
  ∧ (Main.end_time result = None ->
     Main.emails_sent result = false ∧ is_Some (Main.error result)).
Proof.
  intros result. subst result. MainFacts.unfold_body.
  MainFacts.split_calls self; simpl;
    (split_and!; [done | split; done | done | split; (done || by intros [? ?] || by eauto)
                 | intros; (done || by eauto)]).
Qed.

(** X24.  The exit code of a full run is 0 exactly when the run returned
    and every folder it processed has [emails_sent] set (in particular when
    it processed no folder); an archiving failure, which sets the error field
    but not [emails_sent], does not change it.  A run that raised exits
    with 1. *)
Theorem exit_code_counts_sent_folders
    (o : outcome (list (string * Main.FolderResult))) :
  Main.exit_code o = 0%Z
  <-> ∃ results, o = Ret results
                 ∧ ∀ r, r ∈ PyDict.values results -> Main.emails_sent r = true.
Proof.
  destruct o as [results|e]; simpl.
  - assert (length results = length (PyDict.values results)) as ->.
    { unfold PyDict.values. by rewrite length_fmap. }
    destruct (_ =? _)%nat eqn:E.
    + apply Nat.eqb_eq in E.
      pose proof (proj1 (OutcomeFacts.filter_length_eq _ _) E) as H.
      split; [|done]. intros _. eauto.
    + apply Nat.eqb_neq in E. split; [done|]. intros (rs & [= <-] & H).
      destruct E. by apply (proj2 (OutcomeFacts.filter_length_eq _ _)).
  - split; [done|]. by intros (rs & ? & _).
Qed.

(** ** The command line *)

Module CliFacts.

Import PyStr Cli.

Lemma lower_char_lower_char c : lower_char (lower_char c) = lower_char c.
Proof. destruct c as [[] [] [] [] [] [] [] []]; vm_compute; reflexivity. Qed.

Lemma chars_lower s : chars (lower s) = map lower_char (chars s).
Proof. unfold lower. apply UtilsFacts.chars_str. Qed.

Lemma lower_append a b : lower (a +:+ b) = lower a +:+ lower b.
Proof.
  apply AddressFacts.chars_inj.
  by rewrite AddressFacts.chars_append, !chars_lower, AddressFacts.chars_append, map_app.
Qed.

Lemma after_colon_sublist l c : c ∈ after_colon l -> c ∈ l.
Proof.
  induction l as [|a l IH]; simpl; [done|].
  destruct (Ascii.eqb a ":"); intros H; right; auto.
Qed.

Section generic.
Context {W : Type} (self : Main.Components W).

(** Every error text [_process_single_folder] records is non-empty. *)
Lemma error_truthy folder w :
  ConfigManager.truthy (Main.error (Main._process_single_folder self folder w).1)
  = negb (Main.files_archived (Main._process_single_folder self folder w).1).
Proof. MainFacts.unfold_body. MainFacts.split_calls self; reflexivity. Qed.

End generic.

End CliFacts.

(** X25.  The folder named on the command line is processed under its
    lower-case form: [folder:NAME] selects [NAME.lower()], and every folder
    name [main()] passes on is equal to its own lower-case form.  A folder
    whose configured name contains an upper-case letter can therefore not be
    selected this way. *)
Theorem folder_command_is_lowercased :
  (∀ name, Cli.parse ("folder:" +:+ name) = Cli.Folder (PyStr.lower name))
  ∧ ∀ argv1 name, Cli.parse argv1 = Cli.Folder name -> PyStr.lower name = name.
Proof.
  split.
  - intros name. unfold Cli.parse. rewrite CliFacts.lower_append.
    change (PyStr.lower "folder:") with "folder:".
    assert (("folder:" +:+ PyStr.lower name =? "diagnostics") = false) as ->.
    { apply String.eqb_neq. intros E. apply (f_equal PyStr.chars) in E.
      rewrite AddressFacts.chars_append in E. discriminate E. }
    rewrite ArchiveFacts.prefix_append, AddressFacts.chars_append.
    change (Cli.after_colon (PyStr.chars "folder:" ++ PyStr.chars (PyStr.lower name)))
      with (PyStr.chars (PyStr.lower name)).
    by rewrite UtilsFacts.str_chars.
  - intros argv1 name. unfold Cli.parse. destruct (_ =? _); [done|].
    destruct (String.prefix _ _); [|done]. intros [= <-].
    apply AddressFacts.chars_inj.
    rewrite CliFacts.chars_lower, UtilsFacts.chars_str.
    apply AddressFacts.map_id_on, Forall_forall. intros c Hc.
    apply CliFacts.after_colon_sublist in Hc. rewrite CliFacts.chars_lower in Hc.
    apply list_elem_of_fmap in Hc as (c0 & -> & _).
    apply CliFacts.lower_char_lower_char.
Qed.

(** X26.  [process_specific_folder] does not process a folder that is not a
    key of the folder table: it returns a dictionary with only an error, the
    command exits with 1, and apart from two log records nothing changes,
    whatever the components are. *)
Theorem unknown_folder_is_not_processed {W : Type}
    (self : Main.Components W) (config : ConfigManager.t) (folder : string) (w : W) :
  folder ∉ ConfigManager.get_all_folder_names config ->
  let processed := Cli.process_specific_folder self config folder w in
  processed.1
  = Cli.OnlyError ("Folder '" +:+ folder +:+ "' not found in configuration")
  ∧ Cli.folder_exit_code (Ret processed.1) = 1%Z
  ∧ ∀ V (view : W -> V),
      (∀ r w, view (Main.log self r w) = view w) -> view processed.2 = view w.
Proof.
  intros Hnot processed. subst processed. unfold Cli.process_specific_folder.
  rewrite bool_decide_eq_false_2 by done. simpl. split_and!; [done | done |].
  intros V view Hlog. by rewrite !Hlog.
Qed.

Lemma unknown_folder_is_not_processed_witness :
  let processed := Cli.process_specific_folder
                     (Examples.orchestrator Examples.config) Examples.config
                     "groupa" Examples.world in
  processed.1 = Cli.OnlyError "Folder 'groupa' not found in configuration"
  ∧ Cli.folder_exit_code (Ret processed.1) = 1%Z
  ∧ fs processed.2 = fs Examples.world
  ∧ attempts processed.2 = attempts Examples.world.
Proof.
  intros processed.
  destruct (unknown_folder_is_not_processed (Examples.orchestrator Examples.config)
              Examples.config "groupa" Examples.world) as (H1 & H2 & H3).
  - vm_compute. intros H. repeat (apply elem_of_cons in H as [H|H]; [discriminate|]).
    by apply elem_of_nil in H.
  - split_and!; [exact H1 | exact H2 | by apply (H3 _ fs) | by apply (H3 _ attempts)].
Defined.

(** X27.  For a folder of the folder table, [process_specific_folder]
    returns the outcome of [_process_single_folder], and the command exits
    with 0 exactly when the folder was archived, since the error field is
    then empty; when it is, no error notification is sent and the state is
    the one [_process_single_folder] left.  (The full run, by contrast,
    counts a folder as successful as soon as its messages were sent.) *)
Theorem folder_command_succeeds_iff_archived {W : Type}
    (self : Main.Components W) (config : ConfigManager.t) (folder : string) (w : W) :
  folder ∈ ConfigManager.get_all_folder_names config ->
  let started := Main.log self (LogRecord summary_logger INFO
                                  (Text ("Processing specific folder: " +:+ folder))) w in
  let outcome := Main._process_single_folder self folder started in
  let processed := Cli.process_specific_folder self config folder w in
  processed.1 = Cli.Processed outcome.1
  ∧ (Cli.folder_exit_code (Ret processed.1) = 0%Z <-> Main.files_archived outcome.1 = true)
  ∧ (Main.files_archived outcome.1 = true -> processed.2 = outcome.2).
Proof.
  intros Hin started outcome processed.
  pose proof (CliFacts.error_truthy self folder started) as Htruthy.
  fold outcome in Htruthy.
  subst processed. unfold Cli.process_specific_folder.
  rewrite bool_decide_eq_true_2 by done. simpl. fold started. fold outcome.
  destruct outcome as [r w1]. simpl in *.
  destruct (Main.error r) as [e|] eqn:He; simpl in Htruthy.
  - destruct (negb (e =? "")) eqn:Hne; simpl; rewrite He; simpl; rewrite Hne.
    + split_and!; [done | | ].
      * split; [done|]. intros H. by rewrite H in Htruthy.
      * intros H. by rewrite H in Htruthy.
    + split_and!; [done | | done].
      split; [|done]. intros _. by destruct (Main.files_archived r).
  - simpl. rewrite He. simpl. split_and!; [done | | done].
    split; [|done]. intros _. by destruct (Main.files_archived r).
Qed.

Lemma folder_command_succeeds_iff_archived_witness :
  let processed := Cli.process_specific_folder
                     (Examples.orchestrator Examples.config_two_folders)
                     Examples.config_two_folders "GroupA" Examples.world in
  Cli.folder_exit_code (Ret processed.1) = 0%Z.
Proof.
  intros processed.
  destruct (folder_command_succeeds_iff_archived
              (Examples.orchestrator Examples.config_two_folders)
              Examples.config_two_folders "GroupA" Examples.world) as (_ & H & _).
  - vm_compute. right. by left.
  - apply H. vm_compute. reflexivity.
Defined.

(** ** The sweep of the output directory *)

Module SweepFacts.

Import OutputSweep.

Lemma prefix_cons a s b t :
  String.prefix (String a s) (String b t)
  = if Ascii.eqb a b then String.prefix s t else false.
Proof.
  change (String.prefix (String a s) (String b t))
    with (if ascii_dec a b then String.prefix s t else false).
  destruct (ascii_dec a b) as [->|Hne].
  - by rewrite Ascii.eqb_refl.
  - apply Ascii.eqb_neq in Hne. by rewrite Hne.
Qed.

Lemma pdf_not_json n :
  PyStr.endswith n ".pdf" = true -> PyStr.endswith n ".json" = true -> False.
Proof.
  unfold PyStr.endswith.
  change (String.rev ".pdf") with "fdp.". change (String.rev ".json") with "nosj.".
  destruct (String.rev n) as [|c t]; [intros H; by vm_compute in H|].
  rewrite !prefix_cons.
  destruct (Ascii.eqb "f" c) eqn:E; [|done]. apply Ascii.eqb_eq in E as <-.
  intros _ H. by vm_compute in H.
Qed.

(** The files the sweep goes through: each once, all of them present. *)
Lemma swept_files_NoDup fs d :
  NoDup (Utils.glob_suffix fs d ".pdf" ++ Utils.glob_suffix fs d ".json").
Proof.
  apply NoDup_app. split_and!; try apply FsMoreFacts.glob_suffix_NoDup.
  intros p (_ & _ & H1)%FsMoreFacts.glob_suffix_elem
           (_ & _ & H2)%FsMoreFacts.glob_suffix_elem.
  by eapply pdf_not_json.
Qed.

Lemma swept_files_elem fs d p :
  p ∈ Utils.glob_suffix fs d ".pdf" ++ Utils.glob_suffix fs d ".json"
  <-> parent p = d ∧ is_Some (lookup_file fs p)
      ∧ (PyStr.endswith (name p) ".pdf" = true ∨ PyStr.endswith (name p) ".json" = true).
Proof.
  rewrite elem_of_app, !FsMoreFacts.glob_suffix_elem. tauto.
Qed.

Lemma sweep_loop_spec env cutoff_date files : ∀ count w,
  let swept := sweep_loop env cutoff_date files count w in
  attempts swept.2 = attempts w
  ∧ (∀ q f, lookup_file (fs swept.2) q = Some f -> lookup_file (fs w) q = Some f)
  ∧ (∀ q f, lookup_file (fs w) q = Some f ->
            q ∉ files ∨ (cutoff_date ≤ st_mtime f)%Z ->
            lookup_file (fs swept.2) q = Some f)
  ∧ ((∀ w p, unlink_goes_through env w p = true) ->
     NoDup files ->
     (∀ p, p ∈ files -> is_Some (lookup_file (fs w) p)) ->
     (∃ cleaned_count, swept.1 = Ret cleaned_count)
     ∧ ∀ p f, p ∈ files -> lookup_file (fs swept.2) p = Some f ->
              (cutoff_date ≤ st_mtime f)%Z).
Proof.
  induction files as [|p rest IH]; intros count w; simpl.
  - split_and!; try done. intros _ _ _. split; [by eexists|].
    by intros p f ?%elem_of_nil.
  - destruct (lookup_file (fs w) p) as [g|] eqn:Hp.
    2: { simpl. split_and!; try done. intros _ _ Hall.
         destruct (Hall p) as [? ?]; [by left | congruence]. }
    destruct (st_mtime g <? cutoff_date)%Z eqn:Hold.
    + apply Z.ltb_lt in Hold.
      destruct (unlink_goes_through env w p) eqn:Hgo.
      2: { simpl. split_and!; try done. intros Hall. by rewrite Hall in Hgo. }
      set (w1 := log_file_operation _ (set_fs _ w)).
      destruct (IH (S count) w1) as (H1 & H2 & H3 & H4).
      assert (∀ q, lookup_file (fs w1) q = lookup_file (unlink (fs w) p) q) as Hw1 by done.
      split_and!.
      * by rewrite H1.
      * intros q f Hq. apply H2 in Hq. rewrite Hw1 in Hq.
        by apply FsMoreFacts.lookup_unlink_Some in Hq.
      * intros q f Hq Hkeep. apply H3.
        -- rewrite Hw1. rewrite FsMoreFacts.lookup_unlink_ne; [done|].
           intros ->. destruct Hkeep as [Hnot|Hrecent].
           ++ apply Hnot. by left.
           ++ rewrite Hp in Hq. injection Hq as <-. lia.
        -- destruct Hkeep as [Hnot|?]; [left|by right].
           intros Hin. apply Hnot. by right.
      * intros Hgoes [Hnotin Hnd]%NoDup_cons Hall.
        destruct (H4 Hgoes Hnd) as [Hret Hrecent].
        { intros q Hq. rewrite Hw1, FsMoreFacts.lookup_unlink_ne.
          - apply Hall. by right.
          - intros ->. done. }
        split; [done|]. intros q f [->|Hq]%elem_of_cons Hf.
        -- apply H2 in Hf. by rewrite Hw1, FsFacts.lookup_unlink in Hf.
        -- by eapply Hrecent.
    + apply Z.ltb_ge in Hold.
      destruct (IH count w) as (H1 & H2 & H3 & H4).
      split_and!.
      * done.
      * done.
      * intros q f Hq Hkeep. apply H3; [done|].
        destruct (decide (q = p)) as [->|Hne].
        -- right. rewrite Hp in Hq. by injection Hq as <-.
        -- destruct Hkeep as [Hnot|?]; [left|by right].
           intros Hin. apply Hnot. by right.
      * intros Hgoes [Hnotin Hnd]%NoDup_cons Hall.
        destruct (H4 Hgoes Hnd) as [Hret Hrecent].
        { intros q Hq. apply Hall. by right. }
        split; [done|]. intros q f [->|Hq]%elem_of_cons Hf.
        -- apply H2 in Hf. rewrite Hp in Hf. by injection Hf as <-.
        -- by eapply Hrecent.
Qed.

End SweepFacts.

(** X28.  [cleanup_old_pdfs] attempts no message and never creates or
    changes a file.  It keeps every file that is outside the output
    directory, or is neither a [.pdf] nor a [.json] file, or was modified at
    or after the cutoff ([keep_days] days before now); so a document rendered
    in the same run is not swept.  When every [unlink] goes through, no
    [.pdf] or [.json] file older than the cutoff is left in the output
    directory. *)
Theorem cleanup_old_pdfs_removes_only_old_output
    (env : OutputSweep.sweep_io) (self : PDFGenerator.t) (keep_days : Z) (w : World) :
  let cleaned := OutputSweep.cleanup_old_pdfs env self keep_days w in
  let cutoff_date := OutputSweep.cutoff env keep_days w in
  let swept q :=
    parent q = PDFGenerator.output_dir self
    ∧ (PyStr.endswith (name q) ".pdf" = true ∨ PyStr.endswith (name q) ".json" = true) in
  attempts cleaned = attempts w
  ∧ (∀ q f, lookup_file (fs cleaned) q = Some f -> lookup_file (fs w) q = Some f)
  ∧ (∀ q f, lookup_file (fs w) q = Some f ->
            ¬ swept q ∨ (cutoff_date ≤ st_mtime f)%Z ->
            lookup_file (fs cleaned) q = Some f)
  ∧ ((∀ w p, OutputSweep.unlink_goes_through env w p = true) ->
     ∀ q f, swept q -> lookup_file (fs cleaned) q = Some f ->
            (cutoff_date ≤ st_mtime f)%Z).
Proof.
  intros cleaned cutoff_date swept. subst cleaned.
  unfold OutputSweep.cleanup_old_pdfs. fold cutoff_date.
  set (files := Utils.glob_suffix _ _ ".pdf" ++ Utils.glob_suffix _ _ ".json").
  destruct (SweepFacts.sweep_loop_spec env cutoff_date files 0 w)
    as (H1 & H2 & H3 & H4).
  assert (∀ q, q ∈ files <-> swept q ∧ is_Some (lookup_file (fs w) q)) as Hfiles.
  { intros q. subst files swept. rewrite SweepFacts.swept_files_elem. tauto. }
  assert (∀ w', attempts w' = attempts w ->
                (∀ q, lookup_file (fs w') q
                      = lookup_file (fs (OutputSweep.sweep_loop env cutoff_date files 0 w).2) q) ->
    attempts w' = attempts w
    ∧ (∀ q f, lookup_file (fs w') q = Some f -> lookup_file (fs w) q = Some f)
    ∧ (∀ q f, lookup_file (fs w) q = Some f ->
              ¬ swept q ∨ (cutoff_date ≤ st_mtime f)%Z ->
              lookup_file (fs w') q = Some f)
    ∧ ((∀ w p, OutputSweep.unlink_goes_through env w p = true) ->
       ∀ q f, swept q -> lookup_file (fs w') q = Some f ->
              (cutoff_date ≤ st_mtime f)%Z)) as Hgoal.
  { intros w' Hat Hfs. split_and!.
    - done.
    - intros q f. rewrite Hfs. apply H2.
    - intros q f Hq Hkeep. rewrite Hfs. apply H3; [done|].
      destruct Hkeep as [Hnot|?]; [left|by right].
      intros Hin. apply Hfiles in Hin. tauto.
    - intros Hgoes q f Hswept Hq. rewrite Hfs in Hq.
      destruct (H4 Hgoes) as [_ Hrecent].
      + apply SweepFacts.swept_files_NoDup.
      + intros p Hp. by apply Hfiles in Hp as [_ ?].
      + apply (Hrecent q f); [|done]. apply Hfiles. split; [done|].
        apply H2 in Hq. by eexists. }
  destruct (OutputSweep.sweep_loop env cutoff_date files 0 w) as [[count|e] w1];
    simpl in *.
  - destruct (0 <? count)%nat; by apply Hgoal.
  - by apply Hgoal.
Qed.

Example cleanup_old_pdfs_sweeps_old_report :
  let generator := PDFGenerator.init Examples.config "." in
  let cleaned := OutputSweep.cleanup_old_pdfs MoreExamples.sweep_env generator 7
                   Examples.built_world in
  let kept := OutputSweep.cleanup_old_pdfs MoreExamples.sweep_env generator 10
                Examples.built_world in
  lookup_file (fs cleaned) Examples.report_a = None
  ∧ lookup_file (fs cleaned) (with_suffix Examples.report_a ".json") = None
  ∧ lookup_file (fs cleaned) (joinpath "./Input/GroupA" "chart.png")
    = Some (Examples.image 640 480)
  ∧ is_Some (lookup_file (fs kept) Examples.report_a).
Proof. vm_compute. split_and!; try reflexivity. eauto. Qed.
